(** * nodejs-project-manager: project, SFTP and service lifecycle

    A shallow embedding of the modules [sftp.js], [projects.js],
    [services.js] and [shell.js] of the tool, and the properties of the
    lifecycle operations proved over it.

    - JavaScript strings are sequences of UTF-16 code units ([list N]).
    - The file system is a tree of directories and files. It holds the
      files the tool reads and writes through the [fs] module of Node.js:
      the registry, the documents and directories of the projects, the
      configuration of the SSH daemon and its backups. What the commands
      do to the system (accounts, ownership, the supervisor's process
      list) and the tool's own log file are not files of this tree: they
      are seen through the trace and through the answers of the commands.
    - The operating system (shell commands, process supervisor, SSH daemon)
      is an oracle: the outcome of a command is a function of the world in
      which it is issued; every command issued is recorded in a trace.
    - Effectful functions live in a state-and-exception monad over the
      world; a thrown [Error] carries its message. *)

From Stdlib Require Import NArith ZArith Ascii String.
From stdpp Require Import base option list gmap.

Set Warnings "-register-all".

Local Open Scope N_scope.

(** ** JavaScript strings *)

Abbreviation jsstring := (list N).

Module JS.

(** Source literals are UTF-8 text; [units] decodes the bytes of a literal
    into the code units of the JavaScript string (Basic Multilingual Plane
    only, which covers every literal of the program). *)
Fixpoint decode (bs : list N) : jsstring :=
  match bs with
  | [] => []
  | b :: r =>
      if b <? 128 then b :: decode r
      else if b <? 224 then
        match r with
        | c1 :: r' => ((b - 192) * 64 + (c1 - 128)) :: decode r'
        | [] => [65533]
        end
      else
        match r with
        | c1 :: c2 :: r' =>
            ((b - 224) * 4096 + (c1 - 128) * 64 + (c2 - 128)) :: decode r'
        | _ => [65533]
        end
  end.

Definition bytes (s : string) : list N :=
  List.map N_of_ascii (list_ascii_of_string s).

Definition units (s : string) : jsstring := decode (bytes s).

(** [p] is a prefix of [s]. *)
Fixpoint prefixb (p s : jsstring) : bool :=
  match p, s with
  | [], _ => true
  | a :: p', b :: s' => (a =? b) && prefixb p' s'
  | _ :: _, [] => false
  end.

(** [String.prototype.startsWith]. *)
Definition startsWith (s p : jsstring) : bool := prefixb p s.

Fixpoint indexOf_from (m s : jsstring) (i : Z) : Z :=
  if prefixb m s then i
  else match s with
       | [] => (-1)%Z
       | _ :: s' => indexOf_from m s' (i + 1)%Z
       end.

(** [String.prototype.indexOf]: position of the first occurrence, or -1. *)
Definition indexOf (s m : jsstring) : Z := indexOf_from m s 0.

(** [String.prototype.includes]. *)
Definition includes (s m : jsstring) : bool := negb (indexOf s m =? -1)%Z.

Definition clamp (len i : Z) : Z := Z.max 0 (Z.min i len).

(** [String.prototype.substring(a, b)]: both indices are clamped to the
    string and swapped when out of order. *)
Definition substring (s : jsstring) (a b : Z) : jsstring :=
  let len := Z.of_nat (length s) in
  let a' := clamp len a in
  let b' := clamp len b in
  let lo := Z.min a' b' in
  let hi := Z.max a' b' in
  take (Z.to_nat (hi - lo)) (drop (Z.to_nat lo) s).

(** [String.prototype.substring(a)]: up to the end of the string. *)
Definition substring_from (s : jsstring) (a : Z) : jsstring :=
  substring s a (Z.of_nat (length s)).

(** White space and line terminators of ECMAScript, as removed by [trim]. *)
Definition is_space (c : N) : bool :=
  (c =? 9) || (c =? 10) || (c =? 11) || (c =? 12) || (c =? 13) || (c =? 32)
  || (c =? 160) || (c =? 5760) || ((8192 <=? c) && (c <=? 8202))
  || (c =? 8232) || (c =? 8233) || (c =? 8239) || (c =? 8287)
  || (c =? 12288) || (c =? 65279).

(** [String.prototype.trimEnd]. *)
Fixpoint trimEnd (s : jsstring) : jsstring :=
  match s with
  | [] => []
  | c :: r =>
      match trimEnd r with
      | [] => if is_space c then [] else [c]
      | t => c :: t
      end
  end.

Fixpoint trimStart (s : jsstring) : jsstring :=
  match s with
  | [] => []
  | c :: r => if is_space c then trimStart r else s
  end.

(** [String.prototype.trim]. *)
Definition trim (s : jsstring) : jsstring := trimEnd (trimStart s).

(** Number of positions of [s] at which [m] occurs. *)
Fixpoint occurrences (m s : jsstring) : nat :=
  ((if prefixb m s then 1 else 0) +
   match s with
   | [] => 0
   | _ :: s' => occurrences m s'
   end)%nat.

(** The last code unit of [m] exists and is not white space. *)
Fixpoint ends_solid (m : jsstring) : bool :=
  match m with
  | [] => false
  | [c] => negb (is_space c)
  | _ :: m' => ends_solid m'
  end.

(** Decimal rendering of a number ([String(n)] for a non-negative
    integer). *)
Fixpoint decimal_fuel (fuel : nat) (n : N) (acc : jsstring) : jsstring :=
  match fuel with
  | O => acc
  | S k =>
      let acc' := (48 + n mod 10) :: acc in
      if n / 10 =? 0 then acc' else decimal_fuel k (n / 10) acc'
  end.

Definition decimal (n : N) : jsstring :=
  decimal_fuel (S (N.to_nat (N.log2 n))) n [].

(** Joins the pieces with a separator ([Array.prototype.join]). *)
Fixpoint join (sep : jsstring) (l : list jsstring) : jsstring :=
  match l with
  | [] => []
  | [x] => x
  | x :: r => x ++ sep ++ join sep r
  end.

(** Splits at every occurrence of the code unit [c]
    ([String.prototype.split] with a one-character separator). *)
Fixpoint split (c : N) (s : jsstring) : list jsstring :=
  match s with
  | [] => [[]]
  | x :: r =>
      if x =? c then [] :: split c r
      else match split c r with
           | h :: t => (x :: h) :: t
           | [] => [[x]]
           end
  end.

End JS.

Notation "'js' s" := (JS.units s%string) (at level 9, s at level 0, only parsing).
Arguments JS.units : simpl never.

(** ** Paths ([path.posix] of Node.js) *)

Module Path.

Definition slash : N := 47.
Definition dot : jsstring := [46].
Definition dotdot : jsstring := [46; 46].

Definition is_nil (s : jsstring) : bool :=
  match s with [] => true | _ => false end.

Definition eqb (a b : jsstring) : bool := bool_decide (a = b).

(** One step of [normalizeString]: empty and [.] segments are dropped, a
    [..] removes the segment before it; at the top, [..] is kept only for a
    relative path. The stack holds the segments kept so far, last first. *)
Definition push_segment (allowAboveRoot : bool) (stack : list jsstring)
    (seg : jsstring) : list jsstring :=
  if is_nil seg || eqb seg dot then stack
  else if eqb seg dotdot then
    match stack with
    | top :: rest =>
        if eqb top dotdot then seg :: stack else rest
    | [] => if allowAboveRoot then [seg] else []
    end
  else seg :: stack.

Definition normalize_segments (allowAboveRoot : bool)
    (segs : list jsstring) : list jsstring :=
  rev (fold_left (push_segment allowAboveRoot) segs []).

Definition isAbsolute (p : jsstring) : bool :=
  match p with c :: _ => c =? slash | [] => false end.

Definition trailingSeparator (p : jsstring) : bool :=
  match last p with Some c => c =? slash | None => false end.

(** [path.normalize]. *)
Definition normalize (p : jsstring) : jsstring :=
  if is_nil p then dot
  else
    let abs := isAbsolute p in
    let body :=
      JS.join [slash] (normalize_segments (negb abs) (JS.split slash p)) in
    if is_nil body then
      if abs then [slash]
      else if trailingSeparator p then dot ++ [slash] else dot
    else
      let body' := if trailingSeparator p then body ++ [slash] else body in
      if abs then slash :: body' else body'.

(** [path.join]: the non-empty arguments joined by [/], normalised. *)
Definition join (args : list jsstring) : jsstring :=
  match filter (fun a => negb (is_nil a) = true) args with
  | [] => dot
  | parts => normalize (JS.join [slash] parts)
  end.

(** The location an absolute path denotes: its segments from the root. *)
Definition resolve (p : jsstring) : list jsstring :=
  normalize_segments false (JS.split slash p).

End Path.

(** ** Persisted documents *)

(** The ISO-8601 rendering ([toISOString]) of a clock reading. *)
Inductive isodate := ISO (ms : N).

(** A service record of a per-project document. A property that may be
    absent ([undefined]) is an [option]. *)
Record Service := mkService {
  svc_name : jsstring;
  svc_directory : jsstring;
  svc_setupCommands : option (list jsstring);
  svc_command : jsstring;
  svc_description : jsstring;
  svc_pm2Name : option jsstring;
  svc_createdAt : option isodate;
  svc_updatedAt : option isodate
}.

(** The per-project document, [<project>/project.json]. *)
Record ProjectConfig := mkProjectConfig {
  cfg_name : option jsstring;
  cfg_path : option jsstring;
  cfg_sftpUser : option jsstring;
  cfg_services : option (list Service);
  cfg_createdAt : option isodate;
  cfg_updatedAt : option isodate
}.

(** An entry of the global registry. *)
Record Project := mkProject {
  prj_name : jsstring;
  prj_path : jsstring;
  prj_sftpUser : jsstring;
  prj_createdAt : isodate
}.

(** The global registry document. *)
Record Registry := mkRegistry {
  reg_projects : option (list Project);
  reg_updatedAt : option isodate
}.

(** An entry of the supervisor's process list ([pm2 jlist]). *)
Record Pm2Process := mkPm2Process {
  proc_name : jsstring
}.

(** The [serviceConfig] argument of [addService]. *)
Record ServiceConfig := mkServiceConfig {
  sc_name : jsstring;
  sc_directory : jsstring;
  sc_command : option jsstring;
  sc_description : option jsstring;
  sc_setupCommands : option (list jsstring)
}.

(** The [updates] argument of [updateService]. *)
Record ServiceUpdates := mkServiceUpdates {
  up_directory : option jsstring;
  up_command : option jsstring;
  up_setupCommands : option (list jsstring);
  up_description : option jsstring
}.

(** The JSON documents the tool reads and writes. *)
Inductive document :=
| DRegistry (r : Registry)
| DConfig (c : ProjectConfig)
| DProcesses (l : list Pm2Process).

(** The content of a file or of a command's output: either the text of a
    JSON document, kept as the document ([JSON.parse] gives it back and
    [JSON.stringify] produces it), or any other text. *)
Inductive content :=
| Text (s : jsstring)
| Json (d : document).

#[global] Instance isodate_eq_dec : EqDecision isodate.
Proof. solve_decision. Defined.
#[global] Instance Service_eq_dec : EqDecision Service.
Proof. solve_decision. Defined.
#[global] Instance ProjectConfig_eq_dec : EqDecision ProjectConfig.
Proof. solve_decision. Defined.
#[global] Instance Project_eq_dec : EqDecision Project.
Proof. solve_decision. Defined.
#[global] Instance Registry_eq_dec : EqDecision Registry.
Proof. solve_decision. Defined.
#[global] Instance Pm2Process_eq_dec : EqDecision Pm2Process.
Proof. solve_decision. Defined.
#[global] Instance document_eq_dec : EqDecision document.
Proof. solve_decision. Defined.
#[global] Instance content_eq_dec : EqDecision content.
Proof. solve_decision. Defined.

(** ** The file system *)

Inductive node :=
| File (c : content)
| Dir (entries : gmap jsstring node).

Inductive errno := ENOENT | EISDIR | ENOTDIR | EEXIST.

Module Fs.

(** The message of the error Node raises starts with the code. *)
Definition message (e : errno) : jsstring :=
  match e with
  | ENOENT => js "ENOENT: no such file or directory"
  | EISDIR => js "EISDIR: illegal operation on a directory"
  | ENOTDIR => js "ENOTDIR: not a directory"
  | EEXIST => js "EEXIST: file already exists"
  end.

Fixpoint lookup_path (n : node) (p : list jsstring) : option node :=
  match p with
  | [] => Some n
  | s :: p' =>
      match n with
      | Dir es =>
          match es !! s with
          | Some c => lookup_path c p'
          | None => None
          end
      | File _ => None
      end
  end.

Definition read (n : node) (p : list jsstring) : errno + content :=
  match lookup_path n p with
  | Some (File c) => inr c
  | Some (Dir _) => inl EISDIR
  | None => inl ENOENT
  end.

(** Creates or replaces the file at [p]; the parent must be a directory
    and [p] itself must not be one. *)
Fixpoint write (n : node) (p : list jsstring) (c : content) : errno + node :=
  match p with
  | [] => inl EISDIR
  | s :: p' =>
      match n with
      | File _ => inl ENOTDIR
      | Dir es =>
          match p' with
          | [] =>
              match es !! s with
              | Some (Dir _) => inl EISDIR
              | _ => inr (Dir (<[s := File c]> es))
              end
          | _ :: _ =>
              match es !! s with
              | None => inl ENOENT
              | Some child =>
                  match write child p' c with
                  | inr child' => inr (Dir (<[s := child']> es))
                  | inl e => inl e
                  end
              end
          end
      end
  end.

(** [mkdir] with [recursive: true]: creates the missing directories along
    [p]; fails when a file is in the way. *)
Fixpoint mkdir_p (n : node) (p : list jsstring) : errno + node :=
  match p with
  | [] =>
      match n with
      | Dir _ => inr n
      | File _ => inl EEXIST
      end
  | s :: p' =>
      match n with
      | File _ => inl ENOTDIR
      | Dir es =>
          match mkdir_p (default (Dir ∅) (es !! s)) p' with
          | inr child' => inr (Dir (<[s := child']> es))
          | inl e => inl e
          end
      end
  end.

(** [rm] with [recursive: true, force: true]: removes the entry at [p] and
    everything below it; a missing entry is not an error. *)
Fixpoint remove (n : node) (p : list jsstring) : node :=
  match p with
  | [] => n
  | s :: p' =>
      match n with
      | File _ => n
      | Dir es =>
          match p' with
          | [] => Dir (delete s es)
          | _ :: _ =>
              match es !! s with
              | Some child => Dir (<[s := remove child p']> es)
              | None => n
              end
          end
      end
  end.

End Fs.

(** ** The world *)

Inductive level := Info | Success | Error | Warn | Debug.

(** What a run does to its environment, in order. *)
Inductive event :=
| Log (l : level) (message : jsstring)
| Exec (command : jsstring) (cwd : option jsstring)
| FsMkdir (path : jsstring)
| FsWrite (path : jsstring) (c : content)
| FsCopy (src dst : jsstring)
| FsRm (path : jsstring).

Record World := mkWorld {
  fs : node;
  trace : list event;
  ticks : nat
}.

(** The outcome of an external command. *)
Inductive outcome :=
| Exit0 (stdout : content)
| Failed (message : jsstring).

(** A computation either returns a value or throws an [Error] with a
    message; the world it leaves behind is kept in both cases. *)
Inductive result (A : Type) :=
| Ok (a : A)
| Throw (message : jsstring).
Arguments Ok {A} a.
Arguments Throw {A} message.

Definition M (A : Type) : Type := World -> result A * World.

Definition ret {A} (a : A) : M A := fun w => (Ok a, w).

Definition throw {A} (message : jsstring) : M A := fun w => (Throw message, w).

Definition bind {A B} (m : M A) (k : A -> M B) : M B :=
  fun w =>
    match m w with
    | (Ok a, w') => k a w'
    | (Throw e, w') => (Throw e, w')
    end.

(** [try { m } catch (error) { handler error }]. *)
Definition try_catch {A} (m : M A) (handler : jsstring -> M A) : M A :=
  fun w =>
    match m w with
    | (Ok a, w') => (Ok a, w')
    | (Throw e, w') => handler e w'
    end.

Declare Scope js_scope.
Delimit Scope js_scope with M.
Notation "x <- m ;; k" := (bind m (fun x => k))
  (at level 100, m at next level, right associativity) : js_scope.
Notation "m ;; k" := (bind m (fun _ => k))
  (at level 100, right associativity) : js_scope.
Open Scope js_scope.

(** [for (const x of xs) { body x }]. *)
Fixpoint for_of {A} (xs : list A) (body : A -> M unit) : M unit :=
  match xs with
  | [] => ret tt
  | x :: r => body x ;; for_of r body
  end.

Definition emit (e : event) : M unit :=
  fun w => (Ok tt, mkWorld (fs w) (trace w ++ [e]) (ticks w)).

(** The events that act on the system: everything but the log lines. *)
Definition is_effect (e : event) : bool :=
  match e with
  | Log _ _ => false
  | _ => true
  end.

Definition effects (evs : list event) : list event := List.filter is_effect evs.

(** The command lines handed to the operating system, in order. *)
Fixpoint commands (evs : list event) : list jsstring :=
  match evs with
  | [] => []
  | Exec c _ :: r => c :: commands r
  | _ :: r => commands r
  end.

(** [a || b] on strings: the empty string and [undefined] are falsy. *)
Definition or_string (a : option jsstring) (b : jsstring) : jsstring :=
  match a with
  | Some (c :: s) => c :: s
  | _ => b
  end.

Definition or_list {A} (a : option (list A)) (b : list A) : list A :=
  match a with
  | Some l => l
  | None => b
  end.

Definition content_trim (c : content) : content :=
  match c with
  | Text s => Text (JS.trim s)
  | Json d => Json d
  end.

(** ** JSON texts

    [JSON.accepts] follows the grammar of JSON texts and is liberal in the
    tokens: any escape inside a string, any run of digits, signs, dots and
    exponent marks as a number. A text that [JSON.parse] accepts is
    accepted; a text that is refused here makes [JSON.parse] raise a
    [SyntaxError]. *)
Module JSON.

(** Space, tab, line feed and carriage return. *)
Definition is_ws (c : N) : bool :=
  (c =? 32) || (c =? 9) || (c =? 10) || (c =? 13).

Fixpoint skip_ws (s : jsstring) : jsstring :=
  match s with
  | c :: r => if is_ws c then skip_ws r else s
  | [] => []
  end.

(** What follows the closing quote of a string whose opening quote has been
    read; a backslash takes the next unit with it. *)
Fixpoint string_rest (s : jsstring) : option jsstring :=
  match s with
  | [] => None
  | c :: r =>
      if c =? 34 then Some r
      else if c =? 92 then
        match r with
        | [] => None
        | _ :: r' => string_rest r'
        end
      else string_rest r
  end.

Definition is_digit (c : N) : bool := (48 <=? c) && (c <=? 57).

Definition is_number_char (c : N) : bool :=
  is_digit c || (c =? 43) || (c =? 45) || (c =? 46) || (c =? 69) || (c =? 101).

Fixpoint number_rest (s : jsstring) : jsstring :=
  match s with
  | c :: r => if is_number_char c then number_rest r else s
  | [] => []
  end.

(** The verdict on the beginning of a text: a value was read and [r] is what
    follows it, or the text is refused, or the reading was given up. *)
Inductive verdict :=
| Rest (r : jsstring)
| Reject
| Unknown.

(** A value, the members of an object after its opening brace, the elements
    of an array after its opening bracket. *)
Fixpoint value (fuel : nat) (s : jsstring) : verdict :=
  match fuel with
  | O => Unknown
  | S fuel =>
      match skip_ws s with
      | [] => Reject
      | c :: r =>
          if c =? 123 then
            match skip_ws r with
            | [] => Reject
            | c' :: r' =>
                if c' =? 125 then Rest r' else members fuel (c' :: r')
            end
          else if c =? 91 then
            match skip_ws r with
            | [] => Reject
            | c' :: r' =>
                if c' =? 93 then Rest r' else elements fuel (c' :: r')
            end
          else if c =? 34 then
            match string_rest r with
            | Some r' => Rest r'
            | None => Reject
            end
          else if (c =? 45) || is_digit c then Rest (number_rest r)
          else if JS.prefixb (js "true") (c :: r) then Rest (drop 4 (c :: r))
          else if JS.prefixb (js "false") (c :: r) then Rest (drop 5 (c :: r))
          else if JS.prefixb (js "null") (c :: r) then Rest (drop 4 (c :: r))
          else Reject
      end
  end
with members (fuel : nat) (s : jsstring) : verdict :=
  match fuel with
  | O => Unknown
  | S fuel =>
      match skip_ws s with
      | [] => Reject
      | c :: r =>
          if c =? 34 then
            match string_rest r with
            | None => Reject
            | Some r1 =>
                match skip_ws r1 with
                | [] => Reject
                | c1 :: r2 =>
                    if c1 =? 58 then
                      match value fuel r2 with
                      | Rest r3 =>
                          match skip_ws r3 with
                          | [] => Reject
                          | c3 :: r4 =>
                              if c3 =? 44 then members fuel r4
                              else if c3 =? 125 then Rest r4
                              else Reject
                          end
                      | v => v
                      end
                    else Reject
                end
            end
          else Reject
      end
  end
with elements (fuel : nat) (s : jsstring) : verdict :=
  match fuel with
  | O => Unknown
  | S fuel =>
      match value fuel s with
      | Rest r =>
          match skip_ws r with
          | [] => Reject
          | c :: r' =>
              if c =? 44 then elements fuel r'
              else if c =? 93 then Rest r'
              else Reject
          end
      | v => v
      end
  end.

(** One value, with white space around it and nothing else. A reading that
    was given up counts as accepted. *)
Definition accepts (s : jsstring) : bool :=
  match value (2 * length s + 2) s with
  | Rest r =>
      match skip_ws r with
      | [] => true
      | _ :: _ => false
      end
  | Reject => false
  | Unknown => true
  end.

End JSON.

(** [JSON.parse]. The text of a document the tool works with is kept as the
    document ([Json d]), which parsing gives back. [Text s] stands for a
    text that is not JSON ([JSON.accepts s = false]), on which parsing
    raises a [SyntaxError]; a JSON text of yet another shape (such as
    [null], or a registry whose [projects] is a string) has no counterpart
    in [content]. *)
Definition JSON_parse (c : content) : M document :=
  match c with
  | Json d => ret d
  | Text _ => throw (js "Unexpected token in JSON")
  end.

(** ** [logger.js]

    A log line is an event of the trace. The line the logger also appends
    to its own file ([/var/log/nodejs-project-manager/manager.log], a
    failure to do so being ignored) is not kept: that file is none of the
    files of [fs]. *)

Definition logger_info (message : jsstring) : M unit := emit (Log Info message).
Definition logger_success (message : jsstring) : M unit := emit (Log Success message).
Definition logger_error (message : jsstring) : M unit := emit (Log Error message).
Definition logger_warn (message : jsstring) : M unit := emit (Log Warn message).
Definition logger_debug (message : jsstring) : M unit := emit (Log Debug message).

(** ** The [fs] module of Node.js

    Every path the tool hands to [fs] is absolute. A path is followed after
    normalisation ([Path.resolve] removes the [.] and [..] segments), which
    is what the file system does for a path of plain segments; a path that
    climbs with [..] out of a directory that does not exist is followed
    differently by the file system, and the theorems on stored directories
    take them made of plain segments. *)

Definition existsSync (path : jsstring) : M bool :=
  fun w => (Ok (bool_decide (is_Some (Fs.lookup_path (fs w) (Path.resolve path)))), w).

Definition readFileSync (path : jsstring) : M content :=
  fun w =>
    match Fs.read (fs w) (Path.resolve path) with
    | inr c => (Ok c, w)
    | inl e => (Throw (Fs.message e), w)
    end.

Definition writeFileSync (path : jsstring) (c : content) : M unit :=
  fun w =>
    match Fs.write (fs w) (Path.resolve path) c with
    | inr n => (Ok tt, mkWorld n (trace w ++ [FsWrite path c]) (ticks w))
    | inl e => (Throw (Fs.message e), w)
    end.

Definition copyFileSync (src dst : jsstring) : M unit :=
  fun w =>
    match Fs.read (fs w) (Path.resolve src) with
    | inl e => (Throw (Fs.message e), w)
    | inr c =>
        match Fs.write (fs w) (Path.resolve dst) c with
        | inr n => (Ok tt, mkWorld n (trace w ++ [FsCopy src dst]) (ticks w))
        | inl e => (Throw (Fs.message e), w)
        end
    end.

(** [fs.mkdirSync(path, { recursive: true })]. *)
Definition mkdirSync (path : jsstring) : M unit :=
  fun w =>
    match Fs.mkdir_p (fs w) (Path.resolve path) with
    | inr n => (Ok tt, mkWorld n (trace w ++ [FsMkdir path]) (ticks w))
    | inl e => (Throw (Fs.message e), w)
    end.

(** [fs.rmSync(path, { recursive: true, force: true })]. *)
Definition rmSync (path : jsstring) : M unit :=
  fun w =>
    (Ok tt, mkWorld (Fs.remove (fs w) (Path.resolve path))
                    (trace w ++ [FsRm path]) (ticks w)).

(** ** [constants.js] *)

Definition BASE_PATH : jsstring := js "/var/www".
Definition SFTP_USER_PREFIX : jsstring := js "sftp_".
Definition SFTP_GROUP : jsstring := js "sftpusers".
Definition SSH_CONFIG_PATH : jsstring := js "/etc/ssh/sshd_config".
Definition TOOL_CONFIG_PATH : jsstring := js "/etc/nodejs-project-manager".
Definition PROJECTS_CONFIG_FILE : jsstring :=
  js "/etc/nodejs-project-manager/projects.json".
Definition PROJECT_STRUCTURE_sites : jsstring := js "sites".
Definition PROJECT_STRUCTURE_scripts : jsstring := js "scripts".
Definition PROJECT_STRUCTURE_config : jsstring := js "project.json".

Definition nl : jsstring := [10].

(** The pattern [/^[a-zA-Z][a-zA-Z0-9_-]*$/] of project and service names. *)
Definition is_letter (c : N) : bool :=
  ((65 <=? c) && (c <=? 90)) || ((97 <=? c) && (c <=? 122)).

Definition is_name_char (c : N) : bool :=
  is_letter c || ((48 <=? c) && (c <=? 57)) || (c =? 95) || (c =? 45).

Definition valid_name (s : jsstring) : bool :=
  match s with
  | [] => false
  | c :: r => is_letter c && forallb is_name_char r
  end.


(** ** Concrete worlds

    A host with one project, [demo], its three services, and the files the
    tool keeps; and operating systems that answer by a fixed script. *)

Module Scenario.

Definition clock : nat -> N := fun n => 1700000000000 + N.of_nat n.

Definition stringify : document -> jsstring := fun _ => js "{}".

(** The operating system in which the commands of [failing] fail, [pm2
    jlist] prints the process list [procs], and every other command exits
    normally without output. *)
Definition os (failing : list jsstring) (procs : list Pm2Process)
    : World -> jsstring -> option jsstring -> outcome :=
  fun _ command _ =>
    if bool_decide (command ∈ failing) then Failed (js "exit code 1")
    else if bool_decide (command = js "pm2 jlist")
         then Exit0 (Json (DProcesses procs))
         else Exit0 (Text []).

Definition put_dir (path : jsstring) (n : node) : node :=
  match Fs.mkdir_p n (Path.resolve path) with
  | inr n' => n'
  | inl _ => n
  end.

Definition put_file (path : jsstring) (c : content) (n : node) : node :=
  match Fs.write n (Path.resolve path) c with
  | inr n' => n'
  | inl _ => n
  end.

Definition t0 : isodate := ISO 1690000000000.

Definition service (name : string) : Service :=
  mkService (js name) (js "/var/www/demo/sites/" ++ js name) (Some [])
            (js "npm start") [] (Some (js "demo-" ++ js name)) (Some t0) None.

Definition demo : Project :=
  mkProject (js "demo") (js "/var/www/demo") (js "sftp_demo") t0.

(** A second project, not on the host yet. *)
Definition shop : Project :=
  mkProject (js "shop") (js "/var/www/shop") (js "sftp_shop") t0.

Definition demo_config (services : list Service) : ProjectConfig :=
  mkProjectConfig (Some (js "demo")) (Some (js "/var/www/demo"))
                  (Some (js "sftp_demo")) (Some services) (Some t0) None.

(** The host's files; [sshd] is the text of the daemon's configuration and
    [services] the services the project declares. *)
Definition host (sshd : jsstring) (registry : list Project)
    (services : list Service) : node :=
  put_file (js "/var/www/demo/project.json")
           (Json (DConfig (demo_config services)))
    (put_dir (js "/var/www/demo/sites/worker")
    (put_dir (js "/var/www/demo/sites/web")
    (put_dir (js "/var/www/demo/sites/api")
    (put_dir (js "/var/www/demo/scripts")
    (put_file (js "/etc/nodejs-project-manager/projects.json")
              (Json (DRegistry (mkRegistry (Some registry) (Some t0))))
    (put_dir (js "/etc/nodejs-project-manager")
    (put_file (js "/etc/ssh/sshd_config") (Text sshd)
    (put_dir (js "/etc/ssh") (Dir ∅))))))))).

Definition plain_sshd : jsstring := js "Port 22" ++ nl ++ js "PermitRootLogin no" ++ nl.

Definition world (sshd : jsstring) (registry : list Project)
    (services : list Service) : World :=
  mkWorld (host sshd registry services) [] 0.

(** The usual state: a plain daemon configuration, [demo] registered with
    the services [api], [web] and [worker]. *)
Definition w0 : World :=
  world plain_sshd [demo] [service "api"; service "web"; service "worker"].

(** The same host before any service was declared. *)
Definition w_bare : World := world plain_sshd [demo] [].

(** The usual host after its registry and the document of [demo] were
    overwritten with texts that are not JSON. *)
Definition garbled : World :=
  mkWorld (put_file PROJECTS_CONFIG_FILE (Text (js "{ projects: oops"))
          (put_file (js "/var/www/demo/project.json") (Text (js "<html>"))
             (fs w0))) [] 0.

(** A host on which nothing exists yet. *)
Definition fresh : World := mkWorld (Dir ∅) [] 0.

(** A request to add the service [name], in the directory of that name. *)
Definition request (name : string) : ServiceConfig :=
  mkServiceConfig (js name) (js name) None None None.

End Scenario.
Section Tool.

(** The readings of the system clock, in the order they are taken. *)
Variable clock : nat -> N.

(** The operating system: the outcome of a command line, run in a working
    directory, in a given world. *)
Variable os : World -> jsstring -> option jsstring -> outcome.

(** The text of a JSON document. *)
Variable JSON_stringify : document -> jsstring.

Definition Date_now : M N :=
  fun w => (Ok (clock (ticks w)), mkWorld (fs w) (trace w) (S (ticks w))).

(** [new Date().toISOString()]. *)
Definition Date_toISOString : M isodate :=
  t <- Date_now ;; ret (ISO t).

(** The text read from a file ([readFileSync(path, 'utf8')]). *)
Definition utf8 (c : content) : jsstring :=
  match c with
  | Text s => s
  | Json d => JSON_stringify d
  end.

(** [exec] and [execSync] of [child_process]: the command is handed to the
    operating system; a non-zero exit raises. What the command does to the
    system shows in the answers to the commands issued after it (the world
    the oracle is asked in holds the trace so far); the files of [fs], which
    the tool manages through the [fs] module, are left to the tool. *)
Definition child_process_exec (command : jsstring) (cwd : option jsstring)
    : M content :=
  fun w =>
    let w' := mkWorld (fs w) (trace w ++ [Exec command cwd]) (ticks w) in
    match os w command cwd with
    | Exit0 out => (Ok out, w')
    | Failed message => (Throw message, w')
    end.

(** ** [shell.js] *)

Definition execSyncSafe (command : jsstring) : M content :=
  try_catch
    (logger_debug (js "Executing: " ++ command) ;;
     out <- child_process_exec command None ;;
     ret (content_trim out))
    (fun message =>
       logger_debug (js "Command failed: " ++ command ++ js " - " ++ message) ;;
       throw message).

Definition execCommand (command : jsstring) (cwd : option jsstring)
    : M content :=
  try_catch
    (logger_debug (js "Executing async: " ++ command) ;;
     out <- child_process_exec command cwd ;;
     ret (content_trim out))
    (fun message =>
       logger_debug
         (js "Async command failed: " ++ command ++ js " - " ++ message) ;;
       throw message).

Definition userExists (username : jsstring) : M bool :=
  try_catch
    (execSyncSafe (js "id " ++ username) ;; ret true)
    (fun _ => ret false).

Definition groupExists (groupname : jsstring) : M bool :=
  try_catch
    (execSyncSafe (js "getent group " ++ groupname) ;; ret true)
    (fun _ => ret false).

Definition restartSSH : M unit :=
  try_catch
    (execCommand (js "systemctl restart sshd") None ;;
     logger_success (js "Service SSH redémarré"))
    (fun _ =>
       try_catch
         (execCommand (js "systemctl restart ssh") None ;;
          logger_success (js "Service SSH redémarré"))
         (fun e => throw (js "Impossible de redémarrer SSH: " ++ e))).

Definition testSSHConfig : M bool :=
  try_catch
    (execCommand (js "sshd -t") None ;; ret true)
    (fun message =>
       logger_error (js "Configuration SSH invalide: " ++ message) ;;
       ret false).

Definition pm2Command (args : jsstring) : M content :=
  try_catch
    (execCommand (js "pm2 " ++ args) None)
    (fun message => throw (js "Erreur PM2: " ++ message)).

Definition getPm2ProcessStatus (processName : jsstring)
    : M (option Pm2Process) :=
  try_catch
    (stdout <- execCommand (js "pm2 jlist") None ;;
     d <- JSON_parse stdout ;;
     match d with
     | DProcesses processes =>
         ret (List.find (fun p => bool_decide (proc_name p = processName))
                        processes)
     | _ => throw (js "processes.find is not a function")
     end)
    (fun _ => ret None).

(** ** [sftp.js] *)

Definition SFTP_CONFIG_MARKER : jsstring :=
  js "# === NODEJS PROJECT MANAGER SFTP CONFIG ===".
Definition SFTP_CONFIG_END_MARKER : jsstring :=
  js "# === END NODEJS PROJECT MANAGER SFTP CONFIG ===".

Definition ensureSftpGroup : M unit :=
  present <- groupExists SFTP_GROUP ;;
  if negb present then
    logger_info (js "Création du groupe " ++ SFTP_GROUP ++ js "...") ;;
    execCommand (js "groupadd " ++ SFTP_GROUP) None ;;
    logger_success (js "Groupe " ++ SFTP_GROUP ++ js " créé")
  else
    logger_debug (js "Groupe " ++ SFTP_GROUP ++ js " existe déjà").

Definition createSftpUser (projectName password : jsstring) : M jsstring :=
  let username := SFTP_USER_PREFIX ++ projectName in
  let projectPath := Path.join [BASE_PATH; projectName] in
  let sitesPath := Path.join [projectPath; js "sites"] in
  present <- userExists username ;;
  if present then
    throw (js "L'utilisateur " ++ username ++ js " existe déjà")
  else
    ensureSftpGroup ;;
    logger_info (js "Création de l'utilisateur " ++ username ++ js "...") ;;
    execCommand
      (js "useradd -g " ++ SFTP_GROUP ++ js " -d " ++ projectPath
       ++ js " -s /usr/sbin/nologin " ++ username) None ;;
    execCommand
      (js "echo " ++ [34] ++ username ++ js ":" ++ password ++ [34]
       ++ js " | chpasswd") None ;;
    execCommand (js "chown root:root " ++ projectPath) None ;;
    execCommand (js "chmod 755 " ++ projectPath) None ;;
    execCommand
      (js "chown " ++ username ++ js ":" ++ SFTP_GROUP ++ js " " ++ sitesPath)
      None ;;
    execCommand (js "chmod 755 " ++ sitesPath) None ;;
    logger_success (js "Utilisateur " ++ username ++ js " créé avec succès") ;;
    ret username.

Definition deleteSftpUser (projectName : jsstring) : M unit :=
  let username := SFTP_USER_PREFIX ++ projectName in
  present <- userExists username ;;
  if negb present then
    logger_warn (js "L'utilisateur " ++ username ++ js " n'existe pas")
  else
    logger_info (js "Suppression de l'utilisateur " ++ username ++ js "...") ;;
    try_catch
      (execCommand (js "pkill -u " ++ username) None ;; ret tt)
      (fun _ => ret tt) ;;
    execCommand (js "userdel " ++ username) None ;;
    logger_success (js "Utilisateur " ++ username ++ js " supprimé").

Definition readSSHConfig : M jsstring :=
  try_catch
    (c <- readFileSync SSH_CONFIG_PATH ;; ret (utf8 c))
    (fun message =>
       throw (js "Impossible de lire " ++ SSH_CONFIG_PATH ++ js ": "
              ++ message)).

Definition backupPath (now : N) : jsstring :=
  SSH_CONFIG_PATH ++ js ".backup." ++ JS.decimal now.

Definition writeSSHConfig (text : jsstring) : M unit :=
  try_catch
    (now <- Date_now ;;
     copyFileSync SSH_CONFIG_PATH (backupPath now) ;;
     logger_debug (js "Backup créé: " ++ backupPath now) ;;
     writeFileSync SSH_CONFIG_PATH (Text text))
    (fun message =>
       throw (js "Impossible d'écrire " ++ SSH_CONFIG_PATH ++ js ": "
              ++ message)).

Definition generateSftpConfig (projects : list Project) : jsstring :=
  match projects with
  | [] => []
  | _ :: _ =>
      nl ++ SFTP_CONFIG_MARKER ++ nl
      ++ js "# Configuration générée automatiquement - Ne pas modifier manuellement"
      ++ nl ++ nl
      ++ js "Match Group " ++ SFTP_GROUP ++ nl
      ++ js "    ChrootDirectory %h" ++ nl
      ++ js "    ForceCommand internal-sftp" ++ nl
      ++ js "    AllowTcpForwarding no" ++ nl
      ++ js "    X11Forwarding no" ++ nl
      ++ js "    PasswordAuthentication yes" ++ nl
      ++ nl ++ SFTP_CONFIG_END_MARKER ++ nl
  end.

(** The removal of the old fence: the text before the first start marker
    joined to the text after the first end marker, when both are found. *)
Definition excise_fence (sshConfig : jsstring) : jsstring :=
  let startIndex := JS.indexOf sshConfig SFTP_CONFIG_MARKER in
  let endIndex := JS.indexOf sshConfig SFTP_CONFIG_END_MARKER in
  if negb (startIndex =? -1)%Z && negb (endIndex =? -1)%Z then
    JS.substring sshConfig 0 startIndex
    ++ JS.substring_from sshConfig
         (endIndex + Z.of_nat (length SFTP_CONFIG_END_MARKER))%Z
  else sshConfig.

(** The text [updateSSHConfig] writes, from the text it read. *)
Definition regenerate (sshConfig : jsstring) (projects : list Project)
    : jsstring :=
  JS.trimEnd (excise_fence sshConfig) ++ generateSftpConfig projects.

Definition updateSSHConfig (projects : list Project) : M unit :=
  logger_info (js "Mise à jour de la configuration SSH...") ;;
  sshConfig <- readSSHConfig ;;
  writeSSHConfig (regenerate sshConfig projects) ;;
  isValid <- testSSHConfig ;;
  if negb isValid then
    throw (js "La configuration SSH générée est invalide")
  else
    restartSSH ;;
    logger_success (js "Configuration SSH mise à jour").

Definition isSftpConfigured : M bool :=
  sshConfig <- readSSHConfig ;;
  ret (JS.includes sshConfig SFTP_CONFIG_MARKER).

(** ** [projects.js] *)

Definition initConfigDir : M unit :=
  present <- existsSync TOOL_CONFIG_PATH ;;
  (if negb present then
     mkdirSync TOOL_CONFIG_PATH ;;
     logger_debug (js "Dossier de configuration créé: " ++ TOOL_CONFIG_PATH)
   else ret tt) ;;
  present <- existsSync PROJECTS_CONFIG_FILE ;;
  if negb present then
    writeFileSync PROJECTS_CONFIG_FILE
      (Json (DRegistry (mkRegistry (Some []) None))) ;;
    logger_debug (js "Fichier de configuration créé: " ++ PROJECTS_CONFIG_FILE)
  else ret tt.

(** [config.projects] of a parsed document. *)
Definition document_projects (d : document) : option (list Project) :=
  match d with
  | DRegistry r => reg_projects r
  | _ => None
  end.

Definition loadProjects : M (list Project) :=
  try_catch
    (initConfigDir ;;
     data <- readFileSync PROJECTS_CONFIG_FILE ;;
     config <- JSON_parse data ;;
     ret (or_list (document_projects config) []))
    (fun message =>
       logger_error (js "Erreur lors du chargement des projets: " ++ message) ;;
       ret []).

Definition saveProjects (projects : list Project) : M unit :=
  try_catch
    (initConfigDir ;;
     now <- Date_toISOString ;;
     writeFileSync PROJECTS_CONFIG_FILE
       (Json (DRegistry (mkRegistry (Some projects) (Some now)))) ;;
     logger_debug (js "Configuration des projets sauvegardée"))
    (fun message =>
       throw (js "Erreur lors de la sauvegarde: " ++ message)).

Definition getProject (projectName : jsstring) : M (option Project) :=
  projects <- loadProjects ;;
  ret (List.find (fun p => bool_decide (prj_name p = projectName)) projects).

Definition projectExists (projectName : jsstring) : M bool :=
  p <- getProject projectName ;;
  ret (match p with Some _ => true | None => false end).

(** The per-project object a parsed document is used as: a document of
    another shape has none of its properties. *)
Definition as_config (d : document) : ProjectConfig :=
  match d with
  | DConfig c => c
  | _ => mkProjectConfig None None None None None None
  end.

Definition configPath (projectName : jsstring) : jsstring :=
  Path.join [BASE_PATH; projectName; PROJECT_STRUCTURE_config].

Definition loadProjectConfig (projectName : jsstring) : M ProjectConfig :=
  loaded <-
    try_catch
      (present <- existsSync (configPath projectName) ;;
       if present then
         data <- readFileSync (configPath projectName) ;;
         d <- JSON_parse data ;;
         ret (Some (as_config d))
       else ret None)
      (fun message =>
         logger_warn
           (js "Erreur lors du chargement de la config du projet: "
            ++ message) ;;
         ret None) ;;
  match loaded with
  | Some config => ret config
  | None =>
      now <- Date_toISOString ;;
      ret (mkProjectConfig (Some projectName) None None (Some []) (Some now)
                           None)
  end.

Definition set_updatedAt (config : ProjectConfig) (now : isodate)
    : ProjectConfig :=
  mkProjectConfig (cfg_name config) (cfg_path config) (cfg_sftpUser config)
                  (cfg_services config) (cfg_createdAt config) (Some now).

(** The caller's [config] object is stamped in place; the stamped object
    is returned so that the caller goes on with it. *)
Definition saveProjectConfig (projectName : jsstring) (config : ProjectConfig)
    : M ProjectConfig :=
  try_catch
    (now <- Date_toISOString ;;
     let config := set_updatedAt config now in
     writeFileSync (configPath projectName) (Json (DConfig config)) ;;
     logger_debug
       (js "Configuration du projet " ++ projectName ++ js " sauvegardée") ;;
     ret config)
    (fun message =>
       throw (js "Erreur lors de la sauvegarde de la config: " ++ message)).

Definition createProject (projectName sftpPassword : jsstring)
    : M ProjectConfig :=
  if negb (valid_name projectName) then
    throw (js "Le nom du projet doit commencer par une lettre et ne contenir que des lettres, chiffres, tirets et underscores")
  else
    known <- projectExists projectName ;;
    if known then
      throw (js "Le projet " ++ projectName ++ js " existe déjà")
    else
      let projectPath := Path.join [BASE_PATH; projectName] in
      taken <- existsSync projectPath ;;
      if taken then
        throw (js "Le dossier " ++ projectPath ++ js " existe déjà")
      else
        logger_info (js "Création du projet " ++ projectName ++ js "...") ;;
        let sitesPath := Path.join [projectPath; PROJECT_STRUCTURE_sites] in
        let scriptsPath := Path.join [projectPath; PROJECT_STRUCTURE_scripts] in
        mkdirSync projectPath ;;
        mkdirSync sitesPath ;;
        mkdirSync scriptsPath ;;
        logger_success (js "Dossiers créés: " ++ projectPath) ;;
        sftpUsername <- createSftpUser projectName sftpPassword ;;
        now <- Date_toISOString ;;
        let projectConfig :=
          mkProjectConfig (Some projectName) (Some projectPath)
                          (Some sftpUsername) (Some []) (Some now) None in
        projectConfig <- saveProjectConfig projectName projectConfig ;;
        projects <- loadProjects ;;
        let projects :=
          projects ++ [mkProject projectName projectPath sftpUsername now] in
        saveProjects projects ;;
        updateSSHConfig projects ;;
        logger_success (js "Projet " ++ projectName ++ js " créé avec succès !") ;;
        ret projectConfig.

Definition deleteProject (projectName : jsstring) (deleteFiles : bool)
    : M unit :=
  project <- getProject projectName ;;
  match project with
  | None => throw (js "Le projet " ++ projectName ++ js " n'existe pas")
  | Some _ =>
      logger_info (js "Suppression du projet " ++ projectName ++ js "...") ;;
      try_catch
        (projectConfig <- loadProjectConfig projectName ;;
         for_of (or_list (cfg_services projectConfig) [])
           (fun service =>
              let processName := projectName ++ js "-" ++ svc_name service in
              try_catch
                (pm2Command (js "delete " ++ processName) ;; ret tt)
                (fun _ => ret tt)))
        (fun message =>
           logger_warn (js "Erreur lors de l'arrêt des services: " ++ message)) ;;
      deleteSftpUser projectName ;;
      projects <- loadProjects ;;
      let projects :=
        List.filter (fun p => negb (bool_decide (prj_name p = projectName)))
                    projects in
      saveProjects projects ;;
      updateSSHConfig projects ;;
      (if deleteFiles then
         let projectPath := Path.join [BASE_PATH; projectName] in
         present <- existsSync projectPath ;;
         if present then
           rmSync projectPath ;;
           logger_success (js "Fichiers du projet supprimés: " ++ projectPath)
         else ret tt
       else ret tt) ;;
      logger_success (js "Projet " ++ projectName ++ js " supprimé")
  end.

(** ** [services.js] *)

(** Reading [projectConfig.services] to call a method on it: a
    [TypeError] when the property is absent. *)
Definition services_of (config : ProjectConfig) : M (list Service) :=
  match cfg_services config with
  | Some l => ret l
  | None => throw (js "Cannot read properties of undefined")
  end.

Definition set_services (config : ProjectConfig) (l : list Service)
    : ProjectConfig :=
  mkProjectConfig (cfg_name config) (cfg_path config) (cfg_sftpUser config)
                  (Some l) (cfg_createdAt config) (cfg_updatedAt config).

Definition has_name (name : jsstring) (s : Service) : bool :=
  bool_decide (svc_name s = name).

(** [directory.startsWith('/') ? directory : path.join(...)]. *)
Definition servicePath (projectName directory : jsstring) : jsstring :=
  if JS.startsWith directory [Path.slash] then directory
  else Path.join [BASE_PATH; projectName; PROJECT_STRUCTURE_sites; directory].

Definition addService (projectName : jsstring) (serviceConfig : ServiceConfig)
    : M Service :=
  let name := sc_name serviceConfig in
  if negb (valid_name name) then
    throw (js "Le nom du service doit commencer par une lettre et ne contenir que des lettres, chiffres, tirets et underscores")
  else
    projectConfig <- loadProjectConfig projectName ;;
    services <- services_of projectConfig ;;
    if existsb (has_name name) services then
      throw (js "Le service " ++ name ++ js " existe déjà dans ce projet")
    else
      let servicePath := servicePath projectName (sc_directory serviceConfig) in
      present <- existsSync servicePath ;;
      (if negb present then
         mkdirSync servicePath ;;
         logger_info (js "Dossier du service créé: " ++ servicePath)
       else ret tt) ;;
      now <- Date_toISOString ;;
      let service :=
        mkService name servicePath
                  (Some (or_list (sc_setupCommands serviceConfig) []))
                  (or_string (sc_command serviceConfig) (js "npm start"))
                  (or_string (sc_description serviceConfig) [])
                  (Some (projectName ++ js "-" ++ name))
                  (Some now) None in
      saveProjectConfig projectName
        (set_services projectConfig (services ++ [service])) ;;
      logger_success
        (js "Service " ++ name ++ js " ajouté au projet " ++ projectName) ;;
      ret service.

(** [Array.prototype.findIndex]; [None] stands for -1. *)
Fixpoint findIndex {A} (f : A -> bool) (l : list A) : option nat :=
  match l with
  | [] => None
  | x :: r => if f x then Some O else option_map S (findIndex f r)
  end.

Definition getService (projectName serviceName : jsstring)
    : M (option Service) :=
  projectConfig <- loadProjectConfig projectName ;;
  services <- services_of projectConfig ;;
  ret (List.find (has_name serviceName) services).

Definition listServices (projectName : jsstring) : M (list Service) :=
  projectConfig <- loadProjectConfig projectName ;;
  ret (or_list (cfg_services projectConfig) []).

(** [service.pm2Name || `${projectName}-${serviceName}`]. *)
Definition pm2Name_of (projectName serviceName : jsstring) (service : Service)
    : jsstring :=
  or_string (svc_pm2Name service) (projectName ++ js "-" ++ serviceName).

Definition stopService (projectName serviceName : jsstring) : M unit :=
  found <- getService projectName serviceName ;;
  match found with
  | None => throw (js "Le service " ++ serviceName ++ js " n'existe pas")
  | Some service =>
      let pm2Name := pm2Name_of projectName serviceName service in
      logger_info (js "Arrêt du service " ++ serviceName ++ js "...") ;;
      try_catch
        (pm2Command (js "stop " ++ pm2Name) ;;
         pm2Command (js "save") ;;
         logger_success (js "Service " ++ serviceName ++ js " arrêté"))
        (fun message => throw (js "Erreur lors de l'arrêt: " ++ message))
  end.

Definition removeService (projectName serviceName : jsstring) : M unit :=
  projectConfig <- loadProjectConfig projectName ;;
  services <- services_of projectConfig ;;
  match findIndex (has_name serviceName) services with
  | None =>
      throw (js "Le service " ++ serviceName
             ++ js " n'existe pas dans ce projet")
  | Some serviceIndex =>
      match services !! serviceIndex with
      | None => throw (js "Cannot read properties of undefined")
      | Some service =>
          try_catch (stopService projectName serviceName) (fun _ => ret tt) ;;
          try_catch
            (pm2Command
               (js "delete " ++ default (js "undefined") (svc_pm2Name service)) ;;
             ret tt)
            (fun _ => ret tt) ;;
          saveProjectConfig projectName
            (set_services projectConfig (delete serviceIndex services)) ;;
          logger_success
            (js "Service " ++ serviceName ++ js " supprimé du projet "
             ++ projectName)
      end
  end.

(** The assignments [updateService] makes to the service record. *)
Definition apply_updates (projectName : jsstring) (updates : ServiceUpdates)
    (now : isodate) (service : Service) : Service :=
  mkService
    (svc_name service)
    (match up_directory updates with
     | Some (c :: d) => servicePath projectName (c :: d)
     | _ => svc_directory service
     end)
    (match up_setupCommands updates with
     | Some l => Some l
     | None => svc_setupCommands service
     end)
    (match up_command updates with
     | Some (c :: d) => c :: d
     | _ => svc_command service
     end)
    (match up_description updates with
     | Some d => d
     | None => svc_description service
     end)
    (svc_pm2Name service)
    (svc_createdAt service)
    (Some now).

Definition updateService (projectName serviceName : jsstring)
    (updates : ServiceUpdates) : M Service :=
  projectConfig <- loadProjectConfig projectName ;;
  services <- services_of projectConfig ;;
  match findIndex (has_name serviceName) services with
  | None =>
      throw (js "Le service " ++ serviceName
             ++ js " n'existe pas dans ce projet")
  | Some serviceIndex =>
      match services !! serviceIndex with
      | None => throw (js "Cannot read properties of undefined")
      | Some service =>
          now <- Date_toISOString ;;
          let service := apply_updates projectName updates now service in
          saveProjectConfig projectName
            (set_services projectConfig (<[serviceIndex := service]> services)) ;;
          logger_success (js "Service " ++ serviceName ++ js " mis à jour") ;;
          ret service
      end
  end.

Definition runSetupCommands (service : Service) : M unit :=
  let setupCommands := or_list (svc_setupCommands service) [] in
  match setupCommands with
  | [] => ret tt
  | _ :: _ =>
      logger_info
        (js "Exécution des commandes de setup pour " ++ svc_name service
         ++ js "...") ;;
      for_of setupCommands
        (fun cmd =>
           logger_info (js "  → " ++ cmd) ;;
           try_catch
             (execCommand cmd (Some (svc_directory service)) ;;
              logger_success (js "  ✓ " ++ cmd))
             (fun message =>
                throw (js "Erreur lors de l'exécution de " ++ [34] ++ cmd
                       ++ [34] ++ js ": " ++ message)))
  end.

(** The arguments of the supervisor's fresh start. *)
Definition pm2_start_args (service : Service) (pm2Name : jsstring)
    : jsstring :=
  js "start " ++ [34] ++ svc_command service ++ [34]
  ++ js " --name " ++ [34] ++ pm2Name ++ [34]
  ++ js " --cwd " ++ [34] ++ svc_directory service ++ [34].

Definition startService (projectName serviceName : jsstring) (runSetup : bool)
    : M unit :=
  found <- getService projectName serviceName ;;
  match found with
  | None => throw (js "Le service " ++ serviceName ++ js " n'existe pas")
  | Some service =>
      present <- existsSync (svc_directory service) ;;
      if negb present then
        throw (js "Le dossier du service n'existe pas: "
               ++ svc_directory service)
      else
        (if runSetup then runSetupCommands service else ret tt) ;;
        logger_info (js "Démarrage du service " ++ serviceName ++ js "...") ;;
        let pm2Name := pm2Name_of projectName serviceName service in
        try_catch
          (status <- getPm2ProcessStatus pm2Name ;;
           match status with
           | Some _ => pm2Command (js "restart " ++ pm2Name)
           | None => pm2Command (pm2_start_args service pm2Name)
           end ;;
           pm2Command (js "save") ;;
           logger_success
             (js "Service " ++ serviceName ++ js " démarré (" ++ pm2Name
              ++ js ")"))
          (fun message => throw (js "Erreur lors du démarrage: " ++ message))
  end.

Definition startAllServices (projectName : jsstring) (runSetup : bool)
    : M unit :=
  services <- listServices projectName ;;
  match services with
  | [] => throw (js "Aucun service configuré pour ce projet")
  | _ :: _ =>
      logger_info
        (js "Démarrage de tous les services de " ++ projectName ++ js "...") ;;
      for_of services
        (fun service =>
           try_catch
             (startService projectName (svc_name service) runSetup)
             (fun message =>
                logger_error
                  (js "Erreur pour " ++ svc_name service ++ js ": " ++ message))) ;;
      logger_success (js "Tous les services ont été traités")
  end.

Definition stopAllServices (projectName : jsstring) : M unit :=
  services <- listServices projectName ;;
  match services with
  | [] => ret tt
  | _ :: _ =>
      logger_info
        (js "Arrêt de tous les services de " ++ projectName ++ js "...") ;;
      for_of services
        (fun service =>
           try_catch
             (stopService projectName (svc_name service))
             (fun message =>
                logger_error
                  (js "Erreur pour " ++ svc_name service ++ js ": " ++ message))) ;;
      logger_success (js "Tous les services ont été arrêtés")
  end.


(** ** The other probes of [shell.js] *)

Definition commandExists (command : jsstring) : M bool :=
  try_catch
    (execSyncSafe (js "which " ++ command) ;; ret true)
    (fun _ => ret false).

(** [uid === '0'], on the text the command printed. *)
Definition isRoot : M bool :=
  try_catch
    (uid <- execSyncSafe (js "id -u") ;;
     ret (bool_decide (utf8 uid = js "0")))
    (fun _ => ret false).

(** [lines = 50] when the argument is left out. The number of lines is a
    natural number; JavaScript prints it in decimal as long as it is
    below 10^21. *)
Definition getPm2Logs (processName : jsstring) (lines : option N)
    : M content :=
  let lines := default 50 lines in
  try_catch
    (execCommand
       (js "pm2 logs " ++ processName ++ js " --nostream --lines "
        ++ JS.decimal lines) None)
    (fun message =>
       throw (js "Impossible de récupérer les logs: " ++ message)).

(** ** The rest of [sftp.js] *)

Definition changeSftpPassword (projectName newPassword : jsstring) : M unit :=
  let username := SFTP_USER_PREFIX ++ projectName in
  present <- userExists username ;;
  if negb present then
    throw (js "L'utilisateur " ++ username ++ js " n'existe pas")
  else
    execCommand
      (js "echo " ++ [34] ++ username ++ js ":" ++ newPassword ++ [34]
       ++ js " | chpasswd") None ;;
    logger_success (js "Mot de passe de " ++ username ++ js " modifié").

(** The object [getSftpUserInfo] returns. *)
Record SftpUserInfo := mkSftpUserInfo {
  info_username : jsstring;
  info_exists : bool;
  info_info : content
}.

Definition getSftpUserInfo (projectName : jsstring)
    : M (option SftpUserInfo) :=
  let username := SFTP_USER_PREFIX ++ projectName in
  present <- userExists username ;;
  if negb present then ret None
  else
    try_catch
      (userInfo <- execSyncSafe (js "id " ++ username) ;;
       ret (Some (mkSftpUserInfo username true userInfo)))
      (fun _ => ret None).

(** ** The rest of [projects.js] *)

Definition renameProject (oldName newName : jsstring) : M unit :=
  throw (js "Le renommage de projet n'est pas encore supporté. Veuillez supprimer et recréer le projet.").

(** ** The rest of [services.js] *)

Definition restartService (projectName serviceName : jsstring) : M unit :=
  found <- getService projectName serviceName ;;
  match found with
  | None => throw (js "Le service " ++ serviceName ++ js " n'existe pas")
  | Some service =>
      let pm2Name := pm2Name_of projectName serviceName service in
      logger_info (js "Redémarrage du service " ++ serviceName ++ js "...") ;;
      try_catch
        (pm2Command (js "restart " ++ pm2Name) ;;
         pm2Command (js "save") ;;
         logger_success (js "Service " ++ serviceName ++ js " redémarré"))
        (fun message => throw (js "Erreur lors du redémarrage: " ++ message))
  end.

Definition getServiceLogs (projectName serviceName : jsstring)
    (lines : option N) : M content :=
  let lines := default 50 lines in
  found <- getService projectName serviceName ;;
  match found with
  | None => throw (js "Le service " ++ serviceName ++ js " n'existe pas")
  | Some service =>
      let pm2Name := pm2Name_of projectName serviceName service in
      try_catch
        (getPm2Logs pm2Name (Some lines))
        (fun message =>
           throw (js "Erreur lors de la récupération des logs: " ++ message))
  end.

(** ** Notions used in the statements *)

(** The configuration a project is given when it has no readable
    document. *)
Definition defaultConfig (projectName : jsstring) (now : isodate)
    : ProjectConfig :=
  mkProjectConfig (Some projectName) None None (Some []) (Some now) None.

(** The services a project declares: those of its document, none when it
    has no readable document. *)
Definition declared (w : World) (projectName : jsstring) : list Service :=
  match Fs.read (fs w) (Path.resolve (configPath projectName)) with
  | inr (Json (DConfig c)) => or_list (cfg_services c) []
  | _ => []
  end.

(** The position of the first occurrence of [m] in [s], if there is one. *)
Fixpoint first_occurrence (m s : jsstring) : option nat :=
  if JS.prefixb m s then Some O
  else match s with
       | [] => None
       | _ :: s' => option_map S (first_occurrence m s')
       end.

(** The content of the file at a location, if there is a file there. *)
Definition file_at (n : node) (p : list jsstring) : option content :=
  match Fs.lookup_path n p with
  | Some (File c) => Some c
  | _ => None
  end.

(** A computation that leaves the file system as it found it. *)
Definition keeps_fs {A} (m : M A) : Prop :=
  forall w, fs (snd (m w)) = fs w.

(** A computation that leaves every file as it was. *)
Definition keeps_files {A} (m : M A) : Prop :=
  forall w q, file_at (fs (snd (m w))) q = file_at (fs w) q.

(** A computation that leaves every file but the one at [target] as it
    was. *)
Definition writes_only (target : list jsstring) {A} (m : M A) : Prop :=
  forall w q, q <> target -> file_at (fs (snd (m w))) q = file_at (fs w) q.

(** A computation that changes no file when it raises. *)
Definition atomic {A} (m : M A) : Prop :=
  forall w e w', m w = (Throw e, w') ->
    forall q, file_at (fs w') q = file_at (fs w) q.

(** A computation that never raises. *)
Definition total {A} (m : M A) : Prop :=
  forall w, exists a w', m w = (Ok a, w').

(** The command line that stops a supervised process. *)
Definition stop_command (pm2Name : jsstring) : jsstring :=
  js "pm2 " ++ js "stop " ++ pm2Name.

Definition is_stop_command (command : jsstring) : bool :=
  JS.startsWith command (js "pm2 stop ").


(** The world in which [execCommand] hands [command] to the operating
    system when called in [w]. *)
Definition issuing (w : World) (command : jsstring) : World :=
  mkWorld (fs w)
          (trace w ++ [Log Debug (js "Executing async: " ++ command)])
          (ticks w).

(** [command], issued by [execCommand] called in [w], exits normally. *)
Definition exits_normally (w : World) (command : jsstring) : bool :=
  match os (issuing w command) command None with
  | Exit0 _ => true
  | Failed _ => false
  end.

(** [command] exits normally whenever it is issued. *)
Definition always_succeeds (command : jsstring) : Prop :=
  forall w, exists out, os w command None = Exit0 out.

(** [command] fails whenever it is issued. *)
Definition always_fails (command : jsstring) : Prop :=
  forall w, exists message, os w command None = Failed message.

(** The registry without the project [projectName]. *)
Definition without (projectName : jsstring) (projects : list Project)
    : list Project :=
  List.filter (fun p => negb (bool_decide (prj_name p = projectName))) projects.

(** A path segment that normalisation keeps as it is. *)
Definition plain_segment (s : jsstring) : Prop :=
  s <> [] /\ s <> Path.dot /\ s <> Path.dotdot /\ Path.slash ∉ s.

(** A boolean test of [plain_segment], for the segments that are literals. *)
Definition plain_segmentb (s : jsstring) : bool :=
  negb (Path.is_nil s) && negb (Path.eqb s Path.dot)
  && negb (Path.eqb s Path.dotdot)
  && forallb (fun c => negb (c =? Path.slash)) s.

(** The derived supervisor name of a service of [projectName]. *)
Definition named_after (projectName : jsstring) (s : Service) : Prop :=
  svc_pm2Name s = Some (projectName ++ js "-" ++ svc_name s).

(** What identifies a service to the registry and to the supervisor. *)
Definition identity (s : Service) : jsstring * option jsstring :=
  (svc_name s, svc_pm2Name s).

(** The registry operations on services. *)
Inductive operation :=
| AddService (projectName : jsstring) (serviceConfig : ServiceConfig)
| UpdateService (projectName serviceName : jsstring) (updates : ServiceUpdates)
| RemoveService (projectName serviceName : jsstring).

Definition operation_project (op : operation) : jsstring :=
  match op with
  | AddService p _ => p
  | UpdateService p _ _ => p
  | RemoveService p _ => p
  end.

(** The world an operation leaves, whether it returns or raises. *)
Definition perform (op : operation) (w : World) : World :=
  match op with
  | AddService p c => snd (addService p c w)
  | UpdateService p n u => snd (updateService p n u w)
  | RemoveService p n => snd (removeService p n w)
  end.

Definition perform_all (ops : list operation) (w : World) : World :=
  fold_left (fun w op => perform op w) ops w.

(** Every declared service of a validly named project carries the name
    derived from the project and the service, and service names are
    unique within the project. *)
Definition pm2_invariant (w : World) : Prop :=
  forall p, valid_name p = true ->
    Forall (named_after p) (declared w p)
    /\ NoDup (List.map svc_name (declared w p)).

(** ** Notions for the behaviour towards the system *)

(** The world in which [execSyncSafe] hands [command] to the operating
    system when called in [w]. *)
Definition issuing_sync (w : World) (command : jsstring) : World :=
  mkWorld (fs w)
          (trace w ++ [Log Debug (js "Executing: " ++ command)])
          (ticks w).

(** [command], issued by [execSyncSafe] called in [w], exits normally. *)
Definition exits_normally_sync (w : World) (command : jsstring) : bool :=
  match os (issuing_sync w command) command None with
  | Exit0 _ => true
  | Failed _ => false
  end.

(** Between [w] and [w'] the file system was left alone and the effects
    on the system were those of [es], in order. *)
Definition ran (w w' : World) (es : list event) : Prop :=
  fs w' = fs w
  /\ exists evs, trace w' = trace w ++ evs /\ effects evs = es.

(** A command line run without a working directory. *)
Definition shell (command : jsstring) : event := Exec command None.

(** Between [w] and [w'] the run acted on the system by [es], in order: the
    commands it issued and the changes it made to its own files. *)
Definition acted (w w' : World) (es : list event) : Prop :=
  exists evs, trace w' = trace w ++ evs /\ effects evs = es.

(** The message of a command that failed. *)
Definition failure (o : outcome) : option jsstring :=
  match o with
  | Exit0 _ => None
  | Failed message => Some message
  end.

(** The commands among the events [evs] of a run from [w], each with the
    answer of the operating system in the world in which it was issued:
    that of [w] with the events so far ([seen], then those of [evs] before
    the command). [None] is a normal exit. *)
Fixpoint answers_from (w : World) (seen evs : list event)
    : list (event * option jsstring) :=
  match evs with
  | [] => []
  | e :: r =>
      match e with
      | Exec command cwd =>
          [(e, failure (os (mkWorld (fs w) (trace w ++ seen) (ticks w))
                           command cwd))]
      | _ => []
      end
      ++ answers_from w (seen ++ [e]) r
  end.

Definition answers (w : World) (evs : list event)
    : list (event * option jsstring) :=
  answers_from w [] evs.

(** Between [w] and [w'] the run acted on the system by the commands of
    [log] and nothing else, in that order, and the operating system
    answered each as [log] tells. *)
Definition issued (w w' : World) (log : list (event * option jsstring))
    : Prop :=
  exists evs,
    trace w' = trace w ++ evs
    /\ effects evs = List.map fst log
    /\ answers w evs = log.

(** The same, for a run that kept its files and did not read the clock. *)
Definition went (w w' : World) (log : list (event * option jsstring))
    : Prop :=
  fs w' = fs w /\ ticks w' = ticks w /\ issued w w' log.

(** Steps that all exited normally. *)
Definition passed (es : list event) : list (event * option jsstring) :=
  List.map (fun e => (e, None)) es.

(** [log] is what going through the steps [es] up to the first failure
    leaves, for the result [r]: all of them passed when [r] is a value;
    when [r] is an error, the last step issued failed with that error. *)
Definition stopped_at_failure {A} (r : result A) (es : list event)
    (log : list (event * option jsstring)) : Prop :=
  match r with
  | Ok _ => log = passed es
  | Throw e =>
      exists done s rest,
        es = done ++ s :: rest /\ log = passed done ++ [(s, Some e)]
  end.

(** Run in [w], [m] goes through the steps [es] and stops at the first that
    fails, raising its error. *)
Definition until_failure {A} (m : M A) (w : World) (es : list event)
    : Prop :=
  exists log,
    went w (snd (m w)) log /\ stopped_at_failure (fst (m w)) es log.

(** The six commands that set up the account of a project. *)
Definition createSftpUser_commands (projectName password : jsstring)
    : list event :=
  let username := SFTP_USER_PREFIX ++ projectName in
  let projectPath := Path.join [BASE_PATH; projectName] in
  let sitesPath := Path.join [projectPath; js "sites"] in
  [shell (js "useradd -g " ++ SFTP_GROUP ++ js " -d " ++ projectPath
          ++ js " -s /usr/sbin/nologin " ++ username);
   shell (js "echo " ++ [34] ++ username ++ js ":" ++ password ++ [34]
          ++ js " | chpasswd");
   shell (js "chown root:root " ++ projectPath);
   shell (js "chmod 755 " ++ projectPath);
   shell (js "chown " ++ username ++ js ":" ++ SFTP_GROUP ++ js " "
          ++ sitesPath);
   shell (js "chmod 755 " ++ sitesPath)].

(** The first block of [deleteProject]: the supervisor's processes of the
    project's services are deleted; a failure is ignored, or logged. *)
Definition deleteProject_processes (projectName : jsstring) : M unit :=
  try_catch
    (projectConfig <- loadProjectConfig projectName ;;
     for_of (or_list (cfg_services projectConfig) [])
       (fun service =>
          let processName := projectName ++ js "-" ++ svc_name service in
          try_catch
            (pm2Command (js "delete " ++ processName) ;; ret tt)
            (fun _ => ret tt)))
    (fun message =>
       logger_warn (js "Erreur lors de l'arrêt des services: " ++ message)).

(** Run in [w], [m] carries out the steps of [es] in order and stops at
    the first that fails: it returns only once all were carried out. *)
Definition stops_at_failure {A} (m : M A) (w : World) (es : list event)
    : Prop :=
  exists pre,
    pre `prefix_of` es
    /\ ran w (snd (m w)) pre
    /\ (forall a, fst (m w) = Ok a -> pre = es).

Definition fail_fast {A} (m : M A) (es : list event) : Prop :=
  forall w, stops_at_failure m w es.

(** The commands that create the account of a project, in order; the
    group is created on the way when it is missing. *)
Definition createSftpUser_steps (projectName password : jsstring)
    (withGroup : bool) : list event :=
  let username := SFTP_USER_PREFIX ++ projectName in
  let projectPath := Path.join [BASE_PATH; projectName] in
  let sitesPath := Path.join [projectPath; js "sites"] in
  [shell (js "id " ++ username); shell (js "getent group " ++ SFTP_GROUP)]
  ++ (if withGroup then [shell (js "groupadd " ++ SFTP_GROUP)] else [])
  ++ [shell (js "useradd -g " ++ SFTP_GROUP ++ js " -d " ++ projectPath
             ++ js " -s /usr/sbin/nologin " ++ username);
      shell (js "echo " ++ [34] ++ username ++ js ":" ++ password ++ [34]
             ++ js " | chpasswd");
      shell (js "chown root:root " ++ projectPath);
      shell (js "chmod 755 " ++ projectPath);
      shell (js "chown " ++ username ++ js ":" ++ SFTP_GROUP ++ js " "
             ++ sitesPath);
      shell (js "chmod 755 " ++ sitesPath)].

(** Whatever exists in the file system before [m] exists after it. *)
Definition keeps_entries {A} (m : M A) : Prop :=
  forall w q,
    is_Some (Fs.lookup_path (fs w) q) ->
    is_Some (Fs.lookup_path (fs (snd (m w))) q).

(** A computation that changes no file outside the locations of [area]. *)
Definition writes_within (area : list jsstring -> Prop) {A} (m : M A)
    : Prop :=
  forall w q, ~ area q -> file_at (fs (snd (m w))) q = file_at (fs w) q.

(** The locations of the daemon's configuration and of its backups. *)
Definition ssh_area (q : list jsstring) : Prop :=
  exists s, q = [js "etc"; js "ssh"; s].

(** The location of the registry file. *)
Definition registry_area (q : list jsstring) : Prop :=
  q = Path.resolve PROJECTS_CONFIG_FILE.

(** The locations below the directory of the project [projectName]. *)
Definition project_area (projectName : jsstring) (q : list jsstring) : Prop :=
  exists r, q = [js "var"; js "www"; projectName] ++ r.

(** * Properties *)

(** ** Occurrences of a marker in a text *)

Lemma prefixb_app_sep (c : N) (m a b : jsstring) :
  c ∉ m -> JS.prefixb m (a ++ c :: b) = JS.prefixb m a.
Proof.
  revert a. induction m as [|y m IH]; intros a Hc; [reflexivity|].
  apply not_elem_of_cons in Hc as [Hyc Hm].
  destruct a as [|x a]; simpl.
  - destruct (N.eqb_spec y c); [congruence | reflexivity].
  - rewrite IH by assumption. reflexivity.
Qed.

(** No occurrence of [m] straddles a code unit that [m] does not contain. *)
Lemma occurrences_app_sep (c : N) (m a b : jsstring) :
  m <> [] -> c ∉ m ->
  JS.occurrences m (a ++ c :: b)
  = (JS.occurrences m a + JS.occurrences m b)%nat.
Proof.
  intros Hm Hc. induction a as [|x a IH].
  - change ([] ++ c :: b) with (([] : jsstring) ++ c :: b).
    simpl JS.occurrences at 1.
    change (c :: b) with ([] ++ c :: b) at 1.
    rewrite prefixb_app_sep by assumption.
    destruct m; [congruence | simpl; reflexivity].
  - change ((x :: a) ++ c :: b) with (x :: (a ++ c :: b)).
    cbn [JS.occurrences].
    change (x :: a ++ c :: b) with ((x :: a) ++ c :: b).
    rewrite prefixb_app_sep by assumption.
    rewrite IH. lia.
Qed.

Lemma trimEnd_split (s : jsstring) :
  exists w, s = JS.trimEnd s ++ w /\ Forall (fun c => JS.is_space c = true) w.
Proof.
  induction s as [|c s (w & Hs & Hw)].
  - exists []. split; [reflexivity | constructor].
  - simpl. destruct (JS.trimEnd s) as [|t ts] eqn:Ht.
    + destruct (JS.is_space c) eqn:Hc.
      * exists (c :: s). split; [reflexivity|].
        constructor; [assumption|]. simpl in Hs. rewrite Hs. assumption.
      * exists w. simpl in *. split; [congruence | assumption].
    + exists w. split; [|assumption]. simpl. f_equal. exact Hs.
Qed.

Lemma prefixb_app_spaces (m a w : jsstring) :
  JS.ends_solid m = true ->
  Forall (fun c => JS.is_space c = true) w ->
  JS.prefixb m (a ++ w) = JS.prefixb m a.
Proof.
  revert a w. induction m as [|y m IH]; intros a w Hm Hw; [discriminate|].
  destruct a as [|x a].
  - simpl. destruct Hw as [|z w Hz Hw]; [reflexivity|].
    destruct m as [|y' m].
    + simpl in Hm. destruct (N.eqb_spec y z); [|reflexivity].
      subst. rewrite Hz in Hm. discriminate.
    + pose proof (IH [] w Hm Hw) as E.
      change ([] ++ w) with w in E.
      change (JS.prefixb (y :: y' :: m) (z :: w))
        with ((y =? z) && JS.prefixb (y' :: m) w).
      rewrite E. apply andb_false_r.
  - simpl. destruct m as [|y' m]; [reflexivity|].
    rewrite (IH a w Hm Hw). reflexivity.
Qed.

Lemma occurrences_app_spaces (m a w : jsstring) :
  JS.ends_solid m = true ->
  Forall (fun c => JS.is_space c = true) w ->
  JS.occurrences m (a ++ w) = JS.occurrences m a.
Proof.
  intros Hm Hw. induction a as [|x a IH].
  - simpl. induction Hw as [|z w Hz Hw IHw].
    + reflexivity.
    + cbn [JS.occurrences].
      assert (Forall (fun c => JS.is_space c = true) (z :: w)) as Hzw
        by (constructor; assumption).
      pose proof (prefixb_app_spaces m [] (z :: w) Hm Hzw) as E.
      simpl app in E. rewrite E.
      pose proof (prefixb_app_spaces m [] w Hm Hw) as E'.
      simpl app in E'.
      assert (JS.occurrences m w = 0%nat) as ->.
      { rewrite IHw. simpl. destruct m; [discriminate | reflexivity]. }
      destruct m; [discriminate | reflexivity].
  - change ((x :: a) ++ w) with (x :: (a ++ w)).
    cbn [JS.occurrences].
    change (x :: a ++ w) with ((x :: a) ++ w).
    rewrite prefixb_app_spaces by assumption.
    rewrite IH. reflexivity.
Qed.

(** Trimming does not change the occurrences of a marker that ends in a
    character other than white space. *)
Lemma occurrences_trimEnd (m s : jsstring) :
  JS.ends_solid m = true ->
  JS.occurrences m (JS.trimEnd s) = JS.occurrences m s.
Proof.
  intros Hm. destruct (trimEnd_split s) as (w & Hs & Hw).
  rewrite Hs at 2. symmetry. apply occurrences_app_spaces; assumption.
Qed.

(** ** Runs of a computation *)

Lemma bind_Ok {A B} (m : M A) (k : A -> M B) w b w' :
  bind m k w = (Ok b, w') ->
  exists a w1, m w = (Ok a, w1) /\ k a w1 = (Ok b, w').
Proof.
  unfold bind. destruct (m w) as [[a|e] w1]; intros H; [eauto | discriminate].
Qed.

Lemma bind_run {A B} (m : M A) (k : A -> M B) w a w1 :
  m w = (Ok a, w1) -> bind m k w = k a w1.
Proof. unfold bind. intros ->. reflexivity. Qed.

Lemma bind_throw {A B} (m : M A) (k : A -> M B) w e w1 :
  m w = (Throw e, w1) -> bind m k w = (Throw e, w1).
Proof. unfold bind. intros ->. reflexivity. Qed.

Lemma try_catch_run {A} (m : M A) (h : jsstring -> M A) w a w1 :
  m w = (Ok a, w1) -> try_catch m h w = (Ok a, w1).
Proof. unfold try_catch. intros ->. reflexivity. Qed.

Lemma try_catch_throw {A} (m : M A) (h : jsstring -> M A) w e w1 :
  m w = (Throw e, w1) -> try_catch m h w = h e w1.
Proof. unfold try_catch. intros ->. reflexivity. Qed.

Create HintDb keeps.

Lemma keeps_fs_ret {A} (a : A) : keeps_fs (ret a).
Proof. intros w. reflexivity. Qed.

Lemma keeps_fs_throw {A} e : keeps_fs (@throw A e).
Proof. intros w. reflexivity. Qed.

Lemma keeps_fs_emit e : keeps_fs (emit e).
Proof. intros w. reflexivity. Qed.

Lemma keeps_fs_bind {A B} (m : M A) (k : A -> M B) :
  keeps_fs m -> (forall a, keeps_fs (k a)) -> keeps_fs (bind m k).
Proof.
  intros Hm Hk w. unfold bind. specialize (Hm w).
  destruct (m w) as [[a|e] w1]; simpl in *; [|assumption].
  rewrite Hk. assumption.
Qed.

Lemma keeps_fs_try_catch {A} (m : M A) (h : jsstring -> M A) :
  keeps_fs m -> (forall e, keeps_fs (h e)) -> keeps_fs (try_catch m h).
Proof.
  intros Hm Hh w. unfold try_catch. specialize (Hm w).
  destruct (m w) as [[a|e] w1]; simpl in *; [assumption|].
  rewrite Hh. assumption.
Qed.

Lemma keeps_fs_for_of {A} (xs : list A) (body : A -> M unit) :
  (forall x, keeps_fs (body x)) -> keeps_fs (for_of xs body).
Proof.
  intros Hb. induction xs as [|x xs IH]; simpl.
  - apply keeps_fs_ret.
  - apply keeps_fs_bind; [apply Hb | intros _; exact IH].
Qed.

Lemma keeps_fs_if {A} (b : bool) (m1 m2 : M A) :
  keeps_fs m1 -> keeps_fs m2 -> keeps_fs (if b then m1 else m2).
Proof. destruct b; trivial. Qed.

Lemma keeps_fs_existsSync p : keeps_fs (existsSync p).
Proof. intros w. reflexivity. Qed.

Lemma keeps_fs_readFileSync p : keeps_fs (readFileSync p).
Proof. intros w. unfold readFileSync. destruct (Fs.read _ _); reflexivity. Qed.

Lemma keeps_fs_Date_now : keeps_fs Date_now.
Proof. intros w. reflexivity. Qed.

Lemma keeps_fs_JSON_parse c : keeps_fs (JSON_parse c).
Proof. intros w. destruct c; reflexivity. Qed.

Lemma keeps_fs_child_process_exec command cwd :
  keeps_fs (child_process_exec command cwd).
Proof.
  intros w. unfold child_process_exec. destruct (os w command cwd); reflexivity.
Qed.

#[local] Hint Resolve keeps_fs_ret keeps_fs_throw keeps_fs_emit
  keeps_fs_existsSync keeps_fs_readFileSync keeps_fs_Date_now
  keeps_fs_JSON_parse keeps_fs_child_process_exec : keeps.

Ltac keeps_fs_tac :=
  repeat first
    [ progress intros
    | apply keeps_fs_bind
    | apply keeps_fs_try_catch
    | apply keeps_fs_for_of
    | apply keeps_fs_if
    | solve [eauto with keeps]
    | match goal with
      | |- keeps_fs (match ?x with _ => _ end) => destruct x
      end ].

Lemma keeps_fs_logger_info m : keeps_fs (logger_info m).
Proof. apply keeps_fs_emit. Qed.
Lemma keeps_fs_logger_success m : keeps_fs (logger_success m).
Proof. apply keeps_fs_emit. Qed.
Lemma keeps_fs_logger_error m : keeps_fs (logger_error m).
Proof. apply keeps_fs_emit. Qed.
Lemma keeps_fs_logger_warn m : keeps_fs (logger_warn m).
Proof. apply keeps_fs_emit. Qed.
Lemma keeps_fs_logger_debug m : keeps_fs (logger_debug m).
Proof. apply keeps_fs_emit. Qed.

#[local] Hint Resolve keeps_fs_logger_info keeps_fs_logger_success
  keeps_fs_logger_error keeps_fs_logger_warn keeps_fs_logger_debug : keeps.

Lemma keeps_fs_execSyncSafe command : keeps_fs (execSyncSafe command).
Proof. unfold execSyncSafe. keeps_fs_tac. Qed.

Lemma keeps_fs_execCommand command cwd : keeps_fs (execCommand command cwd).
Proof. unfold execCommand. keeps_fs_tac. Qed.

#[local] Hint Resolve keeps_fs_execSyncSafe keeps_fs_execCommand : keeps.

Lemma keeps_fs_userExists u : keeps_fs (userExists u).
Proof. unfold userExists. keeps_fs_tac. Qed.

Lemma keeps_fs_groupExists g : keeps_fs (groupExists g).
Proof. unfold groupExists. keeps_fs_tac. Qed.

Lemma keeps_fs_restartSSH : keeps_fs restartSSH.
Proof. unfold restartSSH. keeps_fs_tac. Qed.

Lemma keeps_fs_testSSHConfig : keeps_fs testSSHConfig.
Proof. unfold testSSHConfig. keeps_fs_tac. Qed.

Lemma keeps_fs_pm2Command args : keeps_fs (pm2Command args).
Proof. unfold pm2Command. keeps_fs_tac. Qed.

#[local] Hint Resolve keeps_fs_userExists keeps_fs_groupExists
  keeps_fs_restartSSH keeps_fs_testSSHConfig keeps_fs_pm2Command : keeps.

Lemma keeps_fs_getPm2ProcessStatus n : keeps_fs (getPm2ProcessStatus n).
Proof. unfold getPm2ProcessStatus. keeps_fs_tac. Qed.

Lemma keeps_fs_deleteSftpUser p : keeps_fs (deleteSftpUser p).
Proof. unfold deleteSftpUser. keeps_fs_tac. Qed.

#[local] Hint Resolve keeps_fs_getPm2ProcessStatus keeps_fs_deleteSftpUser
  : keeps.

(** ** The file-system tree *)

Lemma read_write (n n' : node) (p : list jsstring) (c : content) :
  Fs.write n p c = inr n' -> Fs.read n' p = inr c.
Proof.
  revert n n'. induction p as [|s p IH]; intros n n' H; [discriminate|].
  simpl in H. destruct n as [c0|es]; [discriminate|].
  destruct p as [|s' p].
  - destruct (es !! s) as [[c1|es1]|] eqn:E; try discriminate;
      injection H as <-; unfold Fs.read; simpl;
      rewrite lookup_insert_eq; reflexivity.
  - destruct (es !! s) as [child|] eqn:E; [|discriminate].
    destruct (Fs.write child (s' :: p) c) as [e|child'] eqn:W; [discriminate|].
    injection H as <-. specialize (IH _ _ W).
    unfold Fs.read in *. cbn [Fs.lookup_path].
    rewrite lookup_insert_eq. exact IH.
Qed.

Lemma lookup_path_app (n : node) (p q : list jsstring) :
  Fs.lookup_path n (p ++ q)
  = match Fs.lookup_path n p with
    | Some n' => Fs.lookup_path n' q
    | None => None
    end.
Proof.
  revert n. induction p as [|s p IH]; intros n; [reflexivity|].
  simpl. destruct n as [c|es]; [reflexivity|].
  destruct (es !! s); [apply IH | reflexivity].
Qed.

(** A file lies in a directory. *)
Lemma read_parent (n : node) (p : list jsstring) (s : jsstring) (c : content) :
  Fs.read n (p ++ [s]) = inr c -> exists es, Fs.lookup_path n p = Some (Dir es).
Proof.
  unfold Fs.read. rewrite lookup_path_app.
  destruct (Fs.lookup_path n p) as [[c0|es]|]; simpl; try discriminate.
  eauto.
Qed.

(** Creating a directory creates no entry below it. *)
Lemma mkdir_p_keeps_absent n p n' x :
  Fs.lookup_path n (p ++ [x]) = None ->
  Fs.mkdir_p n p = inr n' ->
  Fs.lookup_path n' (p ++ [x]) = None.
Proof.
  revert n n'. induction p as [|s p IH]; intros n n' Habs Mk.
  - simpl in Mk. destruct n; [discriminate|]. injection Mk as <-. exact Habs.
  - simpl in Mk. destruct n as [c|es]; [discriminate|].
    destruct (Fs.mkdir_p (default (Dir ∅) (es !! s)) p) as [e|child'] eqn:Mk';
      [discriminate|].
    injection Mk as <-. cbn [app Fs.lookup_path]. rewrite lookup_insert_eq.
    apply (IH _ _) in Mk'; [exact Mk'|].
    cbn [app Fs.lookup_path] in Habs.
    destruct (es !! s) as [c|]; cbn [default]; [exact Habs|].
    destruct p; cbn [app Fs.lookup_path]; rewrite lookup_empty; reflexivity.
Qed.

(** ** The fenced block of the SSH daemon configuration *)

Lemma newline_not_in_marker : 10 ∉ SFTP_CONFIG_MARKER.
Proof.
  refine (bool_decide_unpack (10 ∉ SFTP_CONFIG_MARKER) _).
  vm_compute. exact I.
Qed.

Lemma newline_not_in_end_marker : 10 ∉ SFTP_CONFIG_END_MARKER.
Proof.
  refine (bool_decide_unpack (10 ∉ SFTP_CONFIG_END_MARKER) _).
  vm_compute. exact I.
Qed.

(** The generated block opens with a line break and holds each marker
    once. *)
Lemma generateSftpConfig_fence (p : Project) (ps : list Project) :
  exists body,
    generateSftpConfig (p :: ps) = 10 :: body
    /\ JS.occurrences SFTP_CONFIG_MARKER body = 1%nat
    /\ JS.occurrences SFTP_CONFIG_END_MARKER body = 1%nat.
Proof.
  eexists. split; [vm_compute; reflexivity|].
  split; vm_compute; reflexivity.
Qed.

Lemma regenerate_markers (old : jsstring) (projects : list Project) :
  JS.occurrences SFTP_CONFIG_MARKER (excise_fence old) = 0%nat ->
  JS.occurrences SFTP_CONFIG_END_MARKER (excise_fence old) = 0%nat ->
  let n := match projects with [] => 0%nat | _ :: _ => 1%nat end in
  JS.occurrences SFTP_CONFIG_MARKER (regenerate old projects) = n
  /\ JS.occurrences SFTP_CONFIG_END_MARKER (regenerate old projects) = n.
Proof.
  intros Hs He. unfold regenerate. destruct projects as [|p ps]; cbv zeta.
  - change (generateSftpConfig []) with ([] : jsstring).
    rewrite app_nil_r, !occurrences_trimEnd by reflexivity. auto.
  - destruct (generateSftpConfig_fence p ps) as (body & -> & Hb1 & Hb2).
    split.
    + rewrite (occurrences_app_sep 10 SFTP_CONFIG_MARKER _ body);
        [|discriminate | exact newline_not_in_marker].
      rewrite (occurrences_trimEnd SFTP_CONFIG_MARKER) by reflexivity.
      rewrite Hs, Hb1. reflexivity.
    + rewrite (occurrences_app_sep 10 SFTP_CONFIG_END_MARKER _ body);
        [|discriminate | exact newline_not_in_end_marker].
      rewrite (occurrences_trimEnd SFTP_CONFIG_END_MARKER) by reflexivity.
      rewrite He, Hb2. reflexivity.
Qed.

Lemma readSSHConfig_Ok w s w' :
  readSSHConfig w = (Ok s, w') ->
  w' = w /\ exists c, Fs.read (fs w) (Path.resolve SSH_CONFIG_PATH) = inr c
                      /\ s = utf8 c.
Proof.
  unfold readSSHConfig, try_catch, bind, readFileSync, ret, throw.
  destruct (Fs.read _ _) as [e|c]; intros H; [discriminate|].
  injection H as <- <-. eauto.
Qed.

Lemma writeSSHConfig_Ok text w w' :
  writeSSHConfig text w = (Ok tt, w') ->
  Fs.read (fs w') (Path.resolve SSH_CONFIG_PATH) = inr (Text text).
Proof.
  unfold writeSSHConfig, try_catch, bind, Date_now, copyFileSync,
    logger_debug, emit, writeFileSync, throw.
  cbn [fs trace ticks].
  destruct (Fs.read _ _) as [e|c]; [discriminate|].
  destruct (Fs.write (fs w) _ c) as [e|n1]; [discriminate|].
  cbn [fs trace ticks].
  match goal with |- context [Fs.write n1 ?p (Text text)] =>
    destruct (Fs.write n1 p (Text text)) as [e|n2] eqn:W; [discriminate|]
  end.
  intros H. injection H as <-. cbn [fs]. eapply read_write, W.
Qed.

Lemma updateSSHConfig_Ok projects w w' :
  updateSSHConfig projects w = (Ok tt, w') ->
  exists c,
    Fs.read (fs w) (Path.resolve SSH_CONFIG_PATH) = inr c
    /\ Fs.read (fs w') (Path.resolve SSH_CONFIG_PATH)
       = inr (Text (regenerate (utf8 c) projects)).
Proof.
  unfold updateSSHConfig. intros H.
  apply bind_Ok in H as ([] & w1 & H1 & H).
  apply bind_Ok in H as (s & w2 & H2 & H).
  apply bind_Ok in H as ([] & w3 & H3 & H).
  apply bind_Ok in H as (valid & w4 & H4 & H).
  apply readSSHConfig_Ok in H2 as (-> & c & Hc & ->).
  apply writeSSHConfig_Ok in H3.
  injection H1 as <-. cbn [fs] in Hc.
  exists c. split; [exact Hc|].
  assert (fs w4 = fs w3) as E4.
  { pose proof (keeps_fs_testSSHConfig w3) as K. rewrite H4 in K. exact K. }
  destruct valid; [|discriminate]. cbn [negb] in H.
  assert (fs w' = fs w4) as E5.
  { assert (keeps_fs (restartSSH ;;
                      logger_success (js "Configuration SSH mise à jour"))) as K
      by keeps_fs_tac.
    specialize (K w4). rewrite H in K. exact K. }
  rewrite E5, E4. exact H3.
Qed.


(** ** The regeneration on a file without fence, and on its own output *)

Lemma occurrences_zero_prefixb m s :
  JS.occurrences m s = 0%nat -> JS.prefixb m s = false.
Proof.
  destruct s; cbn [JS.occurrences]; destruct (JS.prefixb m _);
    (discriminate || reflexivity).
Qed.

Lemma occurrences_zero_tail m x s :
  JS.occurrences m (x :: s) = 0%nat -> JS.occurrences m s = 0%nat.
Proof. cbn [JS.occurrences]. lia. Qed.

Lemma indexOf_from_absent m s i :
  JS.occurrences m s = 0%nat -> JS.indexOf_from m s i = (-1)%Z.
Proof.
  revert i. induction s as [|x s IH]; intros i H.
  - cbn [JS.indexOf_from]. rewrite (occurrences_zero_prefixb _ _ H). reflexivity.
  - cbn [JS.indexOf_from]. rewrite (occurrences_zero_prefixb _ _ H).
    apply IH. eapply occurrences_zero_tail, H.
Qed.

(** A text without start marker has no fence to excise. *)
Lemma excise_fence_clean old :
  JS.occurrences SFTP_CONFIG_MARKER old = 0%nat -> excise_fence old = old.
Proof.
  intros H. unfold excise_fence, JS.indexOf.
  rewrite (indexOf_from_absent _ _ _ H). reflexivity.
Qed.

(** From a configuration without any marker, a non-empty project list
    gives a file with each marker once. *)
Lemma regenerate_clean old p ps :
  JS.occurrences SFTP_CONFIG_MARKER old = 0%nat ->
  JS.occurrences SFTP_CONFIG_END_MARKER old = 0%nat ->
  JS.occurrences SFTP_CONFIG_MARKER (regenerate old (p :: ps)) = 1%nat
  /\ JS.occurrences SFTP_CONFIG_END_MARKER (regenerate old (p :: ps)) = 1%nat.
Proof.
  intros Hs He.
  apply (regenerate_markers old (p :: ps));
    rewrite (excise_fence_clean old Hs); assumption.
Qed.

Lemma indexOf_from_app_sep c m a b i :
  m <> [] -> c ∉ m -> JS.occurrences m a = 0%nat ->
  JS.indexOf_from m (a ++ c :: b) i
  = JS.indexOf_from m b (i + Z.of_nat (length a) + 1)%Z.
Proof.
  intros Hm Hc. revert i. induction a as [|x a IH]; intros i H.
  - cbn [app JS.indexOf_from length].
    change (c :: b) with ([] ++ c :: b) at 1.
    rewrite prefixb_app_sep by assumption.
    destruct m; [congruence|]. cbn [JS.prefixb]. f_equal. lia.
  - change ((x :: a) ++ c :: b) with (x :: (a ++ c :: b)).
    cbn [JS.indexOf_from].
    change (x :: a ++ c :: b) with ((x :: a) ++ c :: b).
    rewrite prefixb_app_sep by assumption.
    rewrite (occurrences_zero_prefixb _ _ H).
    rewrite IH by (eapply occurrences_zero_tail, H).
    f_equal. cbn [length]. lia.
Qed.

(** [indexOf] is the first occurrence, counted from the start. *)
Lemma indexOf_from_first m s i :
  JS.indexOf_from m s i
  = match first_occurrence m s with
    | Some k => (i + Z.of_nat k)%Z
    | None => (-1)%Z
    end.
Proof.
  revert i. induction s as [|x s IH]; intros i;
    cbn [JS.indexOf_from first_occurrence].
  - destruct (JS.prefixb m []); [f_equal; lia | reflexivity].
  - destruct (JS.prefixb m (x :: s)); [lia|].
    rewrite IH. destruct (first_occurrence m s); cbn [option_map]; lia.
Qed.

Lemma substring_take s j :
  (0 <= j <= Z.of_nat (length s))%Z ->
  JS.substring s 0 j = take (Z.to_nat j) s.
Proof.
  intros H. unfold JS.substring, JS.clamp. cbv zeta.
  match goal with |- take (Z.to_nat ?x) (drop (Z.to_nat ?y) s) = _ =>
    replace x with j by lia; replace y with 0%Z by lia
  end.
  reflexivity.
Qed.

Lemma substring_from_drop s a :
  (0 <= a <= Z.of_nat (length s))%Z ->
  JS.substring_from s a = drop (Z.to_nat a) s.
Proof.
  intros H. unfold JS.substring_from, JS.substring, JS.clamp. cbv zeta.
  match goal with |- take (Z.to_nat ?x) (drop (Z.to_nat ?y) s) = _ =>
    replace x with (Z.of_nat (length s) - a)%Z by lia;
    replace y with a by lia
  end.
  apply take_ge. rewrite length_drop. lia.
Qed.

Lemma trimEnd_spaces w :
  Forall (fun c => JS.is_space c = true) w -> JS.trimEnd w = [].
Proof.
  induction 1 as [|c w Hc _ IH]; [reflexivity|].
  cbn [JS.trimEnd]. rewrite IH, Hc. reflexivity.
Qed.

Lemma trimEnd_app_spaces a w :
  Forall (fun c => JS.is_space c = true) w ->
  JS.trimEnd (a ++ w) = JS.trimEnd a.
Proof.
  intros H. induction a as [|x a IH]; [apply trimEnd_spaces, H|].
  cbn [app JS.trimEnd]. rewrite IH. reflexivity.
Qed.

Lemma trimEnd_idempotent s : JS.trimEnd (JS.trimEnd s) = JS.trimEnd s.
Proof.
  destruct (trimEnd_split s) as (w & Hs & Hw).
  rewrite Hs at 2. rewrite trimEnd_app_spaces by assumption. reflexivity.
Qed.

(** The fence that [regenerate] appended is found again and excised whole:
    what is left is the text that was there before it, followed by two line
    breaks. *)
Lemma excise_fence_regenerated t p ps :
  JS.occurrences SFTP_CONFIG_MARKER t = 0%nat ->
  JS.occurrences SFTP_CONFIG_END_MARKER t = 0%nat ->
  excise_fence (t ++ generateSftpConfig (p :: ps)) = t ++ [10; 10].
Proof.
  intros Hs He.
  assert (exists body,
             generateSftpConfig (p :: ps) = 10 :: body
             /\ JS.prefixb SFTP_CONFIG_MARKER body = true
             /\ first_occurrence SFTP_CONFIG_END_MARKER body = Some 272%nat
             /\ length body = 321%nat
             /\ drop 320 body = [10]) as (body & -> & Hb & Hk & Hlen & Hdrop).
  { eexists. split; [vm_compute; reflexivity|].
    repeat split; vm_compute; reflexivity. }
  assert (length SFTP_CONFIG_END_MARKER = 48%nat) as Hend
    by (vm_compute; reflexivity).
  unfold excise_fence, JS.indexOf. rewrite Hend. clear Hend.
  rewrite (indexOf_from_app_sep 10 SFTP_CONFIG_MARKER t body 0);
    [|discriminate | exact newline_not_in_marker | exact Hs].
  rewrite (indexOf_from_app_sep 10 SFTP_CONFIG_END_MARKER t body 0);
    [|discriminate | exact newline_not_in_end_marker | exact He].
  rewrite (indexOf_from_first SFTP_CONFIG_MARKER body).
  assert (first_occurrence SFTP_CONFIG_MARKER body = Some O) as ->
    by (destruct body; cbn [first_occurrence]; rewrite Hb; reflexivity).
  rewrite (indexOf_from_first SFTP_CONFIG_END_MARKER body), Hk.
  assert (negb (0 + Z.of_nat (length t) + 1 + Z.of_nat 0 =? -1)%Z
          && negb (0 + Z.of_nat (length t) + 1 + Z.of_nat 272 =? -1)%Z = true)
    as ->.
  { apply andb_true_iff. split; apply negb_true_iff, Z.eqb_neq; lia. }
  rewrite substring_take
    by (rewrite length_app; cbn [length]; lia).
  rewrite substring_from_drop
    by (rewrite length_app; cbn [length]; rewrite Hlen; lia).
  replace (Z.to_nat (0 + Z.of_nat (length t) + 1 + Z.of_nat 0))
    with (length t + 1)%nat by lia.
  replace (Z.to_nat (0 + Z.of_nat (length t) + 1 + Z.of_nat 272 + Z.of_nat 48))
    with (length t + 321)%nat by lia.
  rewrite (take_app_add t (10 :: body) 1), (drop_app_add t (10 :: body) 321).
  change (take 1 (10 :: body)) with [10].
  change (drop 321 (10 :: body)) with (drop 320 body).
  rewrite Hdrop, <- app_assoc. reflexivity.
Qed.

(** Regenerating the file [updateSSHConfig] made from a configuration
    without markers gives that file again: the tool's own output keeps one
    fence however often it is regenerated. *)
Lemma regenerate_stable old p ps q qs :
  JS.occurrences SFTP_CONFIG_MARKER old = 0%nat ->
  JS.occurrences SFTP_CONFIG_END_MARKER old = 0%nat ->
  regenerate (regenerate old (p :: ps)) (q :: qs) = regenerate old (p :: ps).
Proof.
  intros Hs He. unfold regenerate at 2.
  rewrite (excise_fence_clean old Hs).
  unfold regenerate at 1.
  rewrite excise_fence_regenerated
    by (rewrite occurrences_trimEnd by reflexivity; assumption).
  rewrite trimEnd_app_spaces
    by (repeat constructor).
  rewrite trimEnd_idempotent.
  unfold regenerate. rewrite (excise_fence_clean old Hs). reflexivity.
Qed.

(** Regenerating it for the empty project list removes the fence and
    leaves the original configuration, trimmed. *)
Lemma regenerate_removed old p ps :
  JS.occurrences SFTP_CONFIG_MARKER old = 0%nat ->
  JS.occurrences SFTP_CONFIG_END_MARKER old = 0%nat ->
  regenerate (regenerate old (p :: ps)) [] = JS.trimEnd old.
Proof.
  intros Hs He. unfold regenerate at 2.
  rewrite (excise_fence_clean old Hs).
  unfold regenerate.
  rewrite excise_fence_regenerated
    by (rewrite occurrences_trimEnd by reflexivity; assumption).
  rewrite trimEnd_app_spaces by (repeat constructor).
  rewrite trimEnd_idempotent. apply app_nil_r.
Qed.

(** ** Traces *)

Lemma effects_app (a b : list event) : effects (a ++ b) = effects a ++ effects b.
Proof. unfold effects. apply List.filter_app. Qed.

Ltac flatten_trace :=
  repeat rewrite <- app_assoc; cbn [app].


(** ** The registry store *)

Lemma registry_file_path :
  Path.resolve PROJECTS_CONFIG_FILE
  = Path.resolve TOOL_CONFIG_PATH ++ [js "projects.json"].
Proof. vm_compute. reflexivity. Qed.

Lemma existsSync_read path c w :
  Fs.read (fs w) (Path.resolve path) = inr c -> existsSync path w = (Ok true, w).
Proof.
  unfold existsSync, Fs.read. intros H.
  destruct (Fs.lookup_path _ _) as [n|]; [|discriminate].
  rewrite bool_decide_eq_true_2 by eauto. reflexivity.
Qed.

Lemma existsSync_lookup path n w :
  Fs.lookup_path (fs w) (Path.resolve path) = Some n ->
  existsSync path w = (Ok true, w).
Proof.
  unfold existsSync. intros ->.
  rewrite bool_decide_eq_true_2 by eauto. reflexivity.
Qed.

Lemma existsSync_absent path w :
  Fs.lookup_path (fs w) (Path.resolve path) = None ->
  existsSync path w = (Ok false, w).
Proof.
  unfold existsSync. intros ->.
  rewrite bool_decide_eq_false_2; [reflexivity|].
  intros [x Hx]. discriminate.
Qed.

(** With the registry file in place, [initConfigDir] has nothing to do. *)
Lemma initConfigDir_present c w :
  Fs.read (fs w) (Path.resolve PROJECTS_CONFIG_FILE) = inr c ->
  initConfigDir w = (Ok tt, w).
Proof.
  intros H. unfold initConfigDir.
  pose proof H as H'. rewrite registry_file_path in H'.
  apply read_parent in H' as [es Hes].
  rewrite (bind_run _ _ _ _ _ (existsSync_lookup _ _ _ Hes)). cbn [negb].
  unfold bind at 1, ret at 1.
  rewrite (bind_run _ _ _ _ _ (existsSync_read _ _ _ H)). reflexivity.
Qed.

Lemma loadProjects_document d w :
  Fs.read (fs w) (Path.resolve PROJECTS_CONFIG_FILE) = inr (Json d) ->
  loadProjects w = (Ok (or_list (document_projects d) []), w).
Proof.
  intros H. unfold loadProjects.
  apply try_catch_run.
  rewrite (bind_run _ _ _ _ _ (initConfigDir_present _ _ H)).
  unfold bind, readFileSync. rewrite H. reflexivity.
Qed.

Lemma find_name_elem (name : jsstring) (ps : list Project) :
  name ∈ List.map prj_name ps ->
  exists p, List.find (fun p => bool_decide (prj_name p = name)) ps = Some p.
Proof.
  induction ps as [|p ps IH]; simpl; intros H.
  - inversion H.
  - destruct (bool_decide (prj_name p = name)) eqn:E; [eauto|].
    apply bool_decide_eq_false in E.
    apply elem_of_cons in H as [H|H]; [congruence | auto].
Qed.

Lemma getProject_registered name r ps w :
  Fs.read (fs w) (Path.resolve PROJECTS_CONFIG_FILE)
  = inr (Json (DRegistry r)) ->
  reg_projects r = Some ps ->
  getProject name w
  = (Ok (List.find (fun p => bool_decide (prj_name p = name)) ps), w).
Proof.
  intros H Hps. unfold getProject.
  rewrite (bind_run _ _ _ _ _ (loadProjects_document _ _ H)).
  simpl. rewrite Hps. reflexivity.
Qed.

(** A name that does not match the pattern is refused before anything is
    looked at. *)
Lemma createProject_invalid_name name password w :
  valid_name name = false ->
  exists e, createProject name password w = (Throw e, w).
Proof.
  intros H. unfold createProject. rewrite H. cbn [negb]. eauto.
Qed.

(** Only names that match the pattern are ever registered. *)
Lemma createProject_Ok_valid name password w c w' :
  createProject name password w = (Ok c, w') -> valid_name name = true.
Proof.
  unfold createProject. destruct (valid_name name); [reflexivity|].
  discriminate.
Qed.

(** Whatever the name, a registered one is refused with the world left as
    it was. *)
Lemma createProject_registered_untouched name password w r ps :
  Fs.read (fs w) (Path.resolve PROJECTS_CONFIG_FILE)
  = inr (Json (DRegistry r)) ->
  reg_projects r = Some ps ->
  name ∈ List.map prj_name ps ->
  exists e, createProject name password w = (Throw e, w).
Proof.
  intros H Hps Hin.
  destruct (valid_name name) eqn:V;
    [|apply createProject_invalid_name; assumption].
  unfold createProject. rewrite V. cbn [negb].
  unfold projectExists.
  destruct (find_name_elem _ _ Hin) as [p Hp].
  unfold bind at 1. unfold bind at 1.
  rewrite (getProject_registered _ _ _ _ H Hps), Hp.
  unfold ret at 1. eauto.
Qed.

(** C3. When the registry holds validated names, as the data model has
    it, [createProject] on a name that it already lists fails with the
    duplicate error and the world is exactly as before: no directory is
    made, no command is run (so no user is created), the registry and the
    SSH configuration are not written, nothing is logged. *)
Theorem createProject_duplicate name password w r ps :
  Fs.read (fs w) (Path.resolve PROJECTS_CONFIG_FILE)
  = inr (Json (DRegistry r)) ->
  reg_projects r = Some ps ->
  Forall (fun p => valid_name (prj_name p) = true) ps ->
  name ∈ List.map prj_name ps ->
  createProject name password w
  = (Throw (js "Le projet " ++ name ++ js " existe déjà"), w).
Proof.
  intros H Hps Hvalid Hin.
  assert (valid_name name = true) as V.
  { apply list_elem_of_fmap in Hin as (p & -> & Hp).
    rewrite Forall_forall in Hvalid. apply Hvalid.
    exact Hp. }
  unfold createProject. rewrite V. cbn [negb].
  unfold projectExists.
  destruct (find_name_elem _ _ Hin) as [p Hp].
  unfold bind at 1. unfold bind at 1.
  rewrite (getProject_registered _ _ _ _ H Hps), Hp.
  reflexivity.
Qed.

Lemma existsSync_cases path w :
  (existsSync path w = (Ok true, w)
   /\ exists n, Fs.lookup_path (fs w) (Path.resolve path) = Some n)
  \/ (existsSync path w = (Ok false, w)
      /\ Fs.lookup_path (fs w) (Path.resolve path) = None).
Proof.
  destruct (Fs.lookup_path (fs w) (Path.resolve path)) as [n|] eqn:E.
  - left. split; [eapply existsSync_lookup; exact E | eauto].
  - right. split; [apply existsSync_absent; exact E | reflexivity].
Qed.

Lemma read_absent n p : Fs.lookup_path n p = None -> Fs.read n p = inl ENOENT.
Proof. unfold Fs.read. intros ->. reflexivity. Qed.

(** When [initConfigDir] raises, there is no registry file to read. *)
Lemma initConfigDir_cases w :
  exists r w1 evs,
    initConfigDir w = (r, w1)
    /\ trace w1 = trace w ++ evs
    /\ match r with
       | Ok _ => True
       | Throw _ =>
           Fs.read (fs w1) (Path.resolve PROJECTS_CONFIG_FILE) = inl ENOENT
       end.
Proof.
  unfold initConfigDir.
  destruct (existsSync_cases TOOL_CONFIG_PATH w) as [[E _]|[E Habs]];
    rewrite (bind_run _ _ _ _ _ E); cbn [negb].
  - unfold bind at 1, ret at 1.
    destruct (existsSync_cases PROJECTS_CONFIG_FILE w) as [[E2 _]|[E2 Habs2]];
      rewrite (bind_run _ _ _ _ _ E2); cbn [negb].
    + exists (Ok tt), w, []. rewrite app_nil_r. auto.
    + unfold bind, writeFileSync, logger_debug, emit.
      destruct (Fs.write _ _ _) as [e|n1] eqn:W.
      * exists (Throw (Fs.message e)), w, []. rewrite app_nil_r.
        split; [reflexivity|]. split; [reflexivity|].
        apply read_absent, Habs2.
      * eexists (Ok tt), _, _. cbn [trace].
        split; [reflexivity|]. rewrite <- app_assoc. split; [reflexivity|exact I].
  - unfold bind at 1. unfold bind at 1. unfold mkdirSync at 1.
    destruct (Fs.mkdir_p _ _) as [e|n1] eqn:Mk.
    + exists (Throw (Fs.message e)), w, []. rewrite app_nil_r.
      split; [reflexivity|]. split; [reflexivity|].
      apply read_absent. rewrite registry_file_path, lookup_path_app, Habs.
      reflexivity.
    + unfold logger_debug at 1, emit at 1. cbn [fs trace ticks].
      set (w1 := mkWorld n1 _ _).
      destruct (existsSync_cases PROJECTS_CONFIG_FILE w1) as [[E2 _]|[E2 Habs2]];
        rewrite (bind_run _ _ _ _ _ E2); cbn [negb].
      * eexists (Ok tt), _, _. subst w1. cbn [trace].
        split; [reflexivity|]. rewrite <- app_assoc. split; [reflexivity|exact I].
      * unfold bind, writeFileSync, logger_debug, emit. subst w1.
        cbn [fs trace ticks]. cbn [fs] in Habs2.
        destruct (Fs.write _ _ _) as [e|n2] eqn:W.
        -- eexists (Throw (Fs.message e)), _, _. cbn [trace fs].
           split; [reflexivity|]. rewrite <- app_assoc. split; [reflexivity|].
           apply read_absent, Habs2.
        -- eexists (Ok tt), _, _. cbn [trace].
           split; [reflexivity|]. rewrite <- !app_assoc.
           split; [reflexivity | exact I].
Qed.

Lemma loadProjects_cases w :
  exists l w',
    loadProjects w = (Ok l, w')
    /\ match Fs.read (fs w') (Path.resolve PROJECTS_CONFIG_FILE) with
       | inr (Json d) => l = or_list (document_projects d) []
       | _ =>
           l = []
           /\ exists evs message,
                trace w'
                = trace w ++ evs
                  ++ [Log Error (js "Erreur lors du chargement des projets: "
                                 ++ message)]
       end.
Proof.
  unfold loadProjects.
  destruct (initConfigDir_cases w) as (r & w1 & evs & Hinit & Htr & Hr).
  unfold try_catch, bind at 1. rewrite Hinit.
  destruct r as [[]|e].
  - unfold bind, readFileSync.
    destruct (Fs.read (fs w1) _) as [e|[s|d]] eqn:R;
      cbn [JSON_parse throw ret logger_error emit fs trace].
    + eexists [], _. split; [reflexivity|]. cbn [fs]. rewrite R.
      split; [reflexivity|]. exists evs, (Fs.message e).
      rewrite Htr, <- app_assoc. reflexivity.
    + eexists [], _. split; [reflexivity|]. cbn [fs]. rewrite R.
      split; [reflexivity|]. exists evs, (js "Unexpected token in JSON").
      rewrite Htr, <- app_assoc. reflexivity.
    + eexists _, _. split; [reflexivity|]. rewrite R. reflexivity.
  - unfold logger_error, bind, emit, ret. cbn [fs trace].
    eexists [], _. split; [reflexivity|]. cbn [fs]. rewrite Hr.
    split; [reflexivity|]. exists evs, e.
    rewrite Htr, <- app_assoc. reflexivity.
Qed.

Lemma loadProjectConfig_cases projectName w :
  exists c w',
    loadProjectConfig projectName w = (Ok c, w')
    /\ fs w' = fs w
    /\ match Fs.read (fs w) (Path.resolve (configPath projectName)) with
       | inr (Json d) => c = as_config d /\ w' = w
       | _ => c = defaultConfig projectName (ISO (clock (ticks w)))
       end.
Proof.
  unfold loadProjectConfig.
  destruct (existsSync_cases (configPath projectName) w) as [[E [n Hn]]|[E Habs]];
    unfold bind at 1, try_catch at 1; rewrite (bind_run _ _ _ _ _ E).
  - unfold bind, readFileSync, Fs.read. rewrite Hn.
    destruct n as [[s|d]|es];
      cbn [JSON_parse throw ret logger_warn emit fs trace Date_toISOString
           Date_now bind ticks];
      eexists _, _; (split; [reflexivity|]); cbn [fs]; auto.
  - unfold ret at 1. rewrite (read_absent _ _ Habs).
    unfold Date_toISOString, Date_now, bind, ret.
    eexists _, _. split; [reflexivity|]. cbn [fs]. auto.
Qed.

(** A registry file that [initConfigDir] has to create holds the empty
    registry. *)
Lemma initConfigDir_created w w1 e d :
  Fs.read (fs w) (Path.resolve PROJECTS_CONFIG_FILE) = inl e ->
  initConfigDir w = (Ok tt, w1) ->
  Fs.read (fs w1) (Path.resolve PROJECTS_CONFIG_FILE) = inr (Json d) ->
  d = DRegistry (mkRegistry (Some []) None).
Proof.
  intros R. unfold initConfigDir.
  destruct (existsSync_cases TOOL_CONFIG_PATH w) as [[E1 _]|[E1 Habs]];
    rewrite (bind_run _ _ _ _ _ E1); cbn [negb].
  - unfold bind at 1, ret at 1.
    destruct (existsSync_cases PROJECTS_CONFIG_FILE w)
      as [[E2 _]|[E2 Habs2]];
      rewrite (bind_run _ _ _ _ _ E2); cbn [negb].
    + unfold ret. intros [= <-] R1. congruence.
    + unfold bind, writeFileSync, logger_debug, emit.
      destruct (Fs.write _ _ _) as [e2|n2] eqn:W; [discriminate|].
      intros [= <-]. cbn [fs]. rewrite (read_write _ _ _ _ W).
      intros [= <-]. reflexivity.
  - unfold bind at 1. unfold bind at 1. unfold mkdirSync at 1.
    destruct (Fs.mkdir_p _ _) as [e2|n1] eqn:Mk; [discriminate|].
    unfold logger_debug at 1, emit at 1. cbn [fs trace ticks].
    set (wm' := mkWorld n1 _ _).
    destruct (existsSync_cases PROJECTS_CONFIG_FILE wm')
      as [[E2 [n Hn]]|[E2 Habs2]];
      rewrite (bind_run _ _ _ _ _ E2); cbn [negb].
    + exfalso. subst wm'. cbn [fs] in Hn. revert Hn.
      rewrite registry_file_path.
      rewrite (mkdir_p_keeps_absent _ _ _ _ ltac:(rewrite lookup_path_app, Habs; reflexivity) Mk).
      discriminate.
    + unfold bind, writeFileSync, logger_debug, emit.
      destruct (Fs.write _ _ _) as [e3|n2] eqn:W; [discriminate|].
      intros [= <-]. cbn [fs]. rewrite (read_write _ _ _ _ W).
      intros [= <-]. reflexivity.
Qed.

(** What [loadProjects] does, by what the registry file holds before the
    call. *)
Lemma loadProjects_by_content w :
  match Fs.read (fs w) (Path.resolve PROJECTS_CONFIG_FILE) with
  | inr (Json d) => loadProjects w = (Ok (or_list (document_projects d) []), w)
  | inr (Text _) =>
      fst (loadProjects w) = Ok []
      /\ exists message,
           trace (snd (loadProjects w))
           = trace w
             ++ [Log Error (js "Erreur lors du chargement des projets: "
                            ++ message)]
  | inl _ =>
      fst (loadProjects w) = Ok []
      /\ match Fs.read (fs (snd (loadProjects w)))
                       (Path.resolve PROJECTS_CONFIG_FILE) with
         | inr (Json d) => d = DRegistry (mkRegistry (Some []) None)
         | _ =>
             exists evs message,
               trace (snd (loadProjects w))
               = trace w ++ evs
                 ++ [Log Error (js "Erreur lors du chargement des projets: "
                                ++ message)]
         end
  end.
Proof.
  destruct (Fs.read (fs w) (Path.resolve PROJECTS_CONFIG_FILE))
    as [e|[s|d]] eqn:R.
  - destruct (loadProjects w) as [r w'] eqn:Run. cbn [fst snd].
    unfold loadProjects, try_catch, bind at 1 in Run.
    destruct (initConfigDir_cases w) as (r0 & w1 & evs & Hinit & Htr & Hr).
    rewrite Hinit in Run. destruct r0 as [[]|e0].
    + unfold bind, readFileSync in Run.
      destruct (Fs.read (fs w1) _) as [e1|[s1|d1]] eqn:R1;
        unfold JSON_parse, throw, ret, logger_error, emit, bind in Run;
        cbv beta iota in Run;
        pose proof (f_equal fst Run) as Hfst;
        pose proof (f_equal snd Run) as Hsnd;
        cbn [fst snd] in Hfst, Hsnd; subst r w'; cbn [fs trace].
      * rewrite R1. split; [reflexivity|]. exists evs, (Fs.message e1).
        rewrite Htr, <- app_assoc. reflexivity.
      * rewrite R1. split; [reflexivity|].
        exists evs, (js "Unexpected token in JSON").
        rewrite Htr, <- app_assoc. reflexivity.
      * rewrite R1.
        rewrite (initConfigDir_created _ _ _ _ R Hinit R1).
        split; reflexivity.
    + unfold logger_error, emit, bind, ret in Run.
      pose proof (f_equal fst Run) as Hfst;
        pose proof (f_equal snd Run) as Hsnd;
        cbn [fst snd] in Hfst, Hsnd; subst r w'; cbn [fs trace].
      rewrite Hr. split; [reflexivity|]. exists evs, e0.
      rewrite Htr, <- app_assoc. reflexivity.
  - unfold loadProjects, try_catch.
    rewrite (bind_run _ _ _ _ _ (initConfigDir_present _ _ R)).
    unfold bind, readFileSync. rewrite R.
    cbn [JSON_parse throw logger_error emit ret fst snd trace]. eauto.
  - exact (loadProjects_document _ _ R).
Qed.

(** What [loadProjectConfig] does, by what the project's document holds
    before the call. *)
Lemma loadProjectConfig_by_content projectName w :
  let fresh :=
    mkProjectConfig (Some projectName) None None (Some [])
                    (Some (ISO (clock (ticks w)))) None in
  match Fs.read (fs w) (Path.resolve (configPath projectName)) with
  | inr (Json (DConfig c)) => loadProjectConfig projectName w = (Ok c, w)
  | inr (Json _) => exists c, loadProjectConfig projectName w = (Ok c, w)
  | inr (Text _) =>
      fst (loadProjectConfig projectName w) = Ok fresh
      /\ exists message,
           trace (snd (loadProjectConfig projectName w))
           = trace w
             ++ [Log Warn
                   (js "Erreur lors du chargement de la config du projet: "
                    ++ message)]
  | inl _ => fst (loadProjectConfig projectName w) = Ok fresh
  end.
Proof.
  cbv zeta.
  destruct (loadProjectConfig projectName w) as [r w'] eqn:Run.
  cbn [fst snd]. unfold loadProjectConfig in Run.
  destruct (existsSync_cases (configPath projectName) w)
    as [[E [n Hn]]|[E Habs]];
    unfold bind at 1, try_catch at 1 in Run;
    rewrite (bind_run _ _ _ _ _ E) in Run.
  - unfold bind, readFileSync, Fs.read in Run. unfold Fs.read.
    rewrite Hn in *.
    destruct n as [[s|[r0|c|l]]|es];
      unfold JSON_parse, throw, ret, logger_warn, emit, Date_toISOString,
        Date_now, bind, as_config in Run;
      cbv beta iota zeta in Run; cbn [fs trace ticks] in Run;
      pose proof (f_equal fst Run) as Hr; pose proof (f_equal snd Run) as Hw;
      cbn [fst snd] in Hr, Hw; subst r w'; cbn [trace];
      lazymatch goal with
      | |- _ /\ _ => split; [reflexivity | eexists; reflexivity]
      | |- ex _ => eexists; reflexivity
      | |- _ => reflexivity
      end.
  - unfold ret at 1 in Run. rewrite (read_absent _ _ Habs).
    unfold Date_toISOString, Date_now, bind, ret in Run.
    injection Run as <- <-. reflexivity.
Qed.

(** C6. Neither loader raises. [loadProjects] returns the projects of the
    registry document when the file holds one; when the file holds a text
    that is not JSON, it returns the empty list and logs the error; when
    the file cannot be read, it returns the empty list as well, and logs
    the error unless the file was missing and could be created, with the
    empty registry.
    [loadProjectConfig] returns the project's document when the file
    holds one; when the file holds a text that is not JSON, it returns a
    fresh object with the project's name, no service, and the current time
    as creation date, and logs a warning; when the file is absent or
    cannot be read, it returns that fresh object as well. *)
Theorem loaders_degrade_without_raising projectName w :
  (forall s,
     Fs.read (fs w) (Path.resolve PROJECTS_CONFIG_FILE) = inr (Text s) ->
     JSON.accepts s = false) ->
  (forall s,
     Fs.read (fs w) (Path.resolve (configPath projectName)) = inr (Text s) ->
     JSON.accepts s = false) ->
  let fresh :=
    mkProjectConfig (Some projectName) None None (Some [])
                    (Some (ISO (clock (ticks w)))) None in
  match Fs.read (fs w) (Path.resolve PROJECTS_CONFIG_FILE) with
  | inr (Json d) => loadProjects w = (Ok (or_list (document_projects d) []), w)
  | inr (Text _) =>
      fst (loadProjects w) = Ok []
      /\ exists message,
           trace (snd (loadProjects w))
           = trace w
             ++ [Log Error (js "Erreur lors du chargement des projets: "
                            ++ message)]
  | inl _ =>
      fst (loadProjects w) = Ok []
      /\ match Fs.read (fs (snd (loadProjects w)))
                       (Path.resolve PROJECTS_CONFIG_FILE) with
         | inr (Json d) => d = DRegistry (mkRegistry (Some []) None)
         | _ =>
             exists evs message,
               trace (snd (loadProjects w))
               = trace w ++ evs
                 ++ [Log Error (js "Erreur lors du chargement des projets: "
                                ++ message)]
         end
  end
  /\ match Fs.read (fs w) (Path.resolve (configPath projectName)) with
     | inr (Json (DConfig c)) => loadProjectConfig projectName w = (Ok c, w)
     | inr (Json _) => exists c, loadProjectConfig projectName w = (Ok c, w)
     | inr (Text _) =>
         fst (loadProjectConfig projectName w) = Ok fresh
         /\ exists message,
              trace (snd (loadProjectConfig projectName w))
              = trace w
                ++ [Log Warn
                      (js "Erreur lors du chargement de la config du projet: "
                       ++ message)]
     | inl _ => fst (loadProjectConfig projectName w) = Ok fresh
     end.
Proof.
  intros _ _.
  split; [exact (loadProjects_by_content w)
         | exact (loadProjectConfig_by_content projectName w)].
Qed.

(** ** Services: listing and stopping *)

Lemma commands_app (a b : list event) :
  commands (a ++ b) = commands a ++ commands b.
Proof.
  induction a as [|[] a IH]; cbn [commands app]; rewrite ?IH; reflexivity.
Qed.

Lemma loadProjectConfig_document p c w :
  Fs.read (fs w) (Path.resolve (configPath p)) = inr (Json (DConfig c)) ->
  loadProjectConfig p w = (Ok c, w).
Proof.
  intros H. destruct (loadProjectConfig_cases p w) as (c' & w' & E & _ & Hc).
  rewrite H in Hc. destruct Hc as [-> ->]. exact E.
Qed.

(** Loading a project's document only reads: it may log a warning and read
    the clock, nothing else. *)
Lemma loadProjectConfig_quiet p w :
  exists evs,
    trace (snd (loadProjectConfig p w)) = trace w ++ evs /\ effects evs = [].
Proof.
  unfold loadProjectConfig.
  destruct (existsSync_cases (configPath p) w) as [[E [n Hn]]|[E Habs]];
    unfold bind at 1, try_catch at 1; rewrite (bind_run _ _ _ _ _ E).
  - unfold bind, readFileSync, Fs.read. rewrite Hn.
    destruct n as [[s|d]|es];
      cbn [JSON_parse throw ret logger_warn emit fs trace Date_toISOString
           Date_now bind ticks snd].
    + eexists [_]. split; reflexivity.
    + exists []. rewrite app_nil_r. split; reflexivity.
    + eexists [_]. split; reflexivity.
  - unfold ret at 1, Date_toISOString, Date_now, bind, ret. cbn [snd trace].
    exists []. rewrite app_nil_r. split; reflexivity.
Qed.

(** [listServices] returns the declared services, whatever the state of the
    project's document. *)
Lemma listServices_declared p w :
  exists w1 evs,
    listServices p w = (Ok (declared w p), w1)
    /\ fs w1 = fs w
    /\ trace w1 = trace w ++ evs
    /\ effects evs = []
    /\ (forall d, Fs.read (fs w) (Path.resolve (configPath p)) = inr (Json d) ->
        w1 = w).
Proof.
  unfold listServices, declared.
  destruct (loadProjectConfig_cases p w) as (c & w1 & E & Hfs & Hc).
  destruct (loadProjectConfig_quiet p w) as (evs & Htr & Heff).
  rewrite E in Htr. cbn [snd] in Htr.
  rewrite (bind_run _ _ _ _ _ E). unfold ret.
  exists w1, evs.
  destruct (Fs.read (fs w) (Path.resolve (configPath p))) as [e|[s|d]] eqn:R.
  - subst c. cbn [defaultConfig cfg_services or_list].
    repeat split; try assumption. intros d Hd. discriminate.
  - subst c. cbn [defaultConfig cfg_services or_list].
    repeat split; try assumption. intros d Hd. discriminate.
  - destruct Hc as [-> ->].
    assert (or_list (cfg_services (as_config d)) []
            = match d with DConfig c => or_list (cfg_services c) [] | _ => [] end)
      as -> by (destruct d; reflexivity).
    repeat split; try assumption.
Qed.

(** C10. For a project that declares no service (its document holds none,
    or it has no readable document, a text that is not JSON included),
    [startAllServices] raises the no-service error while
    [stopAllServices] returns normally. Neither issues a command nor writes
    a document: at most a warning is logged, and nothing at all is logged
    when the project's document is readable. *)
Theorem no_service_start_raises_stop_returns p runSetup w :
  (forall s,
     Fs.read (fs w) (Path.resolve (configPath p)) = inr (Text s) ->
     JSON.accepts s = false) ->
  declared w p = [] ->
  exists w1 evs,
    startAllServices p runSetup w
    = (Throw (js "Aucun service configuré pour ce projet"), w1)
    /\ stopAllServices p w = (Ok tt, w1)
    /\ trace w1 = trace w ++ evs
    /\ effects evs = []
    /\ (forall d, Fs.read (fs w) (Path.resolve (configPath p)) = inr (Json d) ->
        w1 = w).
Proof.
  intros _ Hnone.
  destruct (listServices_declared p w) as (w1 & evs & E & Hfs & Htr & Heff & Hq).
  rewrite Hnone in E.
  exists w1, evs. unfold startAllServices, stopAllServices.
  rewrite !(bind_run _ _ _ _ _ E). auto 10.
Qed.

Lemma getService_declared p n c l w :
  Fs.read (fs w) (Path.resolve (configPath p)) = inr (Json (DConfig c)) ->
  cfg_services c = Some l ->
  getService p n w = (Ok (List.find (has_name n) l), w).
Proof.
  intros H Hl. unfold getService.
  rewrite (bind_run _ _ _ _ _ (loadProjectConfig_document _ _ _ H)).
  unfold services_of. rewrite Hl. reflexivity.
Qed.

Lemma is_stop_command_stop x : is_stop_command (stop_command x) = true.
Proof. vm_compute. reflexivity. Qed.

Lemma is_stop_command_save : is_stop_command (js "pm2 " ++ js "save") = false.
Proof. vm_compute. reflexivity. Qed.

(** Stopping a declared service issues its stop command, whether the
    supervisor accepts it or not. *)
Lemma stopService_declared p n c l s w :
  Fs.read (fs w) (Path.resolve (configPath p)) = inr (Json (DConfig c)) ->
  cfg_services c = Some l ->
  List.find (has_name n) l = Some s ->
  exists r w' evs,
    stopService p n w = (r, w')
    /\ fs w' = fs w
    /\ trace w' = trace w ++ evs
    /\ List.filter is_stop_command (commands evs)
       = [stop_command (pm2Name_of p n s)].
Proof.
  intros H Hl Hs. unfold stopService.
  rewrite (bind_run _ _ _ _ _ (getService_declared _ n _ _ _ H Hl)), Hs.
  unfold pm2Command, execCommand, child_process_exec, logger_info,
    logger_debug, logger_success, emit, bind, try_catch, ret, throw.
  cbn [fs trace ticks].
  fold (stop_command (pm2Name_of p n s)).
  match goal with |- context [os ?w1 (stop_command _) None] =>
    destruct (os w1 (stop_command (pm2Name_of p n s)) None) as [o|m]
  end; cbn [fs trace ticks].
  - match goal with |- context [os ?w2 (js "pm2 " ++ js "save") None] =>
      destruct (os w2 (js "pm2 " ++ js "save") None) as [o2|m2]
    end; cbn [fs trace ticks];
      eexists _, _, _; (split; [reflexivity|]); cbn [fs trace];
      (split; [reflexivity|]); (split; [flatten_trace; reflexivity|]);
      cbn [commands List.filter];
      rewrite is_stop_command_stop, is_stop_command_save; reflexivity.
  - eexists _, _, _. split; [reflexivity|]. cbn [fs trace].
    split; [reflexivity|]. split; [flatten_trace; reflexivity|].
    cbn [commands List.filter].
    rewrite is_stop_command_stop. reflexivity.
Qed.

Lemma find_has_name_NoDup (l : list Service) (s : Service) :
  NoDup (List.map svc_name l) -> s ∈ l ->
  List.find (has_name (svc_name s)) l = Some s.
Proof.
  induction l as [|x l IH]; intros Hnd Hin; [inversion Hin|].
  cbn [List.map] in Hnd. apply NoDup_cons in Hnd as [Hx Hnd].
  cbn [List.find]. unfold has_name at 1.
  apply elem_of_cons in Hin as [->|Hin].
  - rewrite bool_decide_eq_true_2 by reflexivity. reflexivity.
  - rewrite bool_decide_eq_false_2; [auto|].
    intros E. apply Hx. rewrite E.
    apply list_elem_of_fmap. exists s. auto.
Qed.

Lemma stop_loop p c l :
  cfg_services c = Some l ->
  forall l' w,
    (forall s, s ∈ l' -> List.find (has_name (svc_name s)) l = Some s) ->
    Fs.read (fs w) (Path.resolve (configPath p)) = inr (Json (DConfig c)) ->
    exists w' evs,
      for_of l'
        (fun service =>
           try_catch
             (stopService p (svc_name service))
             (fun message =>
                logger_error
                  (js "Erreur pour " ++ svc_name service ++ js ": " ++ message)))
        w
      = (Ok tt, w')
      /\ fs w' = fs w
      /\ trace w' = trace w ++ evs
      /\ List.filter is_stop_command (commands evs)
         = List.map (fun s => stop_command (pm2Name_of p (svc_name s) s)) l'.
Proof.
  intros Hl. induction l' as [|s l' IH]; intros w Hfind Hfile.
  - exists w, []. rewrite app_nil_r. auto.
  - cbn [for_of].
    destruct (stopService_declared p (svc_name s) c l s w Hfile Hl)
      as (r & w1 & evs1 & E1 & Hfs1 & Htr1 & Hc1).
    { apply Hfind. left. }
    assert (exists w2 evs2,
               try_catch (stopService p (svc_name s))
                 (fun message =>
                    logger_error
                      (js "Erreur pour " ++ svc_name s ++ js ": " ++ message)) w
               = (Ok tt, w2)
               /\ fs w2 = fs w /\ trace w2 = trace w ++ evs2
               /\ List.filter is_stop_command (commands evs2)
                  = [stop_command (pm2Name_of p (svc_name s) s)])
      as (w2 & evs2 & E2 & Hfs2 & Htr2 & Hc2).
    { unfold try_catch. rewrite E1. destruct r as [[]|e].
      - exists w1, evs1. auto.
      - unfold logger_error, emit. eexists _, (evs1 ++ [_]).
        split; [reflexivity|]. cbn [fs trace]. split; [assumption|].
        split; [rewrite Htr1, <- app_assoc; reflexivity|].
        rewrite commands_app, List.filter_app, Hc1. reflexivity. }
    rewrite (bind_run _ _ _ _ _ E2).
    destruct (IH w2) as (w' & evs & E & Hfs & Htr & Hc).
    { intros s' Hs'. apply Hfind. right. exact Hs'. }
    { rewrite Hfs2. exact Hfile. }
    exists w', (evs2 ++ evs). split; [exact E|].
    split; [congruence|].
    split; [rewrite Htr, Htr2, <- app_assoc; reflexivity|].
    rewrite commands_app, List.filter_app, Hc2, Hc. reflexivity.
Qed.

(** C8. On a project whose document declares services with distinct names,
    [stopAllServices] returns normally whatever the supervisor answers, and
    the stop commands it issues are exactly those of the declared
    services, one each, in declaration order: a failing stop of one
    service does not keep the later ones from being attempted. *)
Theorem stopAllServices_attempts_all p c l w :
  Fs.read (fs w) (Path.resolve (configPath p)) = inr (Json (DConfig c)) ->
  cfg_services c = Some l ->
  NoDup (List.map svc_name l) ->
  exists w' evs,
    stopAllServices p w = (Ok tt, w')
    /\ trace w' = trace w ++ evs
    /\ List.filter is_stop_command (commands evs)
       = List.map (fun s => stop_command (pm2Name_of p (svc_name s) s)) l.
Proof.
  intros Hfile Hl Hnd. unfold stopAllServices.
  destruct (listServices_declared p w) as (w1 & evs0 & E & _ & _ & _ & Hq).
  specialize (Hq _ Hfile). subst w1.
  unfold declared in E. rewrite Hfile, Hl in E. cbn [or_list] in E.
  rewrite (bind_run _ _ _ _ _ E).
  destruct l as [|s0 l0] eqn:El.
  - exists w, []. rewrite app_nil_r. auto.
  - rewrite <- El in *. clear E.
    unfold bind at 1, logger_info at 1, emit at 1.
    match goal with |- context [bind (for_of l _) _ ?w1] =>
      destruct (stop_loop p c l Hl l w1) as (w' & evs & E & Hfs & Htr & Hc)
    end.
    { intros s Hs. apply find_has_name_NoDup; assumption. }
    { exact Hfile. }
    rewrite (bind_run _ _ _ _ _ E).
    unfold logger_success, emit.
    eexists _, (_ :: evs ++ [_]). split; [reflexivity|]. cbn [trace].
    split.
    + rewrite Htr. cbn [trace]. rewrite <- !app_assoc. reflexivity.
    + change (commands (?x :: ?r)) with (commands ([x] ++ r)).
      rewrite !commands_app, !List.filter_app, Hc. cbn.
      rewrite app_nil_r. reflexivity.
Qed.

(** ** Paths in normal form *)

Lemma split_plain (c : N) (s : jsstring) : c ∉ s -> JS.split c s = [s].
Proof.
  induction s as [|x s IH]; intros H; [reflexivity|].
  apply not_elem_of_cons in H as [Hx Hs]. cbn [JS.split].
  destruct (N.eqb_spec x c); [congruence|]. rewrite IH by assumption.
  reflexivity.
Qed.

Lemma split_app_sep (c : N) (a b : jsstring) :
  c ∉ a -> JS.split c (a ++ c :: b) = a :: JS.split c b.
Proof.
  induction a as [|x a IH]; intros H.
  - cbn [app JS.split]. rewrite N.eqb_refl. reflexivity.
  - apply not_elem_of_cons in H as [Hx Ha]. cbn [app JS.split].
    destruct (N.eqb_spec x c); [congruence|]. rewrite IH by assumption.
    reflexivity.
Qed.

Lemma split_join (c : N) (segs : list jsstring) :
  segs <> [] -> Forall (fun s => c ∉ s) segs ->
  JS.split c (JS.join [c] segs) = segs.
Proof.
  induction segs as [|x segs IH]; intros Hne H; [congruence|].
  apply Forall_cons in H as [Hx Hr].
  destruct segs as [|y r].
  - cbn [JS.join]. apply split_plain. exact Hx.
  - change (JS.join [c] (x :: y :: r)) with (x ++ c :: JS.join [c] (y :: r)).
    rewrite split_app_sep by assumption. rewrite IH; [reflexivity | discriminate | assumption].
Qed.

Lemma push_segment_plain b stack seg :
  plain_segment seg -> Path.push_segment b stack seg = seg :: stack.
Proof.
  intros (Hn & Hd & Hdd & _). unfold Path.push_segment, Path.eqb.
  destruct seg; [congruence|]. cbn [Path.is_nil orb].
  rewrite !bool_decide_eq_false_2 by assumption. reflexivity.
Qed.

Lemma fold_push_plain b segs stack :
  Forall plain_segment segs ->
  fold_left (Path.push_segment b) segs stack = rev segs ++ stack.
Proof.
  revert stack. induction segs as [|s segs IH]; intros stack H; [reflexivity|].
  apply Forall_cons in H as [Hs Hr]. cbn [fold_left].
  rewrite push_segment_plain by assumption. rewrite IH by assumption.
  cbn [rev]. rewrite <- app_assoc. reflexivity.
Qed.

Lemma normalize_segments_plain b segs :
  Forall plain_segment segs -> Path.normalize_segments b ([] :: segs) = segs.
Proof.
  intros H. unfold Path.normalize_segments. cbn [fold_left].
  change (Path.push_segment b [] []) with ([] : list jsstring).
  rewrite fold_push_plain by assumption. rewrite app_nil_r.
  apply rev_involutive.
Qed.

Lemma plain_no_slash segs :
  Forall plain_segment segs -> Forall (fun s => Path.slash ∉ s) segs.
Proof.
  intros H. eapply Forall_impl; [exact H|].
  intros s (_ & _ & _ & Hs). exact Hs.
Qed.

(** The location of an absolute path made of plain segments. *)
Lemma resolve_absolute segs :
  segs <> [] -> Forall plain_segment segs ->
  Path.resolve (Path.slash :: JS.join [Path.slash] segs) = segs.
Proof.
  intros Hne H. unfold Path.resolve.
  change (Path.slash :: JS.join [Path.slash] segs)
    with ([] ++ Path.slash :: JS.join [Path.slash] segs).
  rewrite split_app_sep by (apply not_elem_of_nil).
  rewrite split_join by auto using plain_no_slash.
  apply normalize_segments_plain. exact H.
Qed.

Lemma join_last_plain segs :
  segs <> [] -> Forall plain_segment segs ->
  exists c, last (JS.join [Path.slash] segs) = Some c /\ c <> Path.slash.
Proof.
  induction segs as [|x segs IH]; intros Hne H; [congruence|].
  apply Forall_cons in H as [Hx Hr].
  destruct segs as [|y r].
  - cbn [JS.join]. destruct Hx as (Hn & _ & _ & Hs).
    destruct (last x) as [c|] eqn:E.
    + exists c. split; [reflexivity|]. intros ->. apply Hs.
      apply last_Some_elem_of. exact E.
    + apply last_None in E. congruence.
  - change (JS.join [Path.slash] (x :: y :: r))
      with (x ++ Path.slash :: JS.join [Path.slash] (y :: r)).
    destruct IH as (c & Hc & Hne'); [discriminate | assumption |].
    exists c. split; [|exact Hne'].
    rewrite last_app. change (last (Path.slash :: ?t)) with (last (Path.slash :: t)).
    rewrite last_cons, Hc. reflexivity.
Qed.

(** An absolute path made of plain segments is its own normal form. *)
Lemma normalize_absolute segs :
  segs <> [] -> Forall plain_segment segs ->
  Path.normalize (Path.slash :: JS.join [Path.slash] segs)
  = Path.slash :: JS.join [Path.slash] segs.
Proof.
  intros Hne H.
  assert (JS.split Path.slash (Path.slash :: JS.join [Path.slash] segs)
          = [] :: segs) as Hsplit.
  { change (Path.slash :: JS.join [Path.slash] segs)
      with ([] ++ Path.slash :: JS.join [Path.slash] segs).
    rewrite split_app_sep by (apply not_elem_of_nil).
    rewrite split_join by auto using plain_no_slash. reflexivity. }
  destruct (join_last_plain segs Hne H) as (c & Hc & Hcs).
  unfold Path.normalize. rewrite Hsplit.
  rewrite normalize_segments_plain by assumption.
  unfold Path.trailingSeparator. rewrite last_cons, Hc.
  cbn [Path.is_nil Path.isAbsolute]. rewrite N.eqb_refl. cbn [negb].
  destruct (JS.join [Path.slash] segs) as [|j js0]; [discriminate|].
  cbn [Path.is_nil].
  destruct (N.eqb_spec c Path.slash); [congruence | reflexivity].
Qed.

Lemma valid_name_plain (s : jsstring) : valid_name s = true -> plain_segment s.
Proof.
  destruct s as [|c r]; [discriminate|]. cbn [valid_name].
  intros H. apply andb_true_iff in H as [Hc Hr].
  assert (c <> 46 /\ c <> 47) as [Hc1 Hc2].
  { split; intros ->; discriminate. }
  repeat split.
  - discriminate.
  - unfold Path.dot. congruence.
  - unfold Path.dotdot. congruence.
  - intros Hin. apply elem_of_cons in Hin as [E|Hin].
    + unfold Path.slash in E. congruence.
    + rewrite forallb_forall in Hr.
      apply list_elem_of_In in Hin. specialize (Hr _ Hin).
      discriminate.
Qed.

Lemma plain_segmentb_plain s : plain_segmentb s = true -> plain_segment s.
Proof.
  unfold plain_segmentb, Path.eqb. intros H.
  repeat (apply andb_true_iff in H as [H ?]).
  repeat split.
  - destruct s; [discriminate | discriminate].
  - intros ->. discriminate.
  - intros ->. discriminate.
  - intros Hin. apply list_elem_of_In in Hin.
    match goal with Hf : forallb _ _ = true |- _ =>
      rewrite forallb_forall in Hf; specialize (Hf _ Hin) end.
    rewrite N.eqb_refl in *. discriminate.
Qed.

(** The document of a validly named project lies at its own place under
    the base directory. *)
Lemma resolve_configPath p :
  valid_name p = true ->
  Path.resolve (configPath p)
  = [js "var"; js "www"; p; js "project.json"].
Proof.
  intros V. pose proof (valid_name_plain p V) as Hp.
  assert (Forall plain_segment [js "var"; js "www"; p; js "project.json"]) as HF.
  { repeat (apply Forall_cons_2 || apply Forall_nil_2); try assumption;
      apply plain_segmentb_plain; vm_compute; reflexivity. }
  unfold configPath, Path.join.
  destruct p as [|c r]; [discriminate|].
  change (filter _ [BASE_PATH; c :: r; PROJECT_STRUCTURE_config])
    with [BASE_PATH; c :: r; PROJECT_STRUCTURE_config].
  cbv beta iota.
  change (JS.join [Path.slash] [BASE_PATH; c :: r; PROJECT_STRUCTURE_config])
    with (Path.slash
          :: JS.join [Path.slash]
               [js "var"; js "www"; c :: r; js "project.json"]).
  rewrite normalize_absolute by (discriminate || assumption).
  apply resolve_absolute; [discriminate | assumption].
Qed.

(** Joining the base, a valid project name, [sites] and a relative path
    made of plain segments is plain concatenation. *)
Lemma join_sites_plain p segs :
  valid_name p = true -> segs <> [] -> Forall plain_segment segs ->
  Path.join [BASE_PATH; p; PROJECT_STRUCTURE_sites; JS.join [Path.slash] segs]
  = BASE_PATH ++ js "/" ++ p ++ js "/sites/" ++ JS.join [Path.slash] segs.
Proof.
  intros V Hne H. pose proof (valid_name_plain p V) as Hp.
  assert (Forall plain_segment ([js "var"; js "www"; p; js "sites"] ++ segs))
    as HF.
  { apply Forall_app. split; [|assumption].
    repeat (apply Forall_cons_2 || apply Forall_nil_2); try assumption;
      apply plain_segmentb_plain; vm_compute; reflexivity. }
  destruct (join_last_plain segs Hne H) as (c0 & Hlast & _).
  destruct segs as [|s1 rest]; [congruence|].
  destruct (JS.join [Path.slash] (s1 :: rest)) as [|d ds] eqn:J;
    [discriminate|].
  destruct p as [|c r]; [discriminate|].
  unfold Path.join.
  change (filter _ [BASE_PATH; c :: r; PROJECT_STRUCTURE_sites; d :: ds])
    with [BASE_PATH; c :: r; PROJECT_STRUCTURE_sites; d :: ds].
  cbv beta iota.
  assert (JS.join [Path.slash]
            [BASE_PATH; c :: r; PROJECT_STRUCTURE_sites; d :: ds]
          = Path.slash
            :: JS.join [Path.slash]
                 ([js "var"; js "www"; c :: r; js "sites"] ++ s1 :: rest)) as ->.
  { cbn [app]. change (JS.join [Path.slash]
       (js "var" :: js "www" :: (c :: r) :: js "sites" :: s1 :: rest))
      with (js "var" ++ [Path.slash] ++ js "www" ++ [Path.slash]
            ++ (c :: r) ++ [Path.slash] ++ js "sites" ++ [Path.slash]
            ++ JS.join [Path.slash] (s1 :: rest)).
    rewrite J. reflexivity. }
  rewrite normalize_absolute by (discriminate || assumption).
  cbn [app]. change (JS.join [Path.slash]
       (js "var" :: js "www" :: (c :: r) :: js "sites" :: s1 :: rest))
      with (js "var" ++ [Path.slash] ++ js "www" ++ [Path.slash]
            ++ (c :: r) ++ [Path.slash] ++ js "sites" ++ [Path.slash]
            ++ JS.join [Path.slash] (s1 :: rest)).
  rewrite J. reflexivity.
Qed.

(** ** Services: starting *)

(** What [pm2Command] does, by the outcome of the command it issues. *)
Lemma pm2Command_run args w :
  pm2Command args w
  = match os (issuing w (js "pm2 " ++ args)) (js "pm2 " ++ args) None with
    | Exit0 out =>
        (Ok (content_trim out),
         mkWorld (fs w)
           (trace w ++ [Log Debug (js "Executing async: " ++ js "pm2 " ++ args);
                        Exec (js "pm2 " ++ args) None])
           (ticks w))
    | Failed m =>
        (Throw (js "Erreur PM2: " ++ m),
         mkWorld (fs w)
           (trace w ++ [Log Debug (js "Executing async: " ++ js "pm2 " ++ args);
                        Exec (js "pm2 " ++ args) None;
                        Log Debug (js "Async command failed: "
                                   ++ (js "pm2 " ++ args) ++ js " - " ++ m)])
           (ticks w))
    end.
Proof.
  unfold pm2Command, execCommand, child_process_exec, logger_debug, emit,
    bind, try_catch, ret, throw, issuing.
  cbn [fs trace ticks].
  destruct (os _ _ _); cbn [fs trace ticks]; flatten_trace; reflexivity.
Qed.





(** ** Adding a service and reading it back *)

Lemma saveProjectConfig_Ok p cfg cfg' w w' :
  saveProjectConfig p cfg w = (Ok cfg', w') ->
  cfg' = set_updatedAt cfg (ISO (clock (ticks w)))
  /\ Fs.write (fs w) (Path.resolve (configPath p)) (Json (DConfig cfg'))
     = inr (fs w')
  /\ Fs.read (fs w') (Path.resolve (configPath p)) = inr (Json (DConfig cfg')).
Proof.
  unfold saveProjectConfig, Date_toISOString, Date_now, try_catch, bind,
    writeFileSync, logger_debug, emit, ret, throw.
  cbn [fs trace ticks].
  destruct (Fs.write _ _ _) as [e|n1] eqn:W; cbn [fs trace ticks];
    [discriminate|].
  intros H. injection H as <- <-. cbn [fs].
  split; [reflexivity|]. split; [exact W|]. eapply read_write, W.
Qed.

(** When [saveProjectConfig] raises, the file system is as it was. *)
Lemma saveProjectConfig_Throw p cfg e w w' :
  saveProjectConfig p cfg w = (Throw e, w') -> fs w' = fs w.
Proof.
  unfold saveProjectConfig, Date_toISOString, Date_now, try_catch, bind,
    writeFileSync, logger_debug, emit, ret, throw.
  cbn [fs trace ticks].
  destruct (Fs.write _ _ _) as [e'|n1] eqn:W; cbn [fs trace ticks];
    [|discriminate].
  intros H. injection H as _ <-. reflexivity.
Qed.

Lemma find_app_new (name : jsstring) (old : list Service) (s : Service) :
  existsb (has_name name) old = false -> svc_name s = name ->
  List.find (has_name name) (old ++ [s]) = Some s.
Proof.
  intros Hold Hs. induction old as [|x old IH]; cbn [app List.find].
  - unfold has_name. rewrite bool_decide_eq_true_2 by assumption. reflexivity.
  - cbn [existsb] in Hold. apply orb_false_iff in Hold as [Hx Hold].
    rewrite Hx. auto.
Qed.

(** What a successful [addService] has done: the record it returns, and
    the project's document it leaves. *)
Lemma addService_Ok p sc svc w w1 :
  addService p sc w = (Ok svc, w1) ->
  exists cfg0 old cfg1 w0 now,
    loadProjectConfig p w = (Ok cfg0, w0)
    /\ cfg_services cfg0 = Some old
    /\ valid_name (sc_name sc) = true
    /\ existsb (has_name (sc_name sc)) old = false
    /\ svc = mkService (sc_name sc) (servicePath p (sc_directory sc))
               (Some (or_list (sc_setupCommands sc) []))
               (or_string (sc_command sc) (js "npm start"))
               (or_string (sc_description sc) [])
               (Some (p ++ js "-" ++ sc_name sc))
               (Some now) None
    /\ cfg_services cfg1 = Some (old ++ [svc])
    /\ Fs.read (fs w1) (Path.resolve (configPath p))
       = inr (Json (DConfig cfg1)).
Proof.
  unfold addService. intros H.
  destruct (valid_name (sc_name sc)) eqn:V; [|discriminate]. cbn [negb] in H.
  apply bind_Ok in H as (cfg0 & w0 & Hload & H).
  apply bind_Ok in H as (old & w0' & Hsvc & H).
  unfold services_of in Hsvc.
  destruct (cfg_services cfg0) as [l|] eqn:Hl; [|discriminate].
  injection Hsvc as <- <-.
  destruct (existsb (has_name (sc_name sc)) l) eqn:Hex; [discriminate|].
  apply bind_Ok in H as (present & w2 & Hex2 & H).
  apply bind_Ok in H as ([] & w3 & Hmk & H).
  apply bind_Ok in H as (now & w4 & Hnow & H).
  apply bind_Ok in H as (cfg1 & w5 & Hsave & H).
  apply bind_Ok in H as ([] & w6 & Hlog & H).
  injection H as <- <-.
  apply saveProjectConfig_Ok in Hsave as (Hcfg1 & _ & Hread).
  injection Hlog as <-. cbn [fs].
  exists cfg0, l, cfg1, w0, now.
  repeat split; try assumption; try reflexivity.
  rewrite Hcfg1. reflexivity.
Qed.

(** C7 (as amended). When [addService] has added a service, [getService]
    returns the very record that was stored, and its directory is the
    input itself when the input starts with a slash, and otherwise
    [path.join(BASE_PATH, projectName, 'sites', directory)]: the
    normalised path. The latter is the plain concatenation
    [<BASE_PATH>/<projectName>/sites/<directory>] whenever the project name
    is a valid name and the directory is made of plain segments (none
    empty, [.] or [..]) separated by single slashes. *)
Theorem addService_getService_directory p sc svc w w1 :
  addService p sc w = (Ok svc, w1) ->
  getService p (sc_name sc) w1 = (Ok (Some svc), w1)
  /\ (JS.startsWith (sc_directory sc) (js "/") = true ->
      svc_directory svc = sc_directory sc)
  /\ (JS.startsWith (sc_directory sc) (js "/") = false ->
      svc_directory svc
      = Path.join [BASE_PATH; p; PROJECT_STRUCTURE_sites; sc_directory sc])
  /\ (forall segs,
        valid_name p = true -> segs <> [] -> Forall plain_segment segs ->
        sc_directory sc = JS.join (js "/") segs ->
        svc_directory svc
        = BASE_PATH ++ js "/" ++ p ++ js "/sites/" ++ sc_directory sc).
Proof.
  intros H.
  apply addService_Ok in H
    as (cfg0 & old & cfg1 & w0 & now & _ & _ & _ & Hex & -> & Hcfg1 & Hread).
  split.
  { rewrite (getService_declared _ _ _ _ _ Hread Hcfg1).
    rewrite find_app_new by (assumption || reflexivity). reflexivity. }
  cbn [svc_directory]. unfold servicePath.
  change [Path.slash] with (js "/").
  split; [intros ->; reflexivity|].
  split; [intros ->; reflexivity|].
  intros segs V Hne Hplain Hdir.
  assert (JS.startsWith (sc_directory sc) (js "/") = false) as ->.
  { rewrite Hdir. destruct segs as [|s1 rest]; [congruence|].
    apply Forall_cons in Hplain as [(Hn & _ & _ & Hs) _].
    destruct s1 as [|c s1]; [congruence|].
    assert (c <> Path.slash) as Hc by (intros ->; apply Hs; left).
    destruct rest; cbn [JS.join app]; unfold JS.startsWith;
      change (js "/") with [Path.slash]; cbn [JS.prefixb];
      (destruct (N.eqb_spec Path.slash c); [congruence | reflexivity]). }
  rewrite Hdir. change (js "/") with [Path.slash] at 1 2.
  apply join_sites_plain; assumption.
Qed.

(** ** Files that an operation leaves alone *)

Lemma file_at_cons es t q :
  file_at (Dir es) (t :: q)
  = match es !! t with Some ch => file_at ch q | None => None end.
Proof. unfold file_at. cbn [Fs.lookup_path]. destruct (es !! t); reflexivity. Qed.

Lemma file_at_below_file c t q : file_at (File c) (t :: q) = None.
Proof. reflexivity. Qed.

Lemma file_at_empty_dir q : file_at (Dir ∅) q = None.
Proof.
  destruct q as [|t q]; [reflexivity|].
  rewrite file_at_cons, lookup_empty. reflexivity.
Qed.

Lemma read_file_at n p c : Fs.read n p = inr c <-> file_at n p = Some c.
Proof.
  unfold Fs.read, file_at.
  destruct (Fs.lookup_path n p) as [[c'|es]|]; split; intros H;
    try discriminate; injection H as <-; reflexivity.
Qed.

Lemma declared_file_at w p :
  declared w p
  = match file_at (fs w) (Path.resolve (configPath p)) with
    | Some (Json (DConfig c)) => or_list (cfg_services c) []
    | _ => []
    end.
Proof.
  unfold declared, Fs.read, file_at.
  destruct (Fs.lookup_path _ _) as [[c'|es]|]; reflexivity.
Qed.

(** Writing a file changes no other file. *)
Lemma write_file_at_other n p c n' q :
  Fs.write n p c = inr n' -> q <> p -> file_at n' q = file_at n q.
Proof.
  revert n n' q. induction p as [|s p IH]; intros n n' q H Hq; [discriminate|].
  cbn [Fs.write] in H. destruct n as [c0|es]; [discriminate|].
  destruct q as [|t q]; [destruct p, (es !! s) as [[]|]; try discriminate;
                         try (destruct (Fs.write _ _ _); try discriminate);
                         injection H as <-; reflexivity|].
  destruct p as [|s' p].
  - assert (n' = Dir (<[s := File c]> es)) as ->
      by (destruct (es !! s) as [[]|]; try discriminate; congruence).
    rewrite !file_at_cons. destruct (decide (t = s)) as [->|Hne].
    + rewrite lookup_insert_eq.
      destruct q as [|u q]; [congruence|]. rewrite file_at_below_file.
      destruct (es !! s) as [[c1|es1]|]; try discriminate; reflexivity.
    + rewrite lookup_insert_ne by congruence. reflexivity.
  - destruct (es !! s) as [child|] eqn:E; [|discriminate].
    destruct (Fs.write child (s' :: p) c) as [e|child'] eqn:W; [discriminate|].
    injection H as <-. rewrite !file_at_cons.
    destruct (decide (t = s)) as [->|Hne].
    + rewrite lookup_insert_eq, E. apply (IH _ _ _ W). congruence.
    + rewrite lookup_insert_ne by congruence. reflexivity.
Qed.

(** Making directories changes no file. *)
Lemma mkdir_p_file_at n p n' q :
  Fs.mkdir_p n p = inr n' -> file_at n' q = file_at n q.
Proof.
  revert n n' q. induction p as [|s p IH]; intros n n' q H.
  - cbn [Fs.mkdir_p] in H. destruct n; [discriminate|]. congruence.
  - cbn [Fs.mkdir_p] in H. destruct n as [c0|es]; [discriminate|].
    destruct (Fs.mkdir_p (default (Dir ∅) (es !! s)) p) as [e|child'] eqn:Mk;
      [discriminate|].
    injection H as <-. destruct q as [|t q]; [reflexivity|].
    rewrite !file_at_cons. destruct (decide (t = s)) as [->|Hne].
    + rewrite lookup_insert_eq. rewrite (IH _ _ q Mk).
      destruct (es !! s); [reflexivity | apply file_at_empty_dir].
    + rewrite lookup_insert_ne by congruence. reflexivity.
Qed.

Lemma keeps_fs_keeps_files {A} (m : M A) : keeps_fs m -> keeps_files m.
Proof. intros H w q. rewrite H. reflexivity. Qed.

Lemma keeps_files_writes_only {A} t (m : M A) : keeps_files m -> writes_only t m.
Proof. intros H w q _. apply H. Qed.

Lemma keeps_files_bind {A B} (m : M A) (k : A -> M B) :
  keeps_files m -> (forall a, keeps_files (k a)) -> keeps_files (bind m k).
Proof.
  intros Hm Hk w q. unfold bind. specialize (Hm w q).
  destruct (m w) as [[a|e] w1]; cbn [snd] in *; [|assumption].
  rewrite Hk. assumption.
Qed.

Lemma keeps_files_mkdirSync path : keeps_files (mkdirSync path).
Proof.
  intros w q. unfold mkdirSync.
  destruct (Fs.mkdir_p _ _) as [e|n1] eqn:Mk; [reflexivity|].
  cbn [snd fs]. eapply mkdir_p_file_at, Mk.
Qed.

Lemma writes_only_bind {A B} t (m : M A) (k : A -> M B) :
  writes_only t m -> (forall a, writes_only t (k a)) -> writes_only t (bind m k).
Proof.
  intros Hm Hk w q Hq. unfold bind. specialize (Hm w q Hq).
  destruct (m w) as [[a|e] w1]; cbn [snd] in *; [|assumption].
  rewrite Hk by assumption. assumption.
Qed.

Lemma writes_only_try_catch {A} t (m : M A) (h : jsstring -> M A) :
  writes_only t m -> (forall e, writes_only t (h e)) ->
  writes_only t (try_catch m h).
Proof.
  intros Hm Hh w q Hq. unfold try_catch. specialize (Hm w q Hq).
  destruct (m w) as [[a|e] w1]; cbn [snd] in *; [assumption|].
  rewrite Hh by assumption. assumption.
Qed.

Lemma writes_only_writeFileSync path c :
  writes_only (Path.resolve path) (writeFileSync path c).
Proof.
  intros w q Hq. unfold writeFileSync.
  destruct (Fs.write _ _ _) as [e|n1] eqn:W; [reflexivity|].
  cbn [snd fs]. eapply write_file_at_other; eassumption.
Qed.

Lemma writes_only_keeps_fs {A} t (m : M A) : keeps_fs m -> writes_only t m.
Proof. intros H. apply keeps_files_writes_only, keeps_fs_keeps_files, H. Qed.

Lemma keeps_fs_Date_toISOString : keeps_fs Date_toISOString.
Proof. unfold Date_toISOString. keeps_fs_tac. Qed.

Lemma keeps_fs_loadProjectConfig p : keeps_fs (loadProjectConfig p).
Proof.
  intros w. destruct (loadProjectConfig_cases p w) as (c & w' & E & H & _).
  rewrite E. exact H.
Qed.

Lemma keeps_fs_services_of c : keeps_fs (services_of c).
Proof. unfold services_of. destruct (cfg_services c); eauto with keeps. Qed.

#[local] Hint Resolve keeps_fs_Date_toISOString keeps_fs_loadProjectConfig
  keeps_fs_services_of : keeps.

Lemma keeps_fs_getService p n : keeps_fs (getService p n).
Proof. unfold getService. keeps_fs_tac. Qed.

#[local] Hint Resolve keeps_fs_getService : keeps.

Lemma keeps_fs_stopService p n : keeps_fs (stopService p n).
Proof. unfold stopService. keeps_fs_tac. Qed.

#[local] Hint Resolve keeps_fs_stopService : keeps.

Lemma writes_only_saveProjectConfig p cfg :
  writes_only (Path.resolve (configPath p)) (saveProjectConfig p cfg).
Proof.
  unfold saveProjectConfig.
  apply writes_only_try_catch;
    [|intros; apply writes_only_keeps_fs; eauto with keeps].
  apply writes_only_bind; [apply writes_only_keeps_fs; eauto with keeps|].
  intros now. apply writes_only_bind; [apply writes_only_writeFileSync|].
  intros _. apply writes_only_keeps_fs. keeps_fs_tac.
Qed.

Ltac writes_only_tac :=
  repeat first
    [ progress intros
    | solve [apply writes_only_keeps_fs; keeps_fs_tac]
    | apply writes_only_saveProjectConfig
    | solve [apply keeps_files_writes_only, keeps_files_mkdirSync]
    | apply writes_only_bind
    | apply writes_only_try_catch
    | match goal with
      | |- writes_only _ (match ?x with _ => _ end) => destruct x
      | |- writes_only _ (if ?x then _ else _) => destruct x
      end ].

Lemma writes_only_addService p sc :
  writes_only (Path.resolve (configPath p)) (addService p sc).
Proof. unfold addService. writes_only_tac. Qed.

Lemma writes_only_updateService p n u :
  writes_only (Path.resolve (configPath p)) (updateService p n u).
Proof. unfold updateService. writes_only_tac. Qed.

Lemma writes_only_removeService p n :
  writes_only (Path.resolve (configPath p)) (removeService p n).
Proof. unfold removeService. writes_only_tac. Qed.

(** ** Operations that raise change no file *)

Lemma atomic_throw {A} e : atomic (@throw A e).
Proof. intros w e' w' H q. injection H as _ <-. reflexivity. Qed.

Lemma atomic_bind_keep {A B} (m : M A) (k : A -> M B) :
  keeps_files m -> (forall a, atomic (k a)) -> atomic (bind m k).
Proof.
  intros Hm Hk w e w' H q. unfold bind in H. specialize (Hm w q).
  destruct (m w) as [[a|e1] w1]; cbn [snd] in *.
  - rewrite (Hk a w1 e w' H q). exact Hm.
  - injection H as _ <-. exact Hm.
Qed.

Lemma atomic_bind_last {A B} (m : M A) (k : A -> M B) :
  atomic m -> (forall a, total (k a)) -> atomic (bind m k).
Proof.
  intros Hm Hk w e w' H q. unfold bind in H.
  destruct (m w) as [[a|e1] w1] eqn:E.
  - destruct (Hk a w1) as (b & w2 & E2). congruence.
  - injection H as _ <-. eapply Hm, E.
Qed.

Lemma atomic_saveProjectConfig p cfg : atomic (saveProjectConfig p cfg).
Proof.
  intros w e w' H q. apply saveProjectConfig_Throw in H. rewrite H. reflexivity.
Qed.

Lemma total_log_ret {A} (ev : event) (a : A) : total (emit ev ;; ret a).
Proof. intros w. eexists _, _. reflexivity. Qed.

Lemma total_emit ev : total (emit ev).
Proof. intros w. eexists _, _. reflexivity. Qed.

Ltac keeps_files_tac :=
  first [ apply keeps_files_mkdirSync
        | apply keeps_fs_keeps_files; keeps_fs_tac ].

Lemma atomic_addService p sc : atomic (addService p sc).
Proof.
  unfold addService. destruct (negb _); [apply atomic_throw|].
  apply atomic_bind_keep; [keeps_files_tac | intros cfg0].
  apply atomic_bind_keep; [keeps_files_tac | intros old].
  destruct (existsb _ _); [apply atomic_throw|].
  apply atomic_bind_keep; [keeps_files_tac | intros present].
  apply atomic_bind_keep.
  { destruct (negb present); [|keeps_files_tac].
    apply keeps_files_bind; [keeps_files_tac | intros; keeps_files_tac]. }
  intros _. apply atomic_bind_keep; [keeps_files_tac | intros now].
  apply atomic_bind_last; [apply atomic_saveProjectConfig|].
  intros cfg1. apply total_log_ret.
Qed.

Lemma atomic_updateService p n u : atomic (updateService p n u).
Proof.
  unfold updateService.
  apply atomic_bind_keep; [keeps_files_tac | intros cfg0].
  apply atomic_bind_keep; [keeps_files_tac | intros old].
  destruct (findIndex _ _) as [i|]; [|apply atomic_throw].
  destruct (old !! i) as [s|]; [|apply atomic_throw].
  apply atomic_bind_keep; [keeps_files_tac | intros now].
  apply atomic_bind_last; [apply atomic_saveProjectConfig|].
  intros cfg1. apply total_log_ret.
Qed.

Lemma atomic_removeService p n : atomic (removeService p n).
Proof.
  unfold removeService.
  apply atomic_bind_keep; [keeps_files_tac | intros cfg0].
  apply atomic_bind_keep; [keeps_files_tac | intros old].
  destruct (findIndex _ _) as [i|]; [|apply atomic_throw].
  destruct (old !! i) as [s|]; [|apply atomic_throw].
  apply atomic_bind_keep; [keeps_files_tac | intros _].
  apply atomic_bind_keep; [keeps_files_tac | intros _].
  apply atomic_bind_last; [apply atomic_saveProjectConfig|].
  intros cfg1. apply total_emit.
Qed.

(** ** Derived supervisor names *)

(** The services an operation finds when it loads the project's document
    are the declared ones. *)
Lemma loaded_services p w cfg0 w0 old :
  loadProjectConfig p w = (Ok cfg0, w0) ->
  cfg_services cfg0 = Some old ->
  declared w p = old.
Proof.
  intros E Hold.
  destruct (loadProjectConfig_cases p w) as (c & w' & E' & _ & Hc).
  rewrite E in E'. injection E' as <- <-.
  unfold declared.
  destruct (Fs.read (fs w) (Path.resolve (configPath p))) as [e|[s|d]].
  - subst cfg0. injection Hold as <-. reflexivity.
  - subst cfg0. injection Hold as <-. reflexivity.
  - destruct Hc as [-> _]. destruct d; try discriminate.
    cbn [as_config] in Hold. rewrite Hold. reflexivity.
Qed.

Lemma declared_read p w cfg l :
  Fs.read (fs w) (Path.resolve (configPath p)) = inr (Json (DConfig cfg)) ->
  cfg_services cfg = Some l ->
  declared w p = l.
Proof. intros H Hl. unfold declared. rewrite H, Hl. reflexivity. Qed.

Lemma updateService_Ok p n u svc w w1 :
  updateService p n u w = (Ok svc, w1) ->
  exists old i s now,
    declared w p = old
    /\ old !! i = Some s
    /\ svc = apply_updates p u now s
    /\ declared w1 p = <[i := svc]> old.
Proof.
  unfold updateService. intros H.
  apply bind_Ok in H as (cfg0 & w0 & Hload & H).
  apply bind_Ok in H as (old & w0' & Hsvc & H).
  unfold services_of in Hsvc.
  destruct (cfg_services cfg0) as [l|] eqn:Hl; [|discriminate].
  injection Hsvc as <- <-.
  destruct (findIndex (has_name n) l) as [i|]; [|discriminate].
  destruct (l !! i) as [s|] eqn:Hi; [|discriminate].
  apply bind_Ok in H as (now & w2 & Hnow & H).
  apply bind_Ok in H as (cfg1 & w3 & Hsave & H).
  apply bind_Ok in H as ([] & w4 & Hlog & H).
  injection H as <- <-. injection Hlog as <-.
  apply saveProjectConfig_Ok in Hsave as (Hcfg1 & _ & Hread).
  exists l, i, s, now.
  split; [eapply loaded_services; eassumption|].
  split; [exact Hi|]. split; [reflexivity|].
  eapply declared_read; [exact Hread|]. rewrite Hcfg1. reflexivity.
Qed.

Lemma removeService_Ok p n w w1 :
  removeService p n w = (Ok tt, w1) ->
  exists i, declared w1 p = delete i (declared w p).
Proof.
  unfold removeService. intros H.
  apply bind_Ok in H as (cfg0 & w0 & Hload & H).
  apply bind_Ok in H as (old & w0' & Hsvc & H).
  unfold services_of in Hsvc.
  destruct (cfg_services cfg0) as [l|] eqn:Hl; [|discriminate].
  injection Hsvc as <- <-.
  destruct (findIndex (has_name n) l) as [i|]; [|discriminate].
  destruct (l !! i) as [s|] eqn:Hi; [|discriminate].
  apply bind_Ok in H as ([] & w2 & Hstop & H).
  apply bind_Ok in H as ([] & w3 & Hdel & H).
  apply bind_Ok in H as (cfg1 & w4 & Hsave & H).
  injection H as <-.
  apply saveProjectConfig_Ok in Hsave as (Hcfg1 & _ & Hread).
  exists i. rewrite (loaded_services _ _ _ _ _ Hload Hl).
  eapply declared_read; [exact Hread|]. rewrite Hcfg1. reflexivity.
Qed.

Lemma addService_declared p sc svc w w1 :
  addService p sc w = (Ok svc, w1) ->
  declared w1 p = declared w p ++ [svc]
  /\ named_after p svc
  /\ svc_name svc ∉ List.map svc_name (declared w p).
Proof.
  intros H. apply addService_Ok in H
    as (cfg0 & old & cfg1 & w0 & now & Hload & Hold & _ & Hex & -> & Hcfg1 & Hread).
  rewrite (loaded_services _ _ _ _ _ Hload Hold).
  split; [eapply declared_read; eassumption|].
  split; [reflexivity|].
  cbn [svc_name]. intros Hin.
  apply list_elem_of_fmap in Hin as (s & Hs & Hin).
  apply list_elem_of_In in Hin.
  assert (existsb (has_name (sc_name sc)) old = true) as E.
  { apply existsb_exists. exists s. split; [exact Hin|].
    unfold has_name. apply bool_decide_eq_true_2. congruence. }
  congruence.
Qed.

Lemma identity_apply_updates p u now s :
  identity (apply_updates p u now s) = identity s.
Proof. reflexivity. Qed.

Lemma configPath_inj p q :
  valid_name p = true -> valid_name q = true -> q <> p ->
  Path.resolve (configPath q) <> Path.resolve (configPath p).
Proof.
  intros Vp Vq Hne. rewrite !resolve_configPath by assumption.
  intros E. injection E as E. congruence.
Qed.

(** An operation on a project leaves the services of every other project
    as they are. *)
Lemma perform_other_project op w q :
  valid_name (operation_project op) = true -> valid_name q = true ->
  q <> operation_project op ->
  declared (perform op w) q = declared w q.
Proof.
  intros Vp Vq Hne. rewrite !declared_file_at.
  pose proof (configPath_inj _ _ Vp Vq Hne) as Hpath.
  destruct op as [p sc|p n u|p n]; cbn [perform operation_project] in *.
  - rewrite (writes_only_addService p sc w _ Hpath). reflexivity.
  - rewrite (writes_only_updateService p n u w _ Hpath). reflexivity.
  - rewrite (writes_only_removeService p n w _ Hpath). reflexivity.
Qed.

Lemma declared_files_eq w w' p :
  (forall q, file_at (fs w') q = file_at (fs w) q) ->
  declared w' p = declared w p.
Proof. intros H. rewrite !declared_file_at, H. reflexivity. Qed.

(** What an operation does to the services of its own project: it appends
    a service carrying the derived name, or keeps every service's name and
    supervisor name, or removes one service. *)
Lemma perform_own_project op w :
  let p := operation_project op in
  (exists svc,
      declared (perform op w) p = declared w p ++ [svc]
      /\ named_after p svc
      /\ svc_name svc ∉ List.map svc_name (declared w p))
  \/ List.map identity (declared (perform op w) p)
     = List.map identity (declared w p)
  \/ exists i, declared (perform op w) p = delete i (declared w p).
Proof.
  destruct op as [p sc|p n u|p n]; cbn [perform operation_project].
  - destruct (addService p sc w) as [[svc|e] w1] eqn:Run; cbn [snd].
    + left. exists svc. eapply addService_declared, Run.
    + right. left. f_equal. apply declared_files_eq.
      eapply atomic_addService, Run.
  - right. left.
    destruct (updateService p n u w) as [[svc|e] w1] eqn:Run; cbn [snd].
    + apply updateService_Ok in Run as (old & i & s & now & Hold & Hi & -> & ->).
      rewrite Hold.
      change (List.map identity (<[i := apply_updates p u now s]> old))
        with (identity <$> <[i := apply_updates p u now s]> old).
      rewrite list_fmap_insert, identity_apply_updates.
      apply list_insert_id. rewrite list_lookup_fmap, Hi. reflexivity.
    + f_equal. apply declared_files_eq. eapply atomic_updateService, Run.
  - destruct (removeService p n w) as [[[]|e] w1] eqn:Run; cbn [snd].
    + right. right. eapply removeService_Ok, Run.
    + right. left. f_equal. apply declared_files_eq.
      eapply atomic_removeService, Run.
Qed.

Lemma named_after_identity p s s' :
  identity s = identity s' -> named_after p s -> named_after p s'.
Proof.
  unfold identity, named_after. intros E. injection E as E1 E2.
  rewrite E1, E2. trivial.
Qed.

Lemma Forall_named_identity p (l l' : list Service) :
  List.map identity l' = List.map identity l ->
  Forall (named_after p) l -> Forall (named_after p) l'.
Proof.
  revert l'. induction l as [|s l IH]; intros [|s' l'] E H;
    try discriminate; [constructor|].
  cbn [List.map] in E. injection E as E1 E2 El.
  apply Forall_cons in H as [Hs Hl].
  constructor; [|auto].
  unfold named_after in *. rewrite E1, E2. exact Hs.
Qed.

Lemma names_of_identity (l l' : list Service) :
  List.map identity l' = List.map identity l ->
  List.map svc_name l' = List.map svc_name l.
Proof.
  intros E.
  assert (forall k : list Service,
             List.map svc_name k = List.map fst (List.map identity k)) as F
    by (intros k; rewrite List.map_map; reflexivity).
  rewrite !F, E. reflexivity.
Qed.

Lemma perform_invariant op w :
  valid_name (operation_project op) = true ->
  pm2_invariant w -> pm2_invariant (perform op w).
Proof.
  intros Vp Inv q Vq.
  destruct (decide (q = operation_project op)) as [->|Hne];
    [|rewrite perform_other_project by assumption; auto].
  destruct (Inv _ Vp) as [Hnamed Hnd].
  destruct (perform_own_project op w) as [(svc & -> & Hsvc & Hfresh)|[E|[i ->]]].
  - split.
    + apply Forall_app. split; [assumption | repeat constructor; assumption].
    + change (List.map svc_name (declared w (operation_project op) ++ [svc]))
        with (svc_name <$> (declared w (operation_project op) ++ [svc])).
      rewrite fmap_app. apply NoDup_app. split; [exact Hnd|].
      split; [|apply NoDup_singleton].
      intros x Hx Hx'. apply list_elem_of_singleton in Hx'. subst x.
      exact (Hfresh Hx).
  - split; [eapply Forall_named_identity; eassumption|].
    rewrite (names_of_identity _ _ E). exact Hnd.
  - split; [apply Forall_delete; assumption|].
    change (List.map svc_name (delete i (declared w (operation_project op))))
      with (svc_name <$> delete i (declared w (operation_project op))).
    rewrite list_fmap_delete.
    eapply sublist_NoDup; [exact Hnd | apply sublist_delete].
Qed.

(** A state without any project document satisfies the invariant. *)
Lemma pm2_invariant_no_document w :
  (forall p, declared w p = []) -> pm2_invariant w.
Proof.
  intros H p _. rewrite H. split; constructor.
Qed.

Lemma declared_empty_tree tr t p : declared (mkWorld (Dir ∅) tr t) p = [].
Proof.
  rewrite declared_file_at. cbn [fs]. rewrite file_at_empty_dir. reflexivity.
Qed.

Lemma NoDup_names_inj (l : list Service) (s1 s2 : Service) :
  NoDup (List.map svc_name l) -> s1 ∈ l -> s2 ∈ l ->
  svc_name s1 = svc_name s2 -> s1 = s2.
Proof.
  intros Hnd H1 H2 E.
  apply list_elem_of_lookup in H1 as [i Hi].
  apply list_elem_of_lookup in H2 as [j Hj].
  assert (i = j) as ->.
  { eapply NoDup_lookup; [exact Hnd| |].
    - change (List.map svc_name l) with (svc_name <$> l).
      rewrite list_lookup_fmap, Hi. reflexivity.
    - change (List.map svc_name l) with (svc_name <$> l).
      rewrite list_lookup_fmap, Hj, E. reflexivity. }
  congruence.
Qed.

(** C9 (as amended). A service stored through [addService] carries the
    supervisor name [<projectName>-<serviceName>]. No registry operation
    changes the name or the supervisor name of a stored service:
    [updateService] leaves the (name, supervisor name) pairs of every
    project exactly as they are. Hence, in every state reached by registry
    operations on validly named projects from a state in which it holds,
    every declared service carries its derived name and service names are
    unique within their project; there, the supervisor name is determined
    by the (project, service) pair and, within one project, identifies
    exactly one service. (Across projects two pairs can share a supervisor
    name.) *)
Theorem pm2Name_derived_and_stable :
  (forall p sc svc w w1,
      addService p sc w = (Ok svc, w1) ->
      svc_name svc = sc_name sc
      /\ svc_pm2Name svc = Some (p ++ js "-" ++ sc_name sc)
      /\ svc ∈ declared w1 p)
  /\ (forall p n u w q,
        valid_name p = true -> valid_name q = true ->
        List.map identity (declared (snd (updateService p n u w)) q)
        = List.map identity (declared w q))
  /\ (forall ops w,
        Forall (fun op => valid_name (operation_project op) = true) ops ->
        pm2_invariant w -> pm2_invariant (perform_all ops w))
  /\ (forall w p s1 s2,
        pm2_invariant w -> valid_name p = true ->
        s1 ∈ declared w p -> s2 ∈ declared w p ->
        (svc_pm2Name s1 = Some (p ++ js "-" ++ svc_name s1))
        /\ (svc_pm2Name s1 = svc_pm2Name s2 -> s1 = s2)).
Proof.
  split; [|split; [|split]].
  - intros p sc svc w w1 H.
    pose proof (addService_declared _ _ _ _ _ H) as (Hd & Hn & _).
    apply addService_Ok in H
      as (_ & _ & _ & _ & now & _ & _ & _ & _ & -> & _ & _).
    split; [reflexivity|]. split; [reflexivity|].
    rewrite Hd. apply elem_of_app. right. left.
  - intros p n u w q Vp Vq.
    destruct (decide (q = p)) as [->|Hne].
    + destruct (updateService p n u w) as [[svc'|e] w1] eqn:Run; cbn [snd].
      * apply updateService_Ok in Run
          as (old & i & s & now & Hold & Hi & -> & ->).
        rewrite Hold.
        change (List.map identity (<[i := apply_updates p u now s]> old))
          with (identity <$> <[i := apply_updates p u now s]> old).
        rewrite list_fmap_insert, identity_apply_updates.
        apply list_insert_id. rewrite list_lookup_fmap, Hi. reflexivity.
      * f_equal. apply declared_files_eq. eapply atomic_updateService, Run.
    + f_equal.
      apply (perform_other_project (UpdateService p n u) w q); assumption.
  - intros ops. induction ops as [|op ops IH]; intros w Hops Inv; [exact Inv|].
    apply Forall_cons in Hops as [Hop Hops]. cbn [perform_all fold_left].
    apply IH; [exact Hops|]. apply perform_invariant; assumption.
  - intros w p s1 s2 Inv Vp H1 H2.
    destruct (Inv p Vp) as [Hnamed Hnd].
    rewrite Forall_forall in Hnamed.
    pose proof (Hnamed _ H1) as N1. pose proof (Hnamed _ H2) as N2.
    split; [exact N1|].
    unfold named_after in N1, N2. rewrite N1, N2. intros E.
    injection E as E. apply app_inv_head in E.
    change (js "-" ++ svc_name s1) with (45 :: svc_name s1) in E.
    change (js "-" ++ svc_name s2) with (45 :: svc_name s2) in E.
    injection E as E.
    eapply NoDup_names_inj; eassumption.
Qed.

(** ** Deleting a project *)

Lemma total_try_catch {A} (m : M A) (h : jsstring -> M A) :
  (forall e, total (h e)) -> total (try_catch m h).
Proof.
  intros Hh w. unfold try_catch.
  destruct (m w) as [[a|e] w1]; [eauto | apply Hh].
Qed.

Lemma execCommand_succeeds command w :
  always_succeeds command ->
  exists out w',
    execCommand command None w = (Ok out, w') /\ fs w' = fs w.
Proof.
  intros H. unfold execCommand, child_process_exec, logger_debug, emit, bind,
    try_catch, ret, throw. cbn [fs trace ticks].
  match goal with |- context [os ?w1 command None] =>
    destruct (H w1) as [out ->]
  end.
  eexists _, _. split; reflexivity.
Qed.

Lemma execCommand_fails command w :
  always_fails command ->
  exists e w',
    execCommand command None w = (Throw e, w') /\ fs w' = fs w.
Proof.
  intros H. unfold execCommand, child_process_exec, logger_debug, emit, bind,
    try_catch, ret, throw. cbn [fs trace ticks].
  match goal with |- context [os ?w1 command None] =>
    destruct (H w1) as [m ->]
  end.
  eexists _, _. split; reflexivity.
Qed.

Lemma execSyncSafe_succeeds command w :
  always_succeeds command ->
  exists out w', execSyncSafe command w = (Ok out, w').
Proof.
  intros H. unfold execSyncSafe, child_process_exec, logger_debug, emit, bind,
    try_catch, ret, throw. cbn [fs trace ticks].
  match goal with |- context [os ?w1 command None] =>
    destruct (H w1) as [out ->]
  end.
  eexists _, _. reflexivity.
Qed.

Lemma userExists_total username w :
  exists b w', userExists username w = (Ok b, w').
Proof.
  unfold userExists, try_catch.
  destruct (bind _ _ w) as [[b|e] w1]; unfold ret; eauto.
Qed.

(** The removal of the account decides: when [userdel] succeeds, the
    deletion of the user returns normally, whatever [pkill] did. *)
Lemma deleteSftpUser_returns projectName w :
  always_succeeds (js "userdel " ++ SFTP_USER_PREFIX ++ projectName) ->
  exists w', deleteSftpUser projectName w = (Ok tt, w') /\ fs w' = fs w.
Proof.
  intros Hdel.
  assert (exists w', deleteSftpUser projectName w = (Ok tt, w')) as [w' E].
  { unfold deleteSftpUser.
    destruct (userExists_total (SFTP_USER_PREFIX ++ projectName) w)
      as (b & w1 & E).
    rewrite (bind_run _ _ _ _ _ E).
    destruct b; cbn [negb]; [|unfold logger_warn, emit; eauto].
    unfold bind at 1, logger_info at 1, emit at 1.
    match goal with |- context [bind (try_catch ?m ?h) _ ?w2] =>
      destruct (total_try_catch m h
                  (fun e => ltac:(intros w'; eexists _, _; reflexivity)) w2)
        as ([] & w3 & E3)
    end.
    rewrite (bind_run _ _ _ _ _ E3).
    destruct (execCommand_succeeds _ w3 Hdel) as (out & w4 & E4 & _).
    rewrite (bind_run _ _ _ _ _ E4).
    unfold logger_success, emit. eauto. }
  exists w'. split; [exact E|].
  pose proof (keeps_fs_deleteSftpUser projectName w) as K.
  rewrite E in K. exact K.
Qed.

(** When the user exists and [userdel] fails, the deletion of the user
    raises. *)
Lemma deleteSftpUser_raises projectName w :
  always_succeeds (js "id " ++ SFTP_USER_PREFIX ++ projectName) ->
  always_fails (js "userdel " ++ SFTP_USER_PREFIX ++ projectName) ->
  exists e w', deleteSftpUser projectName w = (Throw e, w') /\ fs w' = fs w.
Proof.
  intros Hid Hdel.
  assert (exists e w', deleteSftpUser projectName w = (Throw e, w'))
    as (e & w' & E).
  { unfold deleteSftpUser.
    assert (exists w1, userExists (SFTP_USER_PREFIX ++ projectName) w
                       = (Ok true, w1)) as (w1 & E).
    { unfold userExists, try_catch, bind at 1.
      destruct (execSyncSafe_succeeds _ w Hid) as (out & w1 & ->).
      unfold ret. eauto. }
    rewrite (bind_run _ _ _ _ _ E). cbn [negb].
    unfold bind at 1, logger_info at 1, emit at 1.
    match goal with |- context [bind (try_catch ?m ?h) _ ?w2] =>
      destruct (total_try_catch m h
                  (fun e => ltac:(intros w'; eexists _, _; reflexivity)) w2)
        as ([] & w3 & E3)
    end.
    rewrite (bind_run _ _ _ _ _ E3).
    destruct (execCommand_fails _ w3 Hdel) as (e & w4 & E4 & _).
    rewrite (bind_throw _ _ _ _ _ E4). eauto. }
  exists e, w'. split; [exact E|].
  pose proof (keeps_fs_deleteSftpUser projectName w) as K.
  rewrite E in K. exact K.
Qed.

(** An existing file can be overwritten. *)
Lemma write_existing n s p c c' :
  Fs.read n (s :: p) = inr c -> exists n', Fs.write n (s :: p) c' = inr n'.
Proof.
  revert n s. induction p as [|s' p IH]; intros n s H.
  - unfold Fs.read in H. cbn [Fs.lookup_path] in H. cbn [Fs.write].
    destruct n as [c0|es]; [discriminate|].
    destruct (es !! s) as [[c1|es1]|]; try discriminate; eauto.
  - unfold Fs.read in H. cbn [Fs.lookup_path] in H.
    destruct n as [c0|es]; [discriminate|].
    destruct (es !! s) as [child|] eqn:E; [|discriminate].
    destruct (IH child s') as [child' W].
    { unfold Fs.read. cbn [Fs.lookup_path]. exact H. }
    change (Fs.write (Dir es) (s :: s' :: p) c')
      with (match es !! s with
            | None => inl ENOENT
            | Some child =>
                match Fs.write child (s' :: p) c' with
                | inr child' => inr (Dir (<[s := child']> es))
                | inl e => inl e
                end
            end).
    rewrite E, W. eauto.
Qed.

Lemma saveProjects_existing projects c w :
  Fs.read (fs w) (Path.resolve PROJECTS_CONFIG_FILE) = inr c ->
  exists ws,
    saveProjects projects w = (Ok tt, ws)
    /\ Fs.read (fs ws) (Path.resolve PROJECTS_CONFIG_FILE)
       = inr (Json (DRegistry (mkRegistry (Some projects)
                                          (Some (ISO (clock (ticks w)))))))
    /\ trace ws
       = trace w
         ++ [FsWrite PROJECTS_CONFIG_FILE
               (Json (DRegistry (mkRegistry (Some projects)
                                            (Some (ISO (clock (ticks w)))))));
             Log Debug (js "Configuration des projets sauvegardée")].
Proof.
  intros H. unfold saveProjects.
  unfold try_catch. rewrite (bind_run _ _ _ _ _ (initConfigDir_present _ _ H)).
  unfold Date_toISOString, Date_now, bind, ret, writeFileSync, logger_debug,
    emit. cbn [fs trace ticks].
  set (doc := Json (DRegistry _)).
  assert (exists n', Fs.write (fs w) (Path.resolve PROJECTS_CONFIG_FILE) doc
                     = inr n') as [n' W].
  { revert H. rewrite registry_file_path.
    change (Path.resolve TOOL_CONFIG_PATH ++ [js "projects.json"])
      with [js "etc"; js "nodejs-project-manager"; js "projects.json"].
    apply write_existing. }
  rewrite W. eexists. split; [reflexivity|]. cbn [fs trace].
  split; [eapply read_write, W|]. rewrite <- app_assoc. reflexivity.
Qed.

(** ** Backup, validation and restart *)

Lemma decimal_fuel_digits fuel n acc :
  Forall (fun c => c <> Path.slash) acc ->
  Forall (fun c => c <> Path.slash) (JS.decimal_fuel fuel n acc).
Proof.
  revert n acc. induction fuel as [|k IH]; intros n acc H; [exact H|].
  cbn [JS.decimal_fuel].
  assert (Forall (fun c => c <> Path.slash) ((48 + n mod 10) :: acc)) as H'.
  { constructor; [|exact H]. cbv beta. unfold Path.slash. intros E.
    pose proof (N.le_add_r 48 (n mod 10)) as Hle. rewrite E in Hle.
    exact (Hle eq_refl). }
  destruct (n / 10 =? 0); [exact H' | apply IH, H'].
Qed.

Lemma decimal_no_slash n : Path.slash ∉ JS.decimal n.
Proof.
  intros Hin. pose proof (decimal_fuel_digits (S (N.to_nat (N.log2 n))) n []
                            (Forall_nil_2 _)) as H.
  rewrite Forall_forall in H. exact (H _ Hin eq_refl).
Qed.

(** The backup lies next to the configuration file, under its own name. *)
Lemma resolve_backupPath now :
  Path.resolve (backupPath now)
  = [js "etc"; js "ssh"; js "sshd_config.backup." ++ JS.decimal now].
Proof.
  pose proof (decimal_no_slash now) as Hd.
  assert (plain_segment (js "sshd_config.backup." ++ JS.decimal now)) as Hp.
  { generalize dependent (JS.decimal now). intros d Hd.
    repeat split; try discriminate.
    intros Hin. apply elem_of_app in Hin as [Hin|Hin]; [|exact (Hd Hin)].
    revert Hin.
    refine (bool_decide_unpack (Path.slash ∉ js "sshd_config.backup.") _).
    vm_compute. exact I. }
  change (backupPath now)
    with (Path.slash
          :: JS.join [Path.slash]
               [js "etc"; js "ssh";
                js "sshd_config.backup." ++ JS.decimal now]).
  apply resolve_absolute; [discriminate|].
  repeat (apply Forall_cons_2 || apply Forall_nil_2); try exact Hp;
    apply plain_segmentb_plain; vm_compute; reflexivity.
Qed.





(** * Further properties of the tool *)

(** ** What a run does to the system *)

Lemma ran_refl w : ran w w [].
Proof. split; [reflexivity|]. exists []. rewrite app_nil_r. split; reflexivity. Qed.

Lemma ran_trans w w1 w2 a b : ran w w1 a -> ran w1 w2 b -> ran w w2 (a ++ b).
Proof.
  intros [F1 (e1 & T1 & E1)] [F2 (e2 & T2 & E2)]. split; [congruence|].
  exists (e1 ++ e2). rewrite T2, T1, app_assoc, effects_app, E1, E2.
  split; reflexivity.
Qed.

Lemma ran_events w evs :
  ran w (mkWorld (fs w) (trace w ++ evs) (ticks w)) (effects evs).
Proof. split; [reflexivity|]. exists evs. split; reflexivity. Qed.

Lemma ran_emit_log w l m : ran w (snd (emit (Log l m) w)) [].
Proof. apply (ran_events w [Log l m]). Qed.

Lemma ran_acted w w' es : ran w w' es -> acted w w' es.
Proof. intros [_ H]. exact H. Qed.

(** *** Commands and their answers *)

Lemma answers_from_app w seen a b :
  answers_from w seen (a ++ b)
  = answers_from w seen a ++ answers_from w (seen ++ a) b.
Proof.
  revert seen. induction a as [|e a IH]; intros seen.
  - cbn [app answers_from]. rewrite app_nil_r. reflexivity.
  - cbn [app answers_from]. rewrite IH, <- !app_assoc. reflexivity.
Qed.

(** The answers do not depend on where the run is taken up again. *)
Lemma answers_from_shift w w1 a seen b :
  fs w1 = fs w -> ticks w1 = ticks w -> trace w1 = trace w ++ a ->
  answers_from w (a ++ seen) b = answers_from w1 seen b.
Proof.
  intros F K T. revert seen. induction b as [|e b IH]; intros seen;
    [reflexivity|].
  cbn [answers_from]. rewrite <- IH, <- app_assoc. f_equal.
  destruct e; try reflexivity.
  rewrite F, K, T, <- app_assoc. reflexivity.
Qed.

Lemma went_refl w : went w w [].
Proof.
  split; [reflexivity|]. split; [reflexivity|].
  exists []. rewrite app_nil_r. repeat split.
Qed.

Lemma went_trans w w1 w2 a b :
  went w w1 a -> went w1 w2 b -> went w w2 (a ++ b).
Proof.
  intros (F1 & K1 & e1 & T1 & E1 & A1) (F2 & K2 & e2 & T2 & E2 & A2).
  split; [congruence|]. split; [congruence|].
  exists (e1 ++ e2). split; [rewrite T2, T1, app_assoc; reflexivity|].
  split; [rewrite effects_app, List.map_app, E1, E2; reflexivity|].
  unfold answers in *. rewrite answers_from_app, A1. f_equal.
  rewrite <- A2. rewrite <- (app_nil_r ([] ++ e1)).
  apply answers_from_shift; assumption.
Qed.

(** Log lines are no step. *)
Lemma went_log w l m : went w (snd (emit (Log l m) w)) [].
Proof.
  split; [reflexivity|]. split; [reflexivity|].
  exists [Log l m]. repeat split.
Qed.

Lemma went_issued w w' log : went w w' log -> issued w w' log.
Proof. intros (_ & _ & H). exact H. Qed.

Lemma issued_acted w w' log : issued w w' log -> acted w w' (List.map fst log).
Proof. intros (evs & T & E & _). exists evs. split; assumption. Qed.

(** What [execCommand] does, by the outcome of the command it issues. *)
Lemma execCommand_run command cwd w :
  execCommand command cwd w
  = match os (issuing w command) command cwd with
    | Exit0 out =>
        (Ok (content_trim out),
         mkWorld (fs w)
           (trace w ++ [Log Debug (js "Executing async: " ++ command);
                        Exec command cwd])
           (ticks w))
    | Failed m =>
        (Throw m,
         mkWorld (fs w)
           (trace w ++ [Log Debug (js "Executing async: " ++ command);
                        Exec command cwd;
                        Log Debug (js "Async command failed: "
                                   ++ command ++ js " - " ++ m)])
           (ticks w))
    end.
Proof.
  unfold execCommand, child_process_exec, logger_debug, emit,
    bind, try_catch, ret, throw, issuing.
  cbn [fs trace ticks].
  destruct (os _ _ _); cbn [fs trace ticks]; flatten_trace; reflexivity.
Qed.

(** What [execSyncSafe] does, by the outcome of the command it issues. *)
Lemma execSyncSafe_run command w :
  execSyncSafe command w
  = match os (issuing_sync w command) command None with
    | Exit0 out =>
        (Ok (content_trim out),
         mkWorld (fs w)
           (trace w ++ [Log Debug (js "Executing: " ++ command);
                        Exec command None])
           (ticks w))
    | Failed m =>
        (Throw m,
         mkWorld (fs w)
           (trace w ++ [Log Debug (js "Executing: " ++ command);
                        Exec command None;
                        Log Debug (js "Command failed: "
                                   ++ command ++ js " - " ++ m)])
           (ticks w))
    end.
Proof.
  unfold execSyncSafe, child_process_exec, logger_debug, emit,
    bind, try_catch, ret, throw, issuing_sync.
  cbn [fs trace ticks].
  destruct (os _ _ _); cbn [fs trace ticks]; flatten_trace; reflexivity.
Qed.

Lemma execCommand_ran command cwd w :
  ran w (snd (execCommand command cwd w)) [Exec command cwd].
Proof.
  rewrite execCommand_run.
  destruct (os _ _ _); cbn [snd];
    match goal with |- ran _ (mkWorld _ (_ ++ ?evs) _) _ =>
      apply (ran_events w evs)
    end.
Qed.

Lemma execSyncSafe_ran command w :
  ran w (snd (execSyncSafe command w)) [shell command].
Proof.
  rewrite execSyncSafe_run.
  destruct (os _ _ _); cbn [snd];
    match goal with |- ran _ (mkWorld _ (_ ++ ?evs) _) _ =>
      apply (ran_events w evs)
    end.
Qed.

Lemma execCommand_went command cwd w :
  went w (snd (execCommand command cwd w))
    [(Exec command cwd, failure (os (issuing w command) command cwd))].
Proof.
  rewrite execCommand_run. unfold issuing.
  destruct (os _ _ _) eqn:O; cbn [snd];
    (split; [reflexivity|]); (split; [reflexivity|]);
    eexists; (split; [reflexivity|]); (split; [reflexivity|]);
    unfold answers; cbn [answers_from app]; rewrite O; reflexivity.
Qed.

Lemma execSyncSafe_went command w :
  went w (snd (execSyncSafe command w))
    [(shell command, failure (os (issuing_sync w command) command None))].
Proof.
  rewrite execSyncSafe_run. unfold issuing_sync.
  destruct (os _ _ _) eqn:O; cbn [snd];
    (split; [reflexivity|]); (split; [reflexivity|]);
    eexists; (split; [reflexivity|]); (split; [reflexivity|]);
    unfold answers; cbn [answers_from app]; rewrite O; reflexivity.
Qed.

(** A probe: a command run for its exit status. *)
Lemma probe_went command w :
  exists w',
    try_catch (execSyncSafe command ;; ret true) (fun _ => ret false) w
    = (Ok (exits_normally_sync w command), w')
    /\ went w w'
         [(shell command, failure (os (issuing_sync w command) command None))].
Proof.
  pose proof (execSyncSafe_went command w) as R.
  unfold try_catch, bind, exits_normally_sync.
  rewrite execSyncSafe_run in *.
  destruct (os _ _ _); cbn [snd] in R; unfold ret; eauto.
Qed.

(** A command whose failure is swallowed. *)
Lemma swallowed_went command w :
  exists w',
    try_catch (execCommand command None ;; ret tt) (fun _ => ret tt) w
    = (Ok tt, w')
    /\ went w w'
         [(shell command, failure (os (issuing w command) command None))].
Proof.
  pose proof (execCommand_went command None w) as R.
  unfold try_catch, bind. rewrite execCommand_run in *.
  destruct (os _ _ _); cbn [snd] in R; unfold ret; eauto.
Qed.

(** A probe: a command run for its exit status. *)
Lemma probe_run command w :
  exists w',
    try_catch (execSyncSafe command ;; ret true) (fun _ => ret false) w
    = (Ok (exits_normally_sync w command), w')
    /\ ran w w' [shell command].
Proof.
  pose proof (execSyncSafe_ran command w) as R.
  unfold try_catch, bind, exits_normally_sync.
  rewrite execSyncSafe_run in *.
  destruct (os _ _ _); cbn [snd] in R; unfold ret; eauto.
Qed.

Lemma userExists_run username w :
  exists w',
    userExists username w
    = (Ok (exits_normally_sync w (js "id " ++ username)), w')
    /\ ran w w' [shell (js "id " ++ username)].
Proof. apply probe_run. Qed.

Lemma groupExists_run groupname w :
  exists w',
    groupExists groupname w
    = (Ok (exits_normally_sync w (js "getent group " ++ groupname)), w')
    /\ ran w w' [shell (js "getent group " ++ groupname)].
Proof. apply probe_run. Qed.

(** ** Steps carried out until one fails *)

Lemma fail_fast_ret {A} (a : A) : fail_fast (ret a) [].
Proof.
  intros w. exists []. split; [reflexivity|]. split; [apply ran_refl|].
  reflexivity.
Qed.

Lemma fail_fast_throw {A} e : fail_fast (@throw A e) [].
Proof.
  intros w. exists []. split; [reflexivity|]. split; [apply ran_refl|].
  reflexivity.
Qed.

Lemma fail_fast_log l m : fail_fast (emit (Log l m)) [].
Proof.
  intros w. exists []. split; [reflexivity|]. split; [apply ran_emit_log|].
  reflexivity.
Qed.

Lemma stops_at_failure_bind {A B} (m : M A) (k : A -> M B) w a b :
  stops_at_failure m w a ->
  (forall x w1, m w = (Ok x, w1) -> stops_at_failure (k x) w1 b) ->
  stops_at_failure (bind m k) w (a ++ b).
Proof.
  intros (pa & Pa & Ra & Oa) Hk.
  unfold stops_at_failure, bind.
  destruct (m w) as [[x|e] w1]; cbn [fst snd] in *.
  - destruct (Hk x w1 eq_refl) as (pb & Pb & Rb & Ob).
    exists (a ++ pb). rewrite (Oa x eq_refl) in Ra. split; [|split].
    + apply prefix_app, Pb.
    + eapply ran_trans; eassumption.
    + intros y Hy. rewrite (Ob y Hy). reflexivity.
  - exists pa. split; [|split].
    + apply prefix_app_r, Pa.
    + exact Ra.
    + discriminate.
Qed.

Lemma fail_fast_bind {A B} (m : M A) (k : A -> M B) a b :
  fail_fast m a -> (forall x, fail_fast (k x) b) -> fail_fast (bind m k) (a ++ b).
Proof.
  intros Hm Hk w. apply stops_at_failure_bind; [apply Hm|].
  intros x w1 _. apply Hk.
Qed.

(** A handler that only raises again changes nothing to the steps. *)
Lemma fail_fast_rethrow {A} (m : M A) (f : jsstring -> jsstring) es :
  fail_fast m es -> fail_fast (try_catch m (fun e => throw (f e))) es.
Proof.
  intros Hm w. destruct (Hm w) as (pre & P & R & O).
  unfold stops_at_failure, try_catch. destruct (m w) as [[x|e] w1]; cbn [fst snd] in *.
  - exists pre. split; [exact P|]. split; [exact R|]. exact O.
  - exists pre. split; [exact P|]. split; [exact R|]. discriminate.
Qed.

Lemma fail_fast_execCommand command cwd :
  fail_fast (execCommand command cwd) [Exec command cwd].
Proof.
  intros w. exists [Exec command cwd]. split; [reflexivity|].
  split; [apply execCommand_ran | reflexivity].
Qed.

Lemma fail_fast_pm2Command args :
  fail_fast (pm2Command args) [shell (js "pm2 " ++ args)].
Proof.
  unfold pm2Command.
  apply (fail_fast_rethrow _ (fun m => js "Erreur PM2: " ++ m)).
  apply fail_fast_execCommand.
Qed.

Lemma fail_fast_logger_info m : fail_fast (logger_info m) [].
Proof. apply fail_fast_log. Qed.
Lemma fail_fast_logger_success m : fail_fast (logger_success m) [].
Proof. apply fail_fast_log. Qed.
Lemma fail_fast_logger_debug m : fail_fast (logger_debug m) [].
Proof. apply fail_fast_log. Qed.

(** The steps of a sequence, put together. *)
Ltac fail_fast_leaf :=
  first
    [ apply fail_fast_execCommand
    | apply fail_fast_pm2Command
    | apply fail_fast_logger_info
    | apply fail_fast_logger_success
    | apply fail_fast_logger_debug
    | apply fail_fast_ret
    | apply fail_fast_throw ].

Ltac fail_fast_tac :=
  repeat first
    [ solve [fail_fast_leaf]
    | match goal with
      | |- fail_fast (bind _ _) ?es =>
          first
            [ apply (fail_fast_bind _ _ [] es); [solve [fail_fast_leaf] | intros ?]
            | apply (fail_fast_bind _ _ [_] _); [solve [fail_fast_leaf] | intros ?] ]
      end ].

(** *** Steps and their answers *)

Lemma passed_app a b : passed (a ++ b) = passed a ++ passed b.
Proof. apply List.map_app. Qed.

(** Steps that come after the commands of [pre], whose answers did not
    stop the run. *)
Lemma until_failure_bind_after {A B} (m : M A) (k : A -> M B) w pre a b :
  (exists log,
     went w (snd (m w)) (pre ++ log) /\ stopped_at_failure (fst (m w)) a log) ->
  (forall x w1, m w = (Ok x, w1) -> until_failure (k x) w1 b) ->
  exists log,
    went w (snd (bind m k w)) (pre ++ log)
    /\ stopped_at_failure (fst (bind m k w)) (a ++ b) log.
Proof.
  intros (la & Wa & Sa) Hk. unfold bind.
  destruct (m w) as [[x|e] w1]; cbn [fst snd stopped_at_failure] in *.
  - destruct (Hk x w1 eq_refl) as (lb & Wb & Sb). subst la.
    exists (passed a ++ lb). split.
    + rewrite app_assoc. eapply went_trans; eassumption.
    + destruct (fst (k x w1)); cbn [stopped_at_failure] in *.
      * subst lb. symmetry. apply passed_app.
      * destruct Sb as (done & s & rest & -> & ->).
        exists (a ++ done), s, rest. rewrite passed_app, <- !app_assoc.
        split; reflexivity.
  - exists la. split; [exact Wa|].
    destruct Sa as (done & s & rest & -> & ->).
    exists done, s, (rest ++ b). rewrite <- app_assoc. split; reflexivity.
Qed.

Lemma until_failure_bind {A B} (m : M A) (k : A -> M B) w a b :
  until_failure m w a ->
  (forall x w1, m w = (Ok x, w1) -> until_failure (k x) w1 b) ->
  until_failure (bind m k) w (a ++ b).
Proof. apply (until_failure_bind_after m k w []). Qed.

Lemma until_failure_execCommand command cwd w :
  until_failure (execCommand command cwd) w [Exec command cwd].
Proof.
  eexists. split; [apply execCommand_went|].
  rewrite execCommand_run. destruct (os _ _ _); cbn [fst failure].
  - reflexivity.
  - exists [], (Exec command cwd), []. split; reflexivity.
Qed.

Lemma until_failure_log l m w : until_failure (emit (Log l m)) w [].
Proof. exists []. split; [apply went_log | reflexivity]. Qed.

Lemma until_failure_ret {A} (a : A) w : until_failure (ret a) w [].
Proof. exists []. split; [apply went_refl | reflexivity]. Qed.

(** The steps of a sequence of commands and log lines, put together. *)
Ltac until_failure_leaf :=
  first
    [ apply until_failure_execCommand
    | apply until_failure_log
    | apply until_failure_ret ].

Ltac until_failure_tac :=
  unfold logger_info, logger_success, logger_debug, logger_warn;
  repeat first
    [ solve [until_failure_leaf]
    | match goal with
      | |- until_failure (bind _ _) _ ?es =>
          first
            [ apply (until_failure_bind _ _ _ [] es);
                [solve [until_failure_leaf] | intros ? ? _]
            | apply (until_failure_bind _ _ _ [_] _);
                [solve [until_failure_leaf] | intros ? ? _] ]
      end ].

(** ** [shell.js]: probes and fallbacks *)

(** What the probes of the shell module do. *)
Lemma probes_run :
  (forall username w, exists w',
      userExists username w
      = (Ok (exits_normally_sync w (js "id " ++ username)), w')
      /\ ran w w' [shell (js "id " ++ username)])
  /\ (forall groupname w, exists w',
        groupExists groupname w
        = (Ok (exits_normally_sync w (js "getent group " ++ groupname)), w')
        /\ ran w w' [shell (js "getent group " ++ groupname)])
  /\ (forall command w, exists w',
        commandExists command w
        = (Ok (exits_normally_sync w (js "which " ++ command)), w')
        /\ ran w w' [shell (js "which " ++ command)])
  /\ (forall w, exists w',
        testSSHConfig w = (Ok (exits_normally w (js "sshd -t")), w')
        /\ ran w w' [shell (js "sshd -t")])
  /\ (forall w, exists b w',
        isRoot w = (Ok b, w')
        /\ ran w w' [shell (js "id -u")]
        /\ (b = true <->
            exists out,
              os (issuing_sync w (js "id -u")) (js "id -u") None = Exit0 out
              /\ utf8 (content_trim out) = js "0"))
  /\ (forall projectName w, exists info w',
        getSftpUserInfo projectName w = (Ok info, w')
        /\ ran w w'
             (shell (js "id " ++ SFTP_USER_PREFIX ++ projectName)
              :: if exits_normally_sync w
                      (js "id " ++ SFTP_USER_PREFIX ++ projectName)
                 then [shell (js "id " ++ SFTP_USER_PREFIX ++ projectName)]
                 else [])
        /\ (exits_normally_sync w (js "id " ++ SFTP_USER_PREFIX ++ projectName)
            = false -> info = None)
        /\ (forall i, info = Some i ->
            info_username i = SFTP_USER_PREFIX ++ projectName
            /\ info_exists i = true)).
Proof.
  split; [intros; apply userExists_run|].
  split; [intros; apply groupExists_run|].
  split; [intros; apply probe_run|].
  split; [|split].
  - intros w. pose proof (execCommand_ran (js "sshd -t") None w) as R.
    unfold testSSHConfig, try_catch, bind, exits_normally.
    rewrite execCommand_run in *.
    destruct (os _ _ _) as [out|m]; cbn [snd] in R.
    + unfold ret. eauto.
    + unfold logger_error, emit, ret. cbn [fs trace ticks].
      eexists. split; [reflexivity|].
      rewrite <- (app_nil_r [shell (js "sshd -t")]).
      eapply ran_trans; [exact R|].
      match goal with |- ran ?w1 _ _ =>
        apply (ran_events w1 [Log Error (js "Configuration SSH invalide: " ++ m)])
      end.
  - intros w. pose proof (execSyncSafe_ran (js "id -u") w) as R.
    unfold isRoot, try_catch, bind.
    rewrite execSyncSafe_run in *.
    destruct (os _ _ _) as [out|m]; cbn [snd] in R; unfold ret.
    + eexists _, _. split; [reflexivity|]. split; [exact R|].
      split.
      * intros H. exists out. split; [reflexivity|].
        exact (bool_decide_eq_true_1 _ H).
      * intros (out' & E & H). injection E as <-.
        exact (bool_decide_eq_true_2 _ H).
    + eexists _, _. split; [reflexivity|]. split; [exact R|].
      split; [discriminate|]. intros (out' & E & _). discriminate.
  - intros projectName w. unfold getSftpUserInfo.
    destruct (userExists_run (SFTP_USER_PREFIX ++ projectName) w)
      as (w1 & E1 & R1).
    rewrite (bind_run _ _ _ _ _ E1).
    destruct (exits_normally_sync w _); cbn [negb].
    + pose proof (execSyncSafe_ran
                    (js "id " ++ SFTP_USER_PREFIX ++ projectName) w1)
        as R2.
      unfold try_catch, bind. rewrite execSyncSafe_run in *.
      destruct (os _ _ _) as [out|m]; cbn [snd] in R2; unfold ret.
      * eexists _, _. split; [reflexivity|].
        split; [exact (ran_trans _ _ _ _ _ R1 R2)|].
        split; [discriminate|]. intros i [= <-]. split; reflexivity.
      * eexists _, _. split; [reflexivity|].
        split; [exact (ran_trans _ _ _ _ _ R1 R2)|].
        split; [discriminate|]. discriminate.
    + unfold ret. eexists _, _. split; [reflexivity|]. split; [exact R1|].
      split; [reflexivity|]. discriminate.
Qed.

(** X1. The probes of the shell module never raise: each issues its one
    command and answers by the command's exit status ([isRoot], also by
    whether the output is the text 0). The SFTP account lookup issues the
    lookup of the account, and the same command once more, for its
    output, when the account is known; it answers [null] when the account
    is unknown. *)
Theorem probes_answer_without_raising :
  (forall username w, exists w',
      userExists username w
      = (Ok (exits_normally_sync w (js "id " ++ username)), w')
      /\ acted w w' [shell (js "id " ++ username)])
  /\ (forall groupname w, exists w',
        groupExists groupname w
        = (Ok (exits_normally_sync w (js "getent group " ++ groupname)), w')
        /\ acted w w' [shell (js "getent group " ++ groupname)])
  /\ (forall command w, exists w',
        commandExists command w
        = (Ok (exits_normally_sync w (js "which " ++ command)), w')
        /\ acted w w' [shell (js "which " ++ command)])
  /\ (forall w, exists w',
        testSSHConfig w = (Ok (exits_normally w (js "sshd -t")), w')
        /\ acted w w' [shell (js "sshd -t")])
  /\ (forall w, exists b w',
        isRoot w = (Ok b, w')
        /\ acted w w' [shell (js "id -u")]
        /\ (b = true <->
            exists out,
              os (issuing_sync w (js "id -u")) (js "id -u") None = Exit0 out
              /\ utf8 (content_trim out) = js "0"))
  /\ (forall projectName w, exists info w',
        getSftpUserInfo projectName w = (Ok info, w')
        /\ acted w w'
             (shell (js "id " ++ SFTP_USER_PREFIX ++ projectName)
              :: if exits_normally_sync w
                      (js "id " ++ SFTP_USER_PREFIX ++ projectName)
                 then [shell (js "id " ++ SFTP_USER_PREFIX ++ projectName)]
                 else [])
        /\ (exits_normally_sync w (js "id " ++ SFTP_USER_PREFIX ++ projectName)
            = false -> info = None)
        /\ (forall i, info = Some i ->
            info_username i = SFTP_USER_PREFIX ++ projectName
            /\ info_exists i = true)).
Proof.
  destruct probes_run as (H1 & H2 & H3 & H4 & H5 & H6).
  repeat split.
  - intros u w. destruct (H1 u w) as (w' & E & R). eauto using ran_acted.
  - intros g w. destruct (H2 g w) as (w' & E & R). eauto using ran_acted.
  - intros c w. destruct (H3 c w) as (w' & E & R). eauto using ran_acted.
  - intros w. destruct (H4 w) as (w' & E & R). eauto using ran_acted.
  - intros w. destruct (H5 w) as (b & w' & E & R & Hb).
    exists b, w'. split; [exact E|]. split; [exact (ran_acted _ _ _ R)|].
    exact Hb.
  - intros p w. destruct (H6 p w) as (info & w' & E & R & Hn & Hi).
    exists info, w'. split; [exact E|]. split; [exact (ran_acted _ _ _ R)|].
    split; [exact Hn | exact Hi].
Qed.

(** X2. [restartSSH] restarts the unit [sshd] and, only when that fails, the
    unit [ssh]; it raises only when both fail, with the message of the
    second failure. *)
Theorem restartSSH_falls_back w :
  let sshd := js "systemctl restart sshd" in
  let ssh := js "systemctl restart ssh" in
  let r := fst (restartSSH w) in
  let w' := snd (restartSSH w) in
  let w1 := snd (execCommand sshd None w) in
  if exits_normally w sshd then r = Ok tt /\ ran w w' [shell sshd]
  else
    ran w w' [shell sshd; shell ssh]
    /\ match os (issuing w1 ssh) ssh None with
       | Exit0 _ => r = Ok tt
       | Failed m => r = Throw (js "Impossible de redémarrer SSH: " ++ m)
       end.
Proof.
  cbv zeta.
  pose proof (execCommand_ran (js "systemctl restart sshd") None w) as R1.
  destruct (restartSSH w) as [r w'] eqn:Run. cbn [fst snd].
  unfold restartSSH, exits_normally in *.
  unfold try_catch at 1 in Run. unfold bind at 1 in Run.
  rewrite execCommand_run in *.
  destruct (os (issuing w _) _ _) as [out|m]; cbn [fst snd] in *.
  - unfold logger_success, emit in Run. cbn [fst snd fs trace ticks] in Run.
    injection Run as <- <-. split; [reflexivity|].
    rewrite <- (app_nil_r [shell _]).
    eapply ran_trans; [exact R1|].
    match goal with |- ran ?w1 (mkWorld _ (_ ++ ?evs) _) _ =>
      apply (ran_events w1 evs)
    end.
  - match type of Run with try_catch _ _ ?w1 = _ =>
      pose proof (execCommand_ran (js "systemctl restart ssh") None w1) as R2;
      set (wf := w1) in *
    end.
    unfold try_catch, bind in Run. rewrite execCommand_run in *.
    destruct (os (issuing wf _) _ _) as [out2|m2]; cbn [fst snd] in *.
    + unfold logger_success, emit in Run. cbn [fst snd fs trace ticks] in Run.
      injection Run as <- <-.
      split; [|reflexivity].
      change [shell (js "systemctl restart sshd"); shell (js "systemctl restart ssh")]
        with ([shell (js "systemctl restart sshd")]
              ++ [shell (js "systemctl restart ssh")] ++ []).
      eapply ran_trans; [exact R1|].
      eapply ran_trans; [exact R2|].
      match goal with |- ran ?w1 (mkWorld _ (_ ++ ?evs) _) _ =>
        apply (ran_events w1 evs)
      end.
    + unfold throw in Run. injection Run as <- <-. split; [|reflexivity].
      change [shell (js "systemctl restart sshd"); shell (js "systemctl restart ssh")]
        with ([shell (js "systemctl restart sshd")]
              ++ [shell (js "systemctl restart ssh")]).
      eapply ran_trans; [exact R1|exact R2].
Qed.


(** ** [sftp.js]: accounts *)

(** The group is looked up, and created only when the lookup fails. *)
Lemma ensureSftpGroup_went w :
  exists group log,
    went w (snd (ensureSftpGroup w))
      ([(shell (js "getent group " ++ SFTP_GROUP), group)] ++ log)
    /\ stopped_at_failure (fst (ensureSftpGroup w))
         (match group with
          | None => []
          | Some _ => [shell (js "groupadd " ++ SFTP_GROUP)]
          end) log.
Proof.
  unfold ensureSftpGroup.
  destruct (probe_went (js "getent group " ++ SFTP_GROUP) w) as (w1 & E & R).
  fold (groupExists SFTP_GROUP) in E.
  rewrite (bind_run _ _ _ _ _ E). revert E R. unfold exits_normally_sync.
  destruct (os _ _ _) as [out|m]; cbn [negb failure]; intros E R.
  - exists None, []. split; [|reflexivity].
    eapply went_trans; [exact R | apply went_log].
  - exists (Some m).
    match goal with |- context [snd (?run w1)] =>
      assert (until_failure run w1 [shell (js "groupadd " ++ SFTP_GROUP)])
        as (log & W & S) by until_failure_tac
    end.
    exists log. split; [eapply went_trans; eassumption | exact S].
Qed.

(** X4. [createSftpUser] refuses an account that exists, having issued only
    the lookup. Otherwise it looks the group up, creates it when that
    lookup fails, and goes through the six account commands, in this
    order, each command being issued only when the one before it exited
    normally: it raises the error of the first command that fails, and
    nothing that was done is undone. It returns, with the account's name,
    only once all of them exited normally. *)
Theorem createSftpUser_fail_fast projectName password w :
  let username := SFTP_USER_PREFIX ++ projectName in
  let r := fst (createSftpUser projectName password w) in
  let w' := snd (createSftpUser projectName password w) in
  let lookup := shell (js "id " ++ username) in
  let getent := shell (js "getent group " ++ SFTP_GROUP) in
  let groupadd := shell (js "groupadd " ++ SFTP_GROUP) in
  if exits_normally_sync w (js "id " ++ username)
  then r = Throw (js "L'utilisateur " ++ username ++ js " existe déjà")
       /\ issued w w' [(lookup, None)]
  else exists unknown group log,
         issued w w' ((lookup, Some unknown) :: (getent, group) :: log)
         /\ stopped_at_failure r
              (match group with None => [] | Some _ => [groupadd] end
               ++ createSftpUser_commands projectName password)
              log
         /\ (forall a, r = Ok a -> a = username).
Proof.
  cbv zeta.
  destruct (probe_went (js "id " ++ SFTP_USER_PREFIX ++ projectName) w)
    as (w1 & E & R).
  fold (userExists (SFTP_USER_PREFIX ++ projectName)) in E.
  destruct (createSftpUser projectName password w) as [r w'] eqn:Run.
  cbn [fst snd]. unfold createSftpUser in Run.
  rewrite (bind_run _ _ _ _ _ E) in Run. revert E R Run.
  unfold exits_normally_sync.
  destruct (os _ _ _) as [out|unknown]; cbn [failure]; intros E R Run.
  - unfold throw in Run. injection Run as <- <-.
    split; [reflexivity | exact (went_issued _ _ _ R)].
  - destruct (ensureSftpGroup_went w1) as (group & lg & Wg & Sg).
    match type of Run with bind ensureSftpGroup ?k w1 = _ =>
      destruct (until_failure_bind_after ensureSftpGroup k w1 _ _
                  (createSftpUser_commands projectName password)
                  (ex_intro _ lg (conj Wg Sg))) as (log & W & S)
    end.
    { intros [] w2 _. unfold createSftpUser_commands. until_failure_tac. }
    rewrite Run in W, S. cbn [fst snd] in W, S.
    exists unknown, group, log. split.
    + apply went_issued. exact (went_trans _ _ _ _ _ R W).
    + split; [exact S|]. intros a ->.
      repeat (apply bind_Ok in Run as (? & ? & _ & Run)).
      injection Run as <- _. reflexivity.
Qed.

(** What [deleteSftpUser] does, by the answers to its commands. *)
Lemma deleteSftpUser_went projectName w :
  let username := SFTP_USER_PREFIX ++ projectName in
  let r := fst (deleteSftpUser projectName w) in
  let w' := snd (deleteSftpUser projectName w) in
  if exits_normally_sync w (js "id " ++ username)
  then exists kill del,
         went w w' [(shell (js "id " ++ username), None);
                    (shell (js "pkill -u " ++ username), kill);
                    (shell (js "userdel " ++ username), del)]
         /\ r = match del with None => Ok tt | Some m => Throw m end
  else r = Ok tt
       /\ (exists unknown,
             went w w' [(shell (js "id " ++ username), Some unknown)])
       /\ exists evs,
            trace w' = trace w ++ evs
            ++ [Log Warn (js "L'utilisateur " ++ username ++ js " n'existe pas")].
Proof.
  cbv zeta.
  destruct (probe_went (js "id " ++ SFTP_USER_PREFIX ++ projectName) w)
    as (w1 & E & R).
  fold (userExists (SFTP_USER_PREFIX ++ projectName)) in E.
  destruct (deleteSftpUser projectName w) as [r w'] eqn:Run. cbn [fst snd].
  unfold deleteSftpUser in Run. rewrite (bind_run _ _ _ _ _ E) in Run.
  revert E R Run. unfold exits_normally_sync.
  destruct (os _ _ _) as [out|unknown]; cbn [failure negb]; intros E R Run.
  - unfold bind at 1, logger_info at 1, emit at 1 in Run.
    pose proof (went_log w1 Info
                  (js "Suppression de l'utilisateur "
                   ++ (SFTP_USER_PREFIX ++ projectName) ++ js "...")) as Rl.
    unfold emit in Rl. cbn [snd] in Rl.
    match type of Run with bind (try_catch _ _) _ ?wl = _ =>
      destruct (swallowed_went
                  (js "pkill -u " ++ SFTP_USER_PREFIX ++ projectName) wl)
        as (w2 & E2 & R2)
    end.
    rewrite (bind_run _ _ _ _ _ E2) in Run.
    pose proof (execCommand_went
                  (js "userdel " ++ SFTP_USER_PREFIX ++ projectName) None w2)
      as R3.
    unfold bind in Run. rewrite execCommand_run in *.
    destruct (os _ _ _) as [out3|m3]; cbn [snd failure] in R3.
    + unfold logger_success, emit in Run. injection Run as <- <-.
      match type of R3 with went _ ?w3 _ =>
        pose proof (went_log w3 Success
                      (js "Utilisateur " ++ (SFTP_USER_PREFIX ++ projectName)
                       ++ js " supprimé")) as R4
      end.
      unfold emit in R4. cbn [snd] in R4.
      eexists _, None. split; [|reflexivity].
      exact (went_trans _ _ _ _ _ R
               (went_trans _ _ _ _ _ Rl
                  (went_trans _ _ _ _ _ R2
                     (went_trans _ _ _ _ _ R3 R4)))).
    + injection Run as <- <-. eexists _, (Some m3). split; [|reflexivity].
      exact (went_trans _ _ _ _ _ R
               (went_trans _ _ _ _ _ Rl (went_trans _ _ _ _ _ R2 R3))).
  - unfold logger_warn, emit in Run. injection Run as <- <-.
    split; [reflexivity|]. split.
    + exists unknown.
      exact (went_trans _ _ _ _ [] R
               (went_log w1 Warn
                  (js "L'utilisateur " ++ (SFTP_USER_PREFIX ++ projectName)
                   ++ js " n'existe pas"))).
    + destruct R as (_ & _ & evs & T & _). exists evs. cbn [trace].
      rewrite T, app_assoc. reflexivity.
Qed.

(** X5. [deleteSftpUser] returns at once, with a warning, when the account is
    unknown: neither [pkill] nor [userdel] is issued. For a known account
    [pkill] is issued and then, whether [pkill] failed or not, [userdel];
    the call returns when [userdel] exits normally and raises its error
    when it fails. *)
Theorem deleteSftpUser_steps projectName w :
  let username := SFTP_USER_PREFIX ++ projectName in
  let r := fst (deleteSftpUser projectName w) in
  let w' := snd (deleteSftpUser projectName w) in
  if exits_normally_sync w (js "id " ++ username)
  then exists kill del,
         issued w w' [(shell (js "id " ++ username), None);
                      (shell (js "pkill -u " ++ username), kill);
                      (shell (js "userdel " ++ username), del)]
         /\ r = match del with None => Ok tt | Some m => Throw m end
  else r = Ok tt
       /\ (exists unknown,
             issued w w' [(shell (js "id " ++ username), Some unknown)])
       /\ exists evs,
            trace w' = trace w ++ evs
            ++ [Log Warn (js "L'utilisateur " ++ username ++ js " n'existe pas")].
Proof.
  cbv zeta. pose proof (deleteSftpUser_went projectName w) as H.
  cbv zeta in H. destruct (exits_normally_sync w _).
  - destruct H as (kill & del & W & Hr). exists kill, del.
    split; [exact (went_issued _ _ _ W) | exact Hr].
  - destruct H as (Hr & (unknown & W) & Hl).
    split; [exact Hr|]. split; [|exact Hl].
    exists unknown. exact (went_issued _ _ _ W).
Qed.

(** X6. [changeSftpPassword] changes nothing for an unknown account: it
    raises after the lookup, and [chpasswd] is not issued. For a known
    account the one [chpasswd] command is issued, and the call returns or
    raises as that command exits. *)
Theorem changeSftpPassword_steps projectName newPassword w :
  let username := SFTP_USER_PREFIX ++ projectName in
  let chpasswd :=
    js "echo " ++ [34] ++ username ++ js ":" ++ newPassword ++ [34]
    ++ js " | chpasswd" in
  let r := fst (changeSftpPassword projectName newPassword w) in
  let w' := snd (changeSftpPassword projectName newPassword w) in
  let w1 := snd (userExists username w) in
  if exits_normally_sync w (js "id " ++ username)
  then ran w w' [shell (js "id " ++ username); shell chpasswd]
       /\ match os (issuing w1 chpasswd) chpasswd None with
          | Exit0 _ => r = Ok tt
          | Failed m => r = Throw m
          end
  else r = Throw (js "L'utilisateur " ++ username ++ js " n'existe pas")
       /\ ran w w' [shell (js "id " ++ username)].
Proof.
  cbv zeta.
  destruct (userExists_run (SFTP_USER_PREFIX ++ projectName) w)
    as (w1 & E & R).
  destruct (changeSftpPassword projectName newPassword w) as [r w'] eqn:Run.
  cbn [fst snd].
  unfold changeSftpPassword in Run. rewrite (bind_run _ _ _ _ _ E) in Run.
  rewrite E. cbn [snd].
  destruct (exits_normally_sync w _); cbn [negb] in Run.
  - match type of Run with bind (execCommand ?c None) _ _ = _ =>
      pose proof (execCommand_ran c None w1) as R2
    end.
    unfold bind in Run. rewrite execCommand_run in *.
    destruct (os _ _ _) as [out|m]; cbn [snd] in R2.
    + unfold logger_success, emit in Run. injection Run as <- <-.
      split; [|reflexivity].
      match type of R2 with ran _ ?w2 _ =>
        epose proof (ran_events w2 [Log Success _]) as R3
      end.
      exact (ran_trans _ _ _ _ _ R (ran_trans _ _ _ _ _ R2 R3)).
    + injection Run as <- <-. split; [|reflexivity].
      exact (ran_trans _ _ _ _ _ R R2).
  - unfold throw in Run. injection Run as <- <-.
    split; [reflexivity | exact R].
Qed.

(** ** [sftp.js]: the fenced block over several runs *)

Lemma indexOf_from_present m s i :
  (0 <= i)%Z -> JS.occurrences m s <> 0%nat ->
  JS.indexOf_from m s i <> (-1)%Z.
Proof.
  revert i. induction s as [|c s IH]; intros i Hi H; simpl in *.
  - destruct (JS.prefixb m []); [lia | contradiction].
  - destruct (JS.prefixb m (c :: s)); [lia|].
    apply IH; [lia | exact H].
Qed.

(** [includes] finds a text exactly when it occurs. *)
Lemma includes_occurrences s m :
  JS.includes s m = negb (JS.occurrences m s =? 0)%nat.
Proof.
  unfold JS.includes, JS.indexOf.
  destruct (JS.occurrences m s) as [|k] eqn:O; simpl.
  - rewrite indexOf_from_absent by exact O. reflexivity.
  - pose proof (indexOf_from_present m s 0 (Z.le_refl 0)) as P.
    rewrite O in P. specialize (P (Nat.neq_succ_0 k)).
    destruct (Z.eqb_spec (JS.indexOf_from m s 0) (-1)); [contradiction|].
    reflexivity.
Qed.

Lemma readSSHConfig_read c w :
  Fs.read (fs w) (Path.resolve SSH_CONFIG_PATH) = inr c ->
  readSSHConfig w = (Ok (utf8 c), w).
Proof.
  intros H. unfold readSSHConfig, try_catch, bind, readFileSync.
  rewrite H. reflexivity.
Qed.

(** X7. After [updateSSHConfig] has succeeded with at least one project,
    [isSftpConfigured] answers [true], whatever the file held before.
    After it has succeeded with no project, the answer is [true] only if
    a start marker has survived the removal of the old block. *)
Theorem isSftpConfigured_after_update projects w w' :
  updateSSHConfig projects w = (Ok tt, w') ->
  exists old,
    Fs.read (fs w) (Path.resolve SSH_CONFIG_PATH) = inr old
    /\ isSftpConfigured w'
       = (Ok match projects with
             | _ :: _ => true
             | [] => JS.includes (excise_fence (utf8 old)) SFTP_CONFIG_MARKER
             end, w').
Proof.
  intros H. destruct (updateSSHConfig_Ok _ _ _ H) as (old & Hold & Hnew).
  exists old. split; [exact Hold|].
  unfold isSftpConfigured.
  rewrite (bind_run _ _ _ _ _ (readSSHConfig_read _ _ Hnew)).
  unfold ret. f_equal. f_equal. cbn [utf8].
  rewrite includes_occurrences. unfold regenerate.
  destruct projects as [|p ps].
  - unfold generateSftpConfig. rewrite app_nil_r.
    rewrite occurrences_trimEnd by (vm_compute; reflexivity).
    rewrite includes_occurrences. reflexivity.
  - destruct (generateSftpConfig_fence p ps) as (body & -> & Hs & _).
    rewrite (occurrences_app_sep 10 SFTP_CONFIG_MARKER _ body);
      [|discriminate|exact newline_not_in_marker].
    rewrite Hs, Nat.add_1_r. reflexivity.
Qed.

(** X8. On a daemon configuration that had no marker, a second successful
    [updateSSHConfig] leaves the file exactly as the first one left it:
    the block is replaced in place, and blank lines do not pile up. *)
Theorem updateSSHConfig_idempotent p ps q qs old w w1 w2 :
  Fs.read (fs w) (Path.resolve SSH_CONFIG_PATH) = inr old ->
  JS.occurrences SFTP_CONFIG_MARKER (utf8 old) = 0%nat ->
  JS.occurrences SFTP_CONFIG_END_MARKER (utf8 old) = 0%nat ->
  updateSSHConfig (p :: ps) w = (Ok tt, w1) ->
  updateSSHConfig (q :: qs) w1 = (Ok tt, w2) ->
  Fs.read (fs w2) (Path.resolve SSH_CONFIG_PATH)
  = Fs.read (fs w1) (Path.resolve SSH_CONFIG_PATH)
  /\ Fs.read (fs w1) (Path.resolve SSH_CONFIG_PATH)
     = inr (Text (JS.trimEnd (utf8 old) ++ generateSftpConfig (p :: ps))).
Proof.
  intros Hold Hs He H1 H2.
  destruct (updateSSHConfig_Ok _ _ _ H1) as (c1 & R1 & N1).
  destruct (updateSSHConfig_Ok _ _ _ H2) as (c2 & R2 & N2).
  rewrite Hold in R1. injection R1 as <-.
  rewrite N1 in R2. injection R2 as <-.
  rewrite N2, N1. cbn [utf8].
  rewrite (regenerate_stable _ p ps q qs Hs He).
  split; [reflexivity|].
  unfold regenerate. rewrite (excise_fence_clean _ Hs). reflexivity.
Qed.

(** X9. Adding the block and then removing it, with an empty project list,
    gives back the daemon configuration the tool started from, up to the
    white space at its end. *)
Theorem updateSSHConfig_removal_restores p ps old w w1 w2 :
  Fs.read (fs w) (Path.resolve SSH_CONFIG_PATH) = inr old ->
  JS.occurrences SFTP_CONFIG_MARKER (utf8 old) = 0%nat ->
  JS.occurrences SFTP_CONFIG_END_MARKER (utf8 old) = 0%nat ->
  updateSSHConfig (p :: ps) w = (Ok tt, w1) ->
  updateSSHConfig [] w1 = (Ok tt, w2) ->
  Fs.read (fs w2) (Path.resolve SSH_CONFIG_PATH)
  = inr (Text (JS.trimEnd (utf8 old))).
Proof.
  intros Hold Hs He H1 H2.
  destruct (updateSSHConfig_Ok _ _ _ H1) as (c1 & R1 & N1).
  destruct (updateSSHConfig_Ok _ _ _ H2) as (c2 & R2 & N2).
  rewrite Hold in R1. injection R1 as <-.
  rewrite N1 in R2. injection R2 as <-.
  rewrite N2. cbn [utf8].
  rewrite (regenerate_removed _ p ps Hs He). reflexivity.
Qed.

(** ** [projects.js]: the registry and the project documents *)

Lemma writeFileSync_Ok path c w w' :
  writeFileSync path c w = (Ok tt, w') ->
  Fs.write (fs w) (Path.resolve path) c = inr (fs w')
  /\ Fs.read (fs w') (Path.resolve path) = inr c.
Proof.
  unfold writeFileSync.
  destruct (Fs.write _ _ _) as [e|n] eqn:W; [discriminate|].
  intros [= <-]. cbn [fs]. split; [reflexivity|]. eapply read_write, W.
Qed.

Lemma saveProjects_Ok projects w w1 :
  saveProjects projects w = (Ok tt, w1) ->
  exists now,
    Fs.read (fs w1) (Path.resolve PROJECTS_CONFIG_FILE)
    = inr (Json (DRegistry (mkRegistry (Some projects) (Some now)))).
Proof.
  unfold saveProjects, try_catch.
  destruct (bind _ _ w) as [[[]|e] w2] eqn:Run; [|discriminate].
  intros [= <-].
  apply bind_Ok in Run as (_ & wa & _ & Run).
  apply bind_Ok in Run as (now & wb & _ & Run).
  apply bind_Ok in Run as ([] & wc & Hw & Run).
  unfold logger_debug, emit in Run. injection Run as <-. cbn [fs].
  exists now. apply (writeFileSync_Ok _ _ _ _ Hw).
Qed.

(** X10. What [saveProjects] has written, [loadProjects] reads back: the same
    projects, in the same order. *)
Theorem saveProjects_loadProjects projects w w1 :
  saveProjects projects w = (Ok tt, w1) ->
  loadProjects w1 = (Ok projects, w1).
Proof.
  intros H. destruct (saveProjects_Ok _ _ _ H) as (now & R).
  rewrite (loadProjects_document _ _ R). reflexivity.
Qed.

(** X11. The configuration [saveProjectConfig] has written, stamped with the
    time of the save, is the one [loadProjectConfig] returns afterwards. *)
Theorem saveProjectConfig_loadProjectConfig p cfg cfg' w w1 :
  saveProjectConfig p cfg w = (Ok cfg', w1) ->
  loadProjectConfig p w1 = (Ok cfg', w1)
  /\ cfg_updatedAt cfg' = Some (ISO (clock (ticks w)))
  /\ cfg_services cfg' = cfg_services cfg
  /\ cfg_name cfg' = cfg_name cfg.
Proof.
  intros H. destruct (saveProjectConfig_Ok _ _ _ _ _ H) as (-> & _ & R).
  split; [exact (loadProjectConfig_document _ _ _ R)|].
  split; [reflexivity|]. split; reflexivity.
Qed.

Lemma initConfigDir_settled w n :
  Fs.lookup_path (fs w) (Path.resolve PROJECTS_CONFIG_FILE) = Some n ->
  initConfigDir w = (Ok tt, w).
Proof.
  intros H. unfold initConfigDir.
  assert (exists d, Fs.lookup_path (fs w) (Path.resolve TOOL_CONFIG_PATH)
                    = Some d) as [d Hd].
  { rewrite registry_file_path, lookup_path_app in H.
    destruct (Fs.lookup_path (fs w) (Path.resolve TOOL_CONFIG_PATH));
      [eauto | discriminate]. }
  rewrite (bind_run _ _ _ _ _ (existsSync_lookup _ _ _ Hd)). cbn [negb].
  unfold bind at 1, ret at 1.
  rewrite (bind_run _ _ _ _ _ (existsSync_lookup _ _ _ H)). reflexivity.
Qed.

Lemma initConfigDir_Ok w w1 :
  initConfigDir w = (Ok tt, w1) ->
  is_Some (Fs.lookup_path (fs w1) (Path.resolve PROJECTS_CONFIG_FILE))
  /\ (Fs.lookup_path (fs w) (Path.resolve PROJECTS_CONFIG_FILE) = None ->
      Fs.read (fs w1) (Path.resolve PROJECTS_CONFIG_FILE)
      = inr (Json (DRegistry (mkRegistry (Some []) None)))).
Proof.
  unfold initConfigDir.
  destruct (existsSync_cases TOOL_CONFIG_PATH w) as [[E _]|[E Habs]];
    rewrite (bind_run _ _ _ _ _ E); cbn [negb].
  - unfold bind at 1, ret at 1.
    destruct (existsSync_cases PROJECTS_CONFIG_FILE w) as [[E2 [n Hn]]|[E2 Habs2]];
      rewrite (bind_run _ _ _ _ _ E2); cbn [negb].
    + intros [= <-]. split; [eauto|]. rewrite Hn. discriminate.
    + intros Run. apply bind_Ok in Run as ([] & wc & Hw & Run).
      unfold logger_debug, emit in Run. injection Run as <-. cbn [fs].
      destruct (writeFileSync_Ok _ _ _ _ Hw) as [_ R].
      split; [|intros _; exact R].
      unfold Fs.read in R.
      destruct (Fs.lookup_path (fs wc) _); [eauto | discriminate].
  - intros Run. apply bind_Ok in Run as ([] & wa & Hmk & Run).
    apply bind_Ok in Hmk as ([] & wm & Hmk & Hlog).
    unfold logger_debug, emit in Hlog. injection Hlog as <-.
    unfold mkdirSync in Hmk.
    destruct (Fs.mkdir_p _ _) as [e|n1] eqn:Mk; [discriminate|].
    injection Hmk as <-. cbn [fs trace ticks] in Run.
    assert (Fs.lookup_path n1 (Path.resolve PROJECTS_CONFIG_FILE) = None)
      as Hfresh.
    { rewrite registry_file_path.
      eapply mkdir_p_keeps_absent; [|exact Mk].
      rewrite lookup_path_app, Habs. reflexivity. }
    match type of Run with bind _ _ ?wx = _ =>
      rewrite (bind_run _ _ _ _ _ (existsSync_absent PROJECTS_CONFIG_FILE wx Hfresh))
        in Run
    end.
    cbn [negb] in Run.
    apply bind_Ok in Run as ([] & wc & Hw & Run).
    unfold logger_debug, emit in Run. injection Run as <-. cbn [fs].
    destruct (writeFileSync_Ok _ _ _ _ Hw) as [_ R].
    split; [|intros _; exact R].
    unfold Fs.read in R.
    destruct (Fs.lookup_path (fs wc) _); [eauto | discriminate].
Qed.

(** X12. [initConfigDir] settles the registry file once: it writes the empty
    registry when there is no file, leaves an existing file and the world
    as they are, and has nothing left to do when called again. *)
Theorem initConfigDir_idempotent w w1 :
  initConfigDir w = (Ok tt, w1) ->
  initConfigDir w1 = (Ok tt, w1)
  /\ (Fs.lookup_path (fs w) (Path.resolve PROJECTS_CONFIG_FILE) = None ->
      Fs.read (fs w1) (Path.resolve PROJECTS_CONFIG_FILE)
      = inr (Json (DRegistry (mkRegistry (Some []) None))))
  /\ (forall n,
        Fs.lookup_path (fs w) (Path.resolve PROJECTS_CONFIG_FILE) = Some n ->
        w1 = w).
Proof.
  intros H. destruct (initConfigDir_Ok _ _ H) as [[n Hn] Hnew].
  split; [exact (initConfigDir_settled _ _ Hn)|].
  split; [exact Hnew|].
  intros n0 Hn0. rewrite (initConfigDir_settled _ _ Hn0) in H.
  injection H as <-. reflexivity.
Qed.

Lemma find_name_absent (name : jsstring) (ps : list Project) :
  name ∉ List.map prj_name ps ->
  List.find (fun p => bool_decide (prj_name p = name)) ps = None.
Proof.
  intros H. induction ps as [|p ps IH]; [reflexivity|].
  cbn [List.find List.map] in *.
  rewrite not_elem_of_cons in H. destruct H as [Hne H].
  rewrite bool_decide_eq_false_2 by congruence. auto.
Qed.

(** X13. A project whose directory already exists is refused, even when the
    registry does not know it: the call raises before anything is
    created, run or written. *)
Theorem createProject_directory_taken name password w r ps n :
  Fs.read (fs w) (Path.resolve PROJECTS_CONFIG_FILE)
  = inr (Json (DRegistry r)) ->
  reg_projects r = Some ps ->
  valid_name name = true ->
  name ∉ List.map prj_name ps ->
  Fs.lookup_path (fs w) (Path.resolve (Path.join [BASE_PATH; name])) = Some n ->
  createProject name password w
  = (Throw (js "Le dossier " ++ Path.join [BASE_PATH; name]
            ++ js " existe déjà"), w).
Proof.
  intros Hreg Hps Hvalid Hnew Hdir. unfold createProject.
  rewrite Hvalid. cbn [negb]. unfold projectExists.
  unfold bind at 1. unfold bind at 1.
  rewrite (getProject_registered name r ps w Hreg Hps).
  rewrite (find_name_absent _ _ Hnew).
  unfold ret at 1.
  rewrite (bind_run _ _ _ _ _ (existsSync_lookup _ _ _ Hdir)).
  reflexivity.
Qed.

(** X14. Deleting a project the registry does not list raises and does
    nothing: no process is touched, no account removed, no file
    changed. *)
Theorem deleteProject_unknown name deleteFiles w r ps :
  Fs.read (fs w) (Path.resolve PROJECTS_CONFIG_FILE)
  = inr (Json (DRegistry r)) ->
  reg_projects r = Some ps ->
  name ∉ List.map prj_name ps ->
  deleteProject name deleteFiles w
  = (Throw (js "Le projet " ++ name ++ js " n'existe pas"), w).
Proof.
  intros Hreg Hps Hnew. unfold deleteProject.
  rewrite (bind_run _ _ _ _ _ (getProject_registered name r ps w Hreg Hps)).
  rewrite (find_name_absent _ _ Hnew). reflexivity.
Qed.

(** ** What the writes leave in place *)

Lemma write_keeps_entries n p c n' q :
  Fs.write n p c = inr n' ->
  is_Some (Fs.lookup_path n q) -> is_Some (Fs.lookup_path n' q).
Proof.
  revert n n' q. induction p as [|s p IH]; intros n n' q W Hq;
    [discriminate|].
  simpl in W. destruct n as [c0|es]; [discriminate|].
  destruct q as [|t q]; [simpl; eauto|].
  cbn [Fs.lookup_path] in Hq.
  destruct p as [|s' p].
  - destruct (es !! s) as [[c1|es1]|] eqn:E; try discriminate;
      injection W as <-; cbn [Fs.lookup_path];
      (destruct (decide (t = s)) as [->|Hne];
       [rewrite lookup_insert_eq; rewrite E in Hq
       |rewrite lookup_insert_ne by congruence; exact Hq]).
    + destruct q; [simpl; eauto | simpl in Hq; destruct Hq; discriminate].
    + destruct Hq; discriminate.
  - destruct (es !! s) as [child|] eqn:E; [|discriminate].
    destruct (Fs.write child (s' :: p) c) as [e|child'] eqn:W'; [discriminate|].
    injection W as <-. cbn [Fs.lookup_path].
    destruct (decide (t = s)) as [->|Hne].
    + rewrite lookup_insert_eq. rewrite E in Hq. exact (IH _ _ _ W' Hq).
    + rewrite lookup_insert_ne by congruence. exact Hq.
Qed.

Lemma mkdir_p_keeps_entries n p n' q :
  Fs.mkdir_p n p = inr n' ->
  is_Some (Fs.lookup_path n q) -> is_Some (Fs.lookup_path n' q).
Proof.
  revert n n' q. induction p as [|s p IH]; intros n n' q Mk Hq.
  - simpl in Mk. destruct n; [discriminate|]. injection Mk as <-. exact Hq.
  - simpl in Mk. destruct n as [c0|es]; [discriminate|].
    destruct (Fs.mkdir_p (default (Dir ∅) (es !! s)) p) as [e|child'] eqn:Mk';
      [discriminate|].
    injection Mk as <-.
    destruct q as [|t q]; [simpl; eauto|].
    cbn [Fs.lookup_path] in *.
    destruct (decide (t = s)) as [->|Hne].
    + rewrite lookup_insert_eq.
      destruct (es !! s) as [ch|]; [|destruct Hq; discriminate].
      exact (IH _ _ _ Mk' Hq).
    + rewrite lookup_insert_ne by congruence. exact Hq.
Qed.

(** The directory asked for is there afterwards. *)
Lemma mkdir_p_lookup n p n' :
  Fs.mkdir_p n p = inr n' -> exists es, Fs.lookup_path n' p = Some (Dir es).
Proof.
  revert n n'. induction p as [|s p IH]; intros n n' Mk.
  - simpl in Mk. destruct n as [|es]; [discriminate|]. injection Mk as <-.
    simpl. eauto.
  - simpl in Mk. destruct n as [c0|es]; [discriminate|].
    destruct (Fs.mkdir_p (default (Dir ∅) (es !! s)) p) as [e|child'] eqn:Mk';
      [discriminate|].
    injection Mk as <-. cbn [Fs.lookup_path]. rewrite lookup_insert_eq.
    exact (IH _ _ Mk').
Qed.

(** A removal changes no file outside what it removes. *)
Lemma remove_file_at n p q :
  ~ p `prefix_of` q -> file_at (Fs.remove n p) q = file_at n q.
Proof.
  revert n q. induction p as [|s p IH]; intros n q Hpre.
  - destruct Hpre. apply prefix_nil.
  - simpl. destruct n as [c0|es]; [reflexivity|].
    destruct p as [|s' p].
    + destruct q as [|t q]; [reflexivity|].
      rewrite !file_at_cons.
      destruct (decide (t = s)) as [->|Hne].
      * destruct Hpre. apply (prefix_cons s [] q), prefix_nil.
      * rewrite lookup_delete_ne by congruence. reflexivity.
    + destruct (es !! s) as [child|] eqn:E; [|reflexivity].
      destruct q as [|t q]; [reflexivity|].
      rewrite !file_at_cons.
      destruct (decide (t = s)) as [->|Hne].
      * rewrite lookup_insert_eq, E. apply IH.
        intros Hp. apply Hpre. apply prefix_cons, Hp.
      * rewrite lookup_insert_ne by congruence. reflexivity.
Qed.

(** What was removed is no longer there. *)
Lemma remove_lookup n p :
  p <> [] -> Fs.lookup_path (Fs.remove n p) p = None.
Proof.
  revert n. induction p as [|s p IH]; intros n Hp; [contradiction|].
  simpl. destruct n as [c0|es]; [reflexivity|].
  destruct p as [|s' p].
  - cbn [Fs.lookup_path]. rewrite lookup_delete_eq. reflexivity.
  - destruct (es !! s) as [child|] eqn:E.
    + cbn [Fs.lookup_path]. rewrite lookup_insert_eq. apply IH. discriminate.
    + cbn [Fs.lookup_path]. rewrite E. reflexivity.
Qed.

(** *** Entries that stay *)

Lemma keeps_entries_keeps_fs {A} (m : M A) : keeps_fs m -> keeps_entries m.
Proof. intros H w q Hq. rewrite H. exact Hq. Qed.

Lemma keeps_entries_bind {A B} (m : M A) (k : A -> M B) :
  keeps_entries m -> (forall a, keeps_entries (k a)) -> keeps_entries (bind m k).
Proof.
  intros Hm Hk w q Hq. unfold bind. specialize (Hm w q Hq).
  destruct (m w) as [[a|e] w1]; cbn [snd] in *; [|exact Hm].
  apply Hk, Hm.
Qed.

Lemma keeps_entries_try_catch {A} (m : M A) (h : jsstring -> M A) :
  keeps_entries m -> (forall e, keeps_entries (h e)) ->
  keeps_entries (try_catch m h).
Proof.
  intros Hm Hh w q Hq. unfold try_catch. specialize (Hm w q Hq).
  destruct (m w) as [[a|e] w1]; cbn [snd] in *; [exact Hm|].
  apply Hh, Hm.
Qed.

Lemma keeps_entries_writeFileSync path c : keeps_entries (writeFileSync path c).
Proof.
  intros w q Hq. unfold writeFileSync.
  destruct (Fs.write _ _ _) as [e|n] eqn:W; cbn [snd fs]; [exact Hq|].
  exact (write_keeps_entries _ _ _ _ _ W Hq).
Qed.

Lemma keeps_entries_copyFileSync src dst : keeps_entries (copyFileSync src dst).
Proof.
  intros w q Hq. unfold copyFileSync.
  destruct (Fs.read _ _) as [e|c]; [exact Hq|].
  destruct (Fs.write _ _ _) as [e|n] eqn:W; cbn [snd fs]; [exact Hq|].
  exact (write_keeps_entries _ _ _ _ _ W Hq).
Qed.

Lemma keeps_entries_mkdirSync path : keeps_entries (mkdirSync path).
Proof.
  intros w q Hq. unfold mkdirSync.
  destruct (Fs.mkdir_p _ _) as [e|n] eqn:Mk; cbn [snd fs]; [exact Hq|].
  exact (mkdir_p_keeps_entries _ _ _ _ Mk Hq).
Qed.

Create HintDb entries.
Create HintDb within.

Ltac keeps_entries_tac :=
  repeat first
    [ progress intros
    | match goal with
      | |- keeps_entries (bind _ _) => apply keeps_entries_bind
      | |- keeps_entries (try_catch _ _) => apply keeps_entries_try_catch
      | |- keeps_entries (writeFileSync _ _) => apply keeps_entries_writeFileSync
      | |- keeps_entries (copyFileSync _ _) => apply keeps_entries_copyFileSync
      | |- keeps_entries (mkdirSync _) => apply keeps_entries_mkdirSync
      | |- keeps_entries (match ?x with _ => _ end) => destruct x
      end
    | solve [auto with entries]
    | solve [apply keeps_entries_keeps_fs; keeps_fs_tac] ].

Lemma keeps_entries_initConfigDir : keeps_entries initConfigDir.
Proof. unfold initConfigDir. keeps_entries_tac. Qed.

#[local] Hint Resolve keeps_entries_initConfigDir : entries.

Lemma keeps_entries_loadProjects : keeps_entries loadProjects.
Proof. unfold loadProjects. keeps_entries_tac. Qed.

Lemma keeps_entries_saveProjects ps : keeps_entries (saveProjects ps).
Proof. unfold saveProjects, Date_toISOString. keeps_entries_tac. Qed.

Lemma keeps_entries_saveProjectConfig p cfg :
  keeps_entries (saveProjectConfig p cfg).
Proof. unfold saveProjectConfig, Date_toISOString. keeps_entries_tac. Qed.

Lemma keeps_entries_updateSSHConfig ps : keeps_entries (updateSSHConfig ps).
Proof.
  unfold updateSSHConfig, readSSHConfig, writeSSHConfig. keeps_entries_tac.
Qed.

(** *** Files that stay *)

Lemma writes_within_keeps_fs {A} area (m : M A) :
  keeps_fs m -> writes_within area m.
Proof. intros H w q _. rewrite H. reflexivity. Qed.

Lemma writes_within_keeps_files {A} area (m : M A) :
  keeps_files m -> writes_within area m.
Proof. intros H w q _. apply H. Qed.

Lemma writes_within_bind {A B} area (m : M A) (k : A -> M B) :
  writes_within area m -> (forall a, writes_within area (k a)) ->
  writes_within area (bind m k).
Proof.
  intros Hm Hk w q Hq. unfold bind. specialize (Hm w q Hq).
  destruct (m w) as [[a|e] w1]; cbn [snd] in *; [|exact Hm].
  rewrite (Hk a w1 q Hq). exact Hm.
Qed.

Lemma writes_within_try_catch {A} area (m : M A) (h : jsstring -> M A) :
  writes_within area m -> (forall e, writes_within area (h e)) ->
  writes_within area (try_catch m h).
Proof.
  intros Hm Hh w q Hq. unfold try_catch. specialize (Hm w q Hq).
  destruct (m w) as [[a|e] w1]; cbn [snd] in *; [exact Hm|].
  rewrite (Hh e w1 q Hq). exact Hm.
Qed.

Lemma writes_within_for_of {A} area (xs : list A) (body : A -> M unit) :
  (forall x, writes_within area (body x)) -> writes_within area (for_of xs body).
Proof.
  intros Hb. induction xs as [|x xs IH]; simpl.
  - apply writes_within_keeps_fs, keeps_fs_ret.
  - apply writes_within_bind; [apply Hb | intros _; exact IH].
Qed.

Lemma writes_within_weaken {A} (area area' : list jsstring -> Prop) (m : M A) :
  (forall q, area q -> area' q) -> writes_within area m ->
  writes_within area' m.
Proof. intros Hsub Hm w q Hq. apply Hm. intros Ha. apply Hq, Hsub, Ha. Qed.

Lemma writes_within_writeFileSync (area : list jsstring -> Prop) path c :
  area (Path.resolve path) -> writes_within area (writeFileSync path c).
Proof.
  intros Ha w q Hq. unfold writeFileSync.
  destruct (Fs.write _ _ _) as [e|n] eqn:W; cbn [snd fs]; [reflexivity|].
  apply (write_file_at_other _ _ _ _ _ W). intros ->. exact (Hq Ha).
Qed.

Lemma writes_within_copyFileSync (area : list jsstring -> Prop) src dst :
  area (Path.resolve dst) -> writes_within area (copyFileSync src dst).
Proof.
  intros Ha w q Hq. unfold copyFileSync.
  destruct (Fs.read _ _) as [e|c]; [reflexivity|].
  destruct (Fs.write _ _ _) as [e|n] eqn:W; cbn [snd fs]; [reflexivity|].
  apply (write_file_at_other _ _ _ _ _ W). intros ->. exact (Hq Ha).
Qed.

Lemma writes_within_mkdirSync area path : writes_within area (mkdirSync path).
Proof. apply writes_within_keeps_files, keeps_files_mkdirSync. Qed.

Ltac writes_within_tac :=
  repeat first
    [ progress intros
    | match goal with
      | |- writes_within _ (bind _ _) => apply writes_within_bind
      | |- writes_within _ (try_catch _ _) => apply writes_within_try_catch
      | |- writes_within _ (for_of _ _) => apply writes_within_for_of
      | |- writes_within _ (mkdirSync _) => apply writes_within_mkdirSync
      | |- writes_within _ (match ?x with _ => _ end) => destruct x
      end
    | solve [auto with within]
    | solve [apply writes_within_keeps_fs; keeps_fs_tac] ].

Lemma registry_area_file : registry_area (Path.resolve PROJECTS_CONFIG_FILE).
Proof. reflexivity. Qed.

Lemma writes_within_initConfigDir : writes_within registry_area initConfigDir.
Proof.
  unfold initConfigDir. writes_within_tac.
  apply writes_within_writeFileSync, registry_area_file.
Qed.

#[local] Hint Resolve writes_within_initConfigDir : within.

Lemma writes_within_loadProjects : writes_within registry_area loadProjects.
Proof. unfold loadProjects. writes_within_tac. Qed.

Lemma writes_within_saveProjects ps :
  writes_within registry_area (saveProjects ps).
Proof.
  unfold saveProjects, Date_toISOString. writes_within_tac.
  apply writes_within_writeFileSync, registry_area_file.
Qed.

Lemma ssh_area_config : ssh_area (Path.resolve SSH_CONFIG_PATH).
Proof. exists (js "sshd_config"). vm_compute. reflexivity. Qed.

Lemma ssh_area_backup now : ssh_area (Path.resolve (backupPath now)).
Proof. rewrite resolve_backupPath. eexists. reflexivity. Qed.

Lemma writes_within_updateSSHConfig ps :
  writes_within ssh_area (updateSSHConfig ps).
Proof.
  unfold updateSSHConfig, readSSHConfig, writeSSHConfig. writes_within_tac.
  - apply writes_within_copyFileSync, ssh_area_backup.
  - apply writes_within_writeFileSync, ssh_area_config.
Qed.

(** ** [projects.js]: creating and deleting a project *)

Lemma step_fs {A} (m : M A) w r w1 :
  keeps_fs m -> m w = (r, w1) -> fs w1 = fs w.
Proof. intros K E. specialize (K w). rewrite E in K. exact K. Qed.

Lemma step_entries {A} (m : M A) w r w1 q :
  keeps_entries m -> m w = (r, w1) ->
  is_Some (Fs.lookup_path (fs w) q) -> is_Some (Fs.lookup_path (fs w1) q).
Proof. intros K E Hq. specialize (K w q Hq). rewrite E in K. exact K. Qed.

Lemma step_within {A} area (m : M A) w r w1 q :
  writes_within area m -> m w = (r, w1) -> ~ area q ->
  file_at (fs w1) q = file_at (fs w) q.
Proof. intros K E Hq. specialize (K w q Hq). rewrite E in K. exact K. Qed.

Lemma keeps_fs_ensureSftpGroup : keeps_fs ensureSftpGroup.
Proof. unfold ensureSftpGroup. keeps_fs_tac. Qed.

#[local] Hint Resolve keeps_fs_ensureSftpGroup : keeps.

Lemma keeps_fs_createSftpUser p pw : keeps_fs (createSftpUser p pw).
Proof. unfold createSftpUser. keeps_fs_tac. Qed.

Lemma createSftpUser_Ok p pw a w w' :
  createSftpUser p pw w = (Ok a, w') -> a = SFTP_USER_PREFIX ++ p.
Proof.
  unfold createSftpUser. intros Run.
  apply bind_Ok in Run as (present & w1 & _ & Run).
  destruct present; [discriminate|].
  repeat (apply bind_Ok in Run as (? & ? & _ & Run)).
  injection Run as <- _. reflexivity.
Qed.

(** The directories of a validly named project. *)
Lemma join_projectPath p :
  valid_name p = true ->
  Path.join [BASE_PATH; p]
  = Path.slash :: JS.join [Path.slash] [js "var"; js "www"; p].
Proof.
  intros V. pose proof (valid_name_plain p V) as Hp.
  assert (Forall plain_segment [js "var"; js "www"; p]) as HF.
  { repeat (apply Forall_cons_2 || apply Forall_nil_2); try assumption;
      apply plain_segmentb_plain; vm_compute; reflexivity. }
  unfold Path.join.
  destruct p as [|c r]; [discriminate|].
  change (filter _ [BASE_PATH; c :: r]) with [BASE_PATH; c :: r].
  cbv beta iota.
  change (JS.join [Path.slash] [BASE_PATH; c :: r])
    with (Path.slash :: JS.join [Path.slash] [js "var"; js "www"; c :: r]).
  apply normalize_absolute; [discriminate | assumption].
Qed.

Lemma resolve_projectPath p :
  valid_name p = true ->
  Path.resolve (Path.join [BASE_PATH; p]) = [js "var"; js "www"; p].
Proof.
  intros V. rewrite (join_projectPath p V).
  apply resolve_absolute; [discriminate|].
  pose proof (valid_name_plain p V) as Hp.
  repeat (apply Forall_cons_2 || apply Forall_nil_2); try assumption;
    apply plain_segmentb_plain; vm_compute; reflexivity.
Qed.

Lemma resolve_below_project p s :
  valid_name p = true -> plain_segmentb s = true ->
  Path.resolve (Path.join [Path.join [BASE_PATH; p]; s])
  = [js "var"; js "www"; p; s].
Proof.
  intros V Hs. rewrite (join_projectPath p V).
  pose proof (valid_name_plain p V) as Hp.
  pose proof (plain_segmentb_plain s Hs) as Hs'.
  assert (Forall plain_segment [js "var"; js "www"; p; s]) as HF.
  { repeat (apply Forall_cons_2 || apply Forall_nil_2); try assumption;
      apply plain_segmentb_plain; vm_compute; reflexivity. }
  unfold Path.join.
  destruct p as [|c r]; [discriminate|].
  destruct s as [|d t]; [discriminate|].
  change (filter _ [Path.slash :: JS.join [Path.slash] [js "var"; js "www"; c :: r];
                    d :: t])
    with [Path.slash :: JS.join [Path.slash] [js "var"; js "www"; c :: r];
          d :: t].
  cbv beta iota.
  assert (JS.join [Path.slash]
            [Path.slash :: JS.join [Path.slash] [js "var"; js "www"; c :: r];
             d :: t]
          = Path.slash
            :: JS.join [Path.slash] [js "var"; js "www"; c :: r; d :: t]) as ->.
  { cbn [JS.join]. vm_compute (js "var"). vm_compute (js "www").
    cbn [app]. reflexivity. }
  rewrite normalize_absolute by (discriminate || assumption).
  apply resolve_absolute; [discriminate | assumption].
Qed.

Lemma not_ssh_area_registry : ~ ssh_area (Path.resolve PROJECTS_CONFIG_FILE).
Proof. intros [s H]. vm_compute in H. discriminate. Qed.

Lemma not_area_configPath p :
  valid_name p = true ->
  ~ ssh_area (Path.resolve (configPath p))
  /\ ~ registry_area (Path.resolve (configPath p)).
Proof.
  intros V. rewrite (resolve_configPath p V). split.
  - intros [s H]. discriminate.
  - unfold registry_area. vm_compute (Path.resolve PROJECTS_CONFIG_FILE).
    discriminate.
Qed.

Lemma projectExists_listed name r ps w :
  Fs.read (fs w) (Path.resolve PROJECTS_CONFIG_FILE)
  = inr (Json (DRegistry r)) ->
  reg_projects r = Some ps ->
  projectExists name w
  = (Ok (bool_decide (name ∈ List.map prj_name ps)), w).
Proof.
  intros Hreg Hps. unfold projectExists.
  rewrite (bind_run _ _ _ _ _ (getProject_registered name r ps w Hreg Hps)).
  unfold ret. f_equal. f_equal.
  destruct (decide (name ∈ List.map prj_name ps)) as [Hin|Hout].
  - destruct (find_name_elem _ _ Hin) as [p ->].
    rewrite bool_decide_eq_true_2 by assumption. reflexivity.
  - rewrite (find_name_absent _ _ Hout).
    rewrite bool_decide_eq_false_2 by assumption. reflexivity.
Qed.

(** X15. A project that [createProject] has created is there for the other
    operations: the registry lists it, last, with its directory and its
    account; its own document is the configuration that was returned,
    with no service yet; and its [sites] and [scripts] directories
    exist. *)
Theorem createProject_registers name password cfg w w' :
  createProject name password w = (Ok cfg, w') ->
  let projectPath := Path.join [BASE_PATH; name] in
  valid_name name = true
  /\ cfg_name cfg = Some name
  /\ cfg_path cfg = Some projectPath
  /\ cfg_sftpUser cfg = Some (SFTP_USER_PREFIX ++ name)
  /\ cfg_services cfg = Some []
  /\ loadProjectConfig name w' = (Ok cfg, w')
  /\ (exists ps now,
        loadProjects w'
        = (Ok (ps ++ [mkProject name projectPath (SFTP_USER_PREFIX ++ name) now]),
           w'))
  /\ projectExists name w' = (Ok true, w')
  /\ existsSync (Path.join [projectPath; PROJECT_STRUCTURE_sites]) w'
     = (Ok true, w')
  /\ existsSync (Path.join [projectPath; PROJECT_STRUCTURE_scripts]) w'
     = (Ok true, w').
Proof.
  intros H. cbv zeta.
  pose proof (createProject_Ok_valid _ _ _ _ _ H) as V.
  split; [exact V|].
  unfold createProject in H. rewrite V in H. cbn [negb] in H.
  apply bind_Ok in H as (known & w1 & _ & H).
  destruct known; [discriminate|].
  apply bind_Ok in H as (taken & w2 & _ & H).
  destruct taken; [discriminate|].
  apply bind_Ok in H as ([] & w3 & _ & H).
  apply bind_Ok in H as ([] & w4 & _ & H).
  apply bind_Ok in H as ([] & w5 & Hsites & H).
  apply bind_Ok in H as ([] & w6 & Hscripts & H).
  apply bind_Ok in H as ([] & w7 & Hlog & H).
  apply bind_Ok in H as (user & w8 & Huser & H).
  apply bind_Ok in H as (now & w9 & Hnow & H).
  apply bind_Ok in H as (pc & w10 & Hcfg & H).
  apply bind_Ok in H as (ps & w11 & Hload & H).
  apply bind_Ok in H as ([] & w12 & Hsave & H).
  apply bind_Ok in H as ([] & w13 & Hssh & H).
  apply bind_Ok in H as ([] & w14 & Hend & H).
  injection H as <- <-.
  pose proof (createSftpUser_Ok _ _ _ _ _ Huser) as ->.
  destruct (saveProjectConfig_Ok _ _ _ _ _ Hcfg) as (Hpc & _ & Rcfg).
  assert (fs w14 = fs w13) as F14.
  { unfold logger_success, emit in Hend. injection Hend as <-. reflexivity. }
  (* the project's document *)
  destruct (not_area_configPath name V) as [Nssh Nreg].
  assert (Fs.read (fs w14) (Path.resolve (configPath name))
          = inr (Json (DConfig pc))) as Rcfg'.
  { apply read_file_at. rewrite F14.
    rewrite (step_within _ _ _ _ _ _ (writes_within_updateSSHConfig _) Hssh Nssh).
    rewrite (step_within _ _ _ _ _ _ (writes_within_saveProjects _) Hsave Nreg).
    rewrite (step_within _ _ _ _ _ _ writes_within_loadProjects Hload Nreg).
    apply read_file_at, Rcfg. }
  (* the registry *)
  destruct (saveProjects_Ok _ _ _ Hsave) as (stamp & Rreg).
  assert (Fs.read (fs w14) (Path.resolve PROJECTS_CONFIG_FILE)
          = inr (Json (DRegistry
                         (mkRegistry
                            (Some (ps ++ [mkProject name
                                            (Path.join [BASE_PATH; name])
                                            (SFTP_USER_PREFIX ++ name) now]))
                            (Some stamp))))) as Rreg'.
  { apply read_file_at. rewrite F14.
    rewrite (step_within _ _ _ _ _ _ (writes_within_updateSSHConfig _) Hssh
               not_ssh_area_registry).
    apply read_file_at, Rreg. }
  (* the directories *)
  assert (forall q, is_Some (Fs.lookup_path (fs w6) q) ->
                    is_Some (Fs.lookup_path (fs w14) q)) as Keep.
  { intros q Hq. rewrite F14.
    apply (step_entries _ _ _ _ _ (keeps_entries_updateSSHConfig _) Hssh).
    apply (step_entries _ _ _ _ _ (keeps_entries_saveProjects _) Hsave).
    apply (step_entries _ _ _ _ _ keeps_entries_loadProjects Hload).
    apply (step_entries _ _ _ _ _ (keeps_entries_saveProjectConfig _ _) Hcfg).
    rewrite (step_fs _ _ _ _ keeps_fs_Date_toISOString Hnow).
    rewrite (step_fs _ _ _ _ (keeps_fs_createSftpUser _ _) Huser).
    rewrite (step_fs _ _ _ _ (keeps_fs_emit _) Hlog).
    exact Hq. }
  subst pc. cbn [cfg_name cfg_path cfg_sftpUser cfg_services set_updatedAt].
  repeat (split; [reflexivity|]).
  split; [exact (loadProjectConfig_document _ _ _ Rcfg')|].
  split.
  { exists ps, now. rewrite (loadProjects_document _ _ Rreg'). reflexivity. }
  split.
  { rewrite (projectExists_listed name _ _ w14 Rreg' eq_refl).
    rewrite bool_decide_eq_true_2; [reflexivity|].
    rewrite map_app. apply elem_of_app. right. cbn. constructor. }
  split.
  - unfold mkdirSync in Hsites.
    destruct (Fs.mkdir_p _ _) as [e|n5] eqn:Mk; [discriminate|].
    injection Hsites as <-.
    destruct (mkdir_p_lookup _ _ _ Mk) as [es Hes].
    assert (is_Some (Fs.lookup_path (fs w14)
              (Path.resolve
                 (Path.join [Path.join [BASE_PATH; name];
                             PROJECT_STRUCTURE_sites])))) as [nd Hnd].
    { apply Keep.
      apply (step_entries _ _ _ _ _ (keeps_entries_mkdirSync _) Hscripts).
      cbn [fs]. eauto. }
    exact (existsSync_lookup _ _ _ Hnd).
  - unfold mkdirSync in Hscripts.
    destruct (Fs.mkdir_p _ _) as [e|n6] eqn:Mk; [discriminate|].
    injection Hscripts as <-.
    destruct (mkdir_p_lookup _ _ _ Mk) as [es Hes].
    assert (is_Some (Fs.lookup_path (fs w14)
              (Path.resolve
                 (Path.join [Path.join [BASE_PATH; name];
                             PROJECT_STRUCTURE_scripts])))) as [nd Hnd].
    { apply Keep. cbn [fs]. eauto. }
    exact (existsSync_lookup _ _ _ Hnd).
Qed.

Lemma not_project_area_registry name :
  ~ project_area name (Path.resolve PROJECTS_CONFIG_FILE).
Proof. intros [r H]. vm_compute in H. discriminate. Qed.

Lemma without_absent name ps : name ∉ List.map prj_name (without name ps).
Proof.
  unfold without. intros H. apply list_elem_of_fmap in H as (p & -> & Hp).
  apply list_elem_of_In, filter_In in Hp as [_ Hp].
  apply negb_true_iff, bool_decide_eq_false in Hp. apply Hp. reflexivity.
Qed.

(** X16. After a successful [deleteProject] of a validly named project that
    the registry listed, the registry lists the same projects in the same
    order, but for the deleted one; and when the files were to be
    deleted, the project's directory is gone. *)
Theorem deleteProject_unregisters name deleteFiles r ps w w' :
  valid_name name = true ->
  Fs.read (fs w) (Path.resolve PROJECTS_CONFIG_FILE)
  = inr (Json (DRegistry r)) ->
  reg_projects r = Some ps ->
  deleteProject name deleteFiles w = (Ok tt, w') ->
  name ∈ List.map prj_name ps
  /\ loadProjects w' = (Ok (without name ps), w')
  /\ projectExists name w' = (Ok false, w')
  /\ (deleteFiles = true ->
      existsSync (Path.join [BASE_PATH; name]) w' = (Ok false, w')).
Proof.
  intros V Hreg Hps H. unfold deleteProject in H.
  rewrite (bind_run _ _ _ _ _ (getProject_registered name r ps w Hreg Hps)) in H.
  destruct (List.find _ ps) as [project|] eqn:Hfind; [|discriminate].
  apply bind_Ok in H as ([] & w2 & H2 & H).
  apply bind_Ok in H as ([] & w3 & H3 & H).
  apply bind_Ok in H as ([] & w4 & H4 & H).
  apply bind_Ok in H as (ps' & w5 & Hload & H).
  apply bind_Ok in H as ([] & w6 & Hsave & H).
  apply bind_Ok in H as ([] & w7 & Hssh & H).
  apply bind_Ok in H as ([] & w8 & Hrm & H).
  assert (fs w4 = fs w) as F4.
  { rewrite (step_fs _ _ _ _ (keeps_fs_deleteSftpUser _) H4).
    match type of H3 with ?m _ = _ =>
      assert (keeps_fs m) as K3
        by (pose proof (keeps_fs_loadProjectConfig name); keeps_fs_tac)
    end.
    rewrite (step_fs _ _ _ _ K3 H3).
    rewrite (step_fs _ _ _ _ (keeps_fs_emit _) H2). reflexivity. }
  rewrite <- F4 in Hreg.
  rewrite (loadProjects_document _ _ Hreg) in Hload.
  cbn [document_projects] in Hload. rewrite Hps in Hload.
  cbn [or_list] in Hload. injection Hload as <- <-.
  fold (without name ps) in *.
  destruct (saveProjects_Ok _ _ _ Hsave) as (stamp & Rreg).
  (* what the last step leaves *)
  assert (file_at (fs w8) (Path.resolve PROJECTS_CONFIG_FILE)
          = file_at (fs w7) (Path.resolve PROJECTS_CONFIG_FILE)
          /\ (deleteFiles = true ->
              Fs.lookup_path (fs w8)
                (Path.resolve (Path.join [BASE_PATH; name])) = None))
    as [Freg Hgone].
  { destruct deleteFiles.
    - apply bind_Ok in Hrm as (present & w7' & Hex & Hrm).
      unfold existsSync in Hex. injection Hex as <- <-.
      destruct (bool_decide _) eqn:P.
      + apply bind_Ok in Hrm as ([] & wr & Hrm & Hlog).
        unfold logger_success, emit in Hlog. injection Hlog as <-.
        unfold rmSync in Hrm. injection Hrm as <-. cbn [fs].
        rewrite (resolve_projectPath name V). split.
        * apply remove_file_at. intros [t Ht].
          apply (not_project_area_registry name). exists t. exact Ht.
        * intros _. apply remove_lookup. discriminate.
      + injection Hrm as <-. split; [reflexivity|]. intros _.
        apply bool_decide_eq_false in P.
        destruct (Fs.lookup_path (fs w7) _) eqn:L; [|reflexivity].
        destruct P. eauto.
    - injection Hrm as <-. split; [reflexivity | discriminate]. }
  unfold logger_success, emit in H. injection H as <-.
  match goal with |- context [loadProjects ?wf] => set (wf' := wf) in * end.
  assert (Fs.read (fs wf') (Path.resolve PROJECTS_CONFIG_FILE)
          = inr (Json (DRegistry (mkRegistry (Some (without name ps))
                                             (Some stamp))))) as Rreg'.
  { subst wf'. cbn [fs]. apply read_file_at. rewrite Freg.
    rewrite (step_within _ _ _ _ _ _ (writes_within_updateSSHConfig _) Hssh
               not_ssh_area_registry).
    apply read_file_at, Rreg. }
  split; [|split; [|split]].
  - apply find_some in Hfind as [Hin Hn].
    apply bool_decide_eq_true in Hn. subst name.
    apply list_elem_of_fmap. exists project. split; [reflexivity|].
    apply list_elem_of_In, Hin.
  - exact (loadProjects_document _ _ Rreg').
  - rewrite (projectExists_listed name _ _ wf' Rreg' eq_refl).
    rewrite bool_decide_eq_false_2; [reflexivity|]. apply without_absent.
  - intros Hdf. apply existsSync_absent. subst wf'. cbn [fs]. auto.
Qed.

(** ** [services.js]: the registry of services *)

Lemma findIndex_Some {A} (f : A -> bool) (l : list A) i :
  findIndex f l = Some i ->
  exists x,
    l !! i = Some x /\ f x = true
    /\ forall j y, (j < i)%nat -> l !! j = Some y -> f y = false.
Proof.
  revert i. induction l as [|a l IH]; intros i H; [discriminate|].
  simpl in H. destruct (f a) eqn:Fa.
  - injection H as <-. exists a. split; [reflexivity|]. split; [exact Fa|].
    intros j y Hj. lia.
  - destruct (findIndex f l) as [k|]; [|discriminate].
    injection H as <-. destruct (IH k eq_refl) as (x & Hx & Fx & Hlt).
    exists x. split; [exact Hx|]. split; [exact Fx|].
    intros [|j] y Hj Hy; simpl in Hy.
    + injection Hy as <-. exact Fa.
    + apply (Hlt j y); [lia | exact Hy].
Qed.

Lemma findIndex_None {A} (f : A -> bool) (l : list A) :
  findIndex f l = None <-> List.find f l = None.
Proof.
  induction l as [|a l IH]; simpl; [tauto|].
  destruct (f a); [split; discriminate|].
  destruct (findIndex f l); simpl.
  - split; [discriminate|]. intros H. apply IH in H. discriminate.
  - split; [intros _; apply IH; reflexivity | reflexivity].
Qed.

Lemma find_insert_first {A} (f : A -> bool) (l : list A) i y :
  findIndex f l = Some i -> f y = true ->
  List.find f (<[i := y]> l) = Some y.
Proof.
  revert i. induction l as [|a l IH]; intros i H Fy; [discriminate|].
  simpl in H. destruct (f a) eqn:Fa.
  - injection H as <-. simpl. rewrite Fy. reflexivity.
  - destruct (findIndex f l) as [k|]; [|discriminate].
    injection H as <-. simpl. rewrite Fa. apply IH; [reflexivity | exact Fy].
Qed.

Lemma find_absent_name n (l : list Service) :
  n ∉ List.map svc_name l -> List.find (has_name n) l = None.
Proof.
  intros H. induction l as [|s l IH]; [reflexivity|].
  cbn [List.find List.map] in *.
  rewrite not_elem_of_cons in H. destruct H as [Hne H].
  unfold has_name at 1. rewrite bool_decide_eq_false_2 by congruence. auto.
Qed.

Lemma find_delete_NoDup n (l : list Service) i :
  NoDup (List.map svc_name l) ->
  findIndex (has_name n) l = Some i ->
  List.find (has_name n) (delete i l) = None.
Proof.
  revert i. induction l as [|s l IH]; intros i ND H; [discriminate|].
  cbn [List.map] in ND. apply NoDup_cons in ND as [Hs ND].
  simpl in H. destruct (has_name n s) eqn:Fs.
  - injection H as <-. cbn [delete list_delete].
    apply find_absent_name.
    apply bool_decide_eq_true in Fs. rewrite <- Fs. exact Hs.
  - destruct (findIndex (has_name n) l) as [k|]; [|discriminate].
    injection H as <-. cbn [delete list_delete List.find]. rewrite Fs.
    apply IH; [exact ND | reflexivity].
Qed.

(** *** A service that is not declared *)

Lemma getService_absent p n c l w :
  Fs.read (fs w) (Path.resolve (configPath p)) = inr (Json (DConfig c)) ->
  cfg_services c = Some l ->
  n ∉ List.map svc_name l ->
  getService p n w = (Ok None, w).
Proof.
  intros R Hl Hn. rewrite (getService_declared _ _ _ _ _ R Hl).
  rewrite (find_absent_name _ _ Hn). reflexivity.
Qed.

(** X18. Every operation on a service that the project does not declare
    raises the not-found error of its kind and leaves the world exactly
    as it was: no command is issued, nothing is written, nothing is
    logged. *)
Theorem undeclared_service_refused p n c l w :
  Fs.read (fs w) (Path.resolve (configPath p)) = inr (Json (DConfig c)) ->
  cfg_services c = Some l ->
  n ∉ List.map svc_name l ->
  let missing := js "Le service " ++ n ++ js " n'existe pas" in
  let missing_here :=
    js "Le service " ++ n ++ js " n'existe pas dans ce projet" in
  getService p n w = (Ok None, w)
  /\ (forall u, updateService p n u w = (Throw missing_here, w))
  /\ removeService p n w = (Throw missing_here, w)
  /\ (forall runSetup, startService p n runSetup w = (Throw missing, w))
  /\ stopService p n w = (Throw missing, w)
  /\ restartService p n w = (Throw missing, w)
  /\ (forall lines, getServiceLogs p n lines w = (Throw missing, w)).
Proof.
  intros R Hl Hn. cbv zeta.
  pose proof (getService_absent _ _ _ _ _ R Hl Hn) as G.
  pose proof (find_absent_name _ _ Hn) as F.
  apply findIndex_None in F.
  split; [exact G|].
  split; [|split; [|split; [|split; [|split]]]].
  - intros u. unfold updateService.
    rewrite (bind_run _ _ _ _ _ (loadProjectConfig_document _ _ _ R)).
    unfold services_of. rewrite Hl.
    unfold bind, ret. rewrite F. reflexivity.
  - unfold removeService.
    rewrite (bind_run _ _ _ _ _ (loadProjectConfig_document _ _ _ R)).
    unfold services_of. rewrite Hl.
    unfold bind, ret. rewrite F. reflexivity.
  - intros runSetup. unfold startService.
    rewrite (bind_run _ _ _ _ _ G). reflexivity.
  - unfold stopService. rewrite (bind_run _ _ _ _ _ G). reflexivity.
  - unfold restartService. rewrite (bind_run _ _ _ _ _ G). reflexivity.
  - intros lines. unfold getServiceLogs.
    rewrite (bind_run _ _ _ _ _ G). reflexivity.
Qed.

(** *** Adding *)

Lemma existsb_has_name n (l : list Service) :
  n ∈ List.map svc_name l -> existsb (has_name n) l = true.
Proof.
  intros H. apply list_elem_of_fmap in H as (s & -> & Hs).
  apply existsb_exists. exists s. split; [apply list_elem_of_In, Hs|].
  unfold has_name. apply bool_decide_eq_true_2. reflexivity.
Qed.

(** X19. A second service of the same name is refused: [addService] raises
    the duplicate error and leaves the world exactly as it was; in
    particular no directory is created for it. *)
Theorem addService_duplicate p sc c l w :
  Fs.read (fs w) (Path.resolve (configPath p)) = inr (Json (DConfig c)) ->
  cfg_services c = Some l ->
  valid_name (sc_name sc) = true ->
  sc_name sc ∈ List.map svc_name l ->
  addService p sc w
  = (Throw (js "Le service " ++ sc_name sc
            ++ js " existe déjà dans ce projet"), w).
Proof.
  intros R Hl V Hin. unfold addService. rewrite V. cbn [negb].
  rewrite (bind_run _ _ _ _ _ (loadProjectConfig_document _ _ _ R)).
  unfold services_of. rewrite Hl. unfold bind at 1, ret at 1.
  rewrite (existsb_has_name _ _ Hin). reflexivity.
Qed.

(** X20. The directory recorded for a service that [addService] has added
    exists in the file system afterwards: it was there already or it has
    been created, with its missing parents. *)
Theorem addService_directory_exists p sc svc w w1 :
  addService p sc w = (Ok svc, w1) ->
  svc_directory svc = servicePath p (sc_directory sc)
  /\ existsSync (svc_directory svc) w1 = (Ok true, w1).
Proof.
  intros H. unfold addService in H.
  destruct (valid_name (sc_name sc)); [|discriminate]. cbn [negb] in H.
  apply bind_Ok in H as (cfg0 & w0 & Hload & H).
  apply bind_Ok in H as (old & w0' & _ & H).
  destruct (existsb _ old); [discriminate|].
  apply bind_Ok in H as (present & w2 & Hex & H).
  apply bind_Ok in H as ([] & w3 & Hmk & H).
  apply bind_Ok in H as (now & w4 & Hnow & H).
  apply bind_Ok in H as (cfg1 & w5 & Hsave & H).
  apply bind_Ok in H as ([] & w6 & Hlog & H).
  injection H as <- <-. cbn [svc_directory]. split; [reflexivity|].
  unfold existsSync in Hex. injection Hex as <- <-.
  assert (is_Some (Fs.lookup_path (fs w3)
                     (Path.resolve (servicePath p (sc_directory sc)))))
    as Hthere.
  { destruct (bool_decide _) eqn:P; cbn [negb] in Hmk.
    - injection Hmk as <-. exact (bool_decide_eq_true_1 _ P).
    - apply bind_Ok in Hmk as ([] & wm & Hmk & Hl).
      unfold logger_info, emit in Hl. injection Hl as <-. cbn [fs].
      unfold mkdirSync in Hmk.
      destruct (Fs.mkdir_p _ _) as [e|n1] eqn:Mk; [discriminate|].
      injection Hmk as <-. cbn [fs].
      destruct (mkdir_p_lookup _ _ _ Mk) as [es Hes]. eauto. }
  assert (is_Some (Fs.lookup_path (fs w6)
                     (Path.resolve (servicePath p (sc_directory sc)))))
    as [nd Hnd].
  { rewrite (step_fs _ _ _ _ (keeps_fs_emit _) Hlog).
    apply (step_entries _ _ _ _ _ (keeps_entries_saveProjectConfig _ _) Hsave).
    rewrite (step_fs _ _ _ _ keeps_fs_Date_toISOString Hnow).
    exact Hthere. }
  exact (existsSync_lookup _ _ _ Hnd).
Qed.

(** *** Updating *)

(** X21. The record [updateService] returns is the one [getService] finds
    afterwards under the same name; the update keeps the service's place
    in the list and leaves every service of another name as it was. *)
Theorem updateService_getService p n u svc w w1 :
  updateService p n u w = (Ok svc, w1) ->
  getService p n w1 = (Ok (Some svc), w1)
  /\ svc_name svc = n
  /\ List.map svc_name (declared w1 p) = List.map svc_name (declared w p)
  /\ (forall s, s ∈ declared w p -> svc_name s <> n -> s ∈ declared w1 p).
Proof.
  unfold updateService. intros H.
  apply bind_Ok in H as (cfg0 & w0 & Hload & H).
  apply bind_Ok in H as (old & w0' & Hsvc & H).
  unfold services_of in Hsvc.
  destruct (cfg_services cfg0) as [l|] eqn:Hl; [|discriminate].
  injection Hsvc as <- <-.
  destruct (findIndex (has_name n) l) as [i|] eqn:Hidx; [|discriminate].
  destruct (findIndex_Some _ _ _ Hidx) as (s & Hi & Hs & _).
  rewrite Hi in H.
  apply bind_Ok in H as (now & w2 & Hnow & H).
  apply bind_Ok in H as (cfg1 & w3 & Hsave & H).
  apply bind_Ok in H as ([] & w4 & Hlog & H).
  injection H as <- <-. injection Hlog as <-.
  apply saveProjectConfig_Ok in Hsave as (Hcfg1 & _ & Hread).
  assert (cfg_services cfg1 = Some (<[i := apply_updates p u now s]> l)) as Hl1
    by (rewrite Hcfg1; reflexivity).
  set (w4 := mkWorld _ _ _).
  assert (Fs.read (fs w4) (Path.resolve (configPath p))
          = inr (Json (DConfig cfg1))) as Hread' by exact Hread.
  apply bool_decide_eq_true in Hs.
  rewrite (loaded_services _ _ _ _ _ Hload Hl).
  rewrite (declared_read _ _ _ _ Hread' Hl1).
  split; [|split; [|split]].
  - rewrite (getService_declared _ _ _ _ _ Hread' Hl1).
    rewrite (find_insert_first _ _ _ _ Hidx); [reflexivity|].
    unfold has_name. cbn [apply_updates svc_name].
    apply bool_decide_eq_true_2, Hs.
  - exact Hs.
  - rewrite list_fmap_insert. cbn [apply_updates svc_name].
    apply list_insert_id. rewrite list_lookup_fmap, Hi. reflexivity.
  - intros s' Hin Hne.
    apply list_elem_of_lookup in Hin as [j Hj].
    apply list_elem_of_lookup. exists j.
    rewrite list_lookup_insert_ne; [exact Hj|].
    intros <-. rewrite Hi in Hj. injection Hj as <-. contradiction.
Qed.

(** *** Supervisor commands *)

Lemma commands_effects evs : commands (effects evs) = commands evs.
Proof.
  induction evs as [|e evs IH]; [reflexivity|].
  destruct e; cbn [effects List.filter is_effect commands];
    fold (effects evs); rewrite ?IH; reflexivity.
Qed.

Lemma pm2Command_Throw args w e w' :
  pm2Command args w = (Throw e, w') -> exists m, e = js "Erreur PM2: " ++ m.
Proof.
  rewrite pm2Command_run. destruct (os _ _ _); [discriminate|].
  intros [= <- _]. eauto.
Qed.

(** A supervisor action followed by the save of the process list. *)
Lemma supervise_steps args (done failed : jsstring) :
  fail_fast
    (try_catch
       (pm2Command args ;; pm2Command (js "save") ;; logger_success done)
       (fun message => throw (failed ++ message)))
    [shell (js "pm2 " ++ args); shell (js "pm2 " ++ js "save")].
Proof.
  apply (fail_fast_rethrow _ (fun m => failed ++ m)).
  fail_fast_tac.
Qed.

Lemma supervise_Throw args (done failed : jsstring) w e w' :
  try_catch
    (pm2Command args ;; pm2Command (js "save") ;; logger_success done)
    (fun message => throw (failed ++ message)) w
  = (Throw e, w') ->
  exists m, e = failed ++ js "Erreur PM2: " ++ m.
Proof.
  unfold try_catch.
  destruct (bind _ _ w) as [[[]|e0] w0] eqn:Run; [discriminate|].
  intros [= <- <-].
  unfold bind in Run.
  destruct (pm2Command args w) as [[out|e1] w1] eqn:P1.
  - destruct (pm2Command (js "save") w1) as [[out2|e2] w2] eqn:P2.
    + discriminate.
    + injection Run as <- _.
      destruct (pm2Command_Throw _ _ _ _ P2) as [m ->]. eauto.
  - injection Run as <- _.
    destruct (pm2Command_Throw _ _ _ _ P1) as [m ->]. eauto.
Qed.

Lemma stopService_steps p n c l s w :
  Fs.read (fs w) (Path.resolve (configPath p)) = inr (Json (DConfig c)) ->
  cfg_services c = Some l ->
  List.find (has_name n) l = Some s ->
  stops_at_failure (stopService p n) w
    [shell (js "pm2 " ++ js "stop " ++ pm2Name_of p n s);
     shell (js "pm2 " ++ js "save")].
Proof.
  intros R Hl Hf.
  pose proof (getService_declared p n c l w R Hl) as G. rewrite Hf in G.
  unfold stopService, stops_at_failure. rewrite (bind_run _ _ _ _ _ G).
  apply (fail_fast_bind _ _ [] _); [apply fail_fast_logger_info|].
  intros _. apply supervise_steps.
Qed.

Lemma pm2Command_ran args w :
  ran w (snd (pm2Command args w)) [shell (js "pm2 " ++ args)].
Proof.
  rewrite pm2Command_run.
  destruct (os _ _ _); cbn [snd];
    match goal with |- ran _ (mkWorld _ (_ ++ ?evs) _) _ =>
      apply (ran_events w evs)
    end.
Qed.

(** The action decides: the save follows it only when it went through. *)
Lemma supervise_run args (done failed : jsstring) w :
  let run :=
    try_catch
      (pm2Command args ;; pm2Command (js "save") ;; logger_success done)
      (fun message => throw (failed ++ message)) w in
  if exits_normally w (js "pm2 " ++ args)
  then ran w (snd run) [shell (js "pm2 " ++ args); shell (js "pm2 " ++ js "save")]
  else ran w (snd run) [shell (js "pm2 " ++ args)]
       /\ exists m, fst run = Throw (failed ++ js "Erreur PM2: " ++ m).
Proof.
  cbv zeta.
  pose proof (pm2Command_ran args w) as R1.
  unfold exits_normally, try_catch. unfold bind at 1 3 5.
  rewrite pm2Command_run in *.
  destruct (os (issuing w _) _ _) as [out|m]; cbn [fst snd] in *.
  - match type of R1 with ran _ ?w1 _ =>
      pose proof (pm2Command_ran (js "save") w1) as R2; set (wa := w1) in *
    end.
    unfold bind. destruct (pm2Command (js "save") wa) as [[out2|e2] w2];
      cbn [fst snd] in *.
    + unfold logger_success, emit. cbn [snd].
      pose proof (ran_events w2 [Log Success done]) as R3.
      exact (ran_trans _ _ _ _ _ R1 (ran_trans _ _ _ _ _ R2 R3)).
    + unfold throw. cbn [snd]. exact (ran_trans _ _ _ _ _ R1 R2).
  - unfold throw. cbn [fst snd]. split; [exact R1 | eauto].
Qed.

(** What stopping and restarting a declared service do. *)
Lemma stop_restart_run p n c l s w :
  Fs.read (fs w) (Path.resolve (configPath p)) = inr (Json (DConfig c)) ->
  cfg_services c = Some l ->
  List.find (has_name n) l = Some s ->
  let pm2Name := pm2Name_of p n s in
  let announced message :=
    mkWorld (fs w) (trace w ++ [Log Info message]) (ticks w) in
  let save := shell (js "pm2 " ++ js "save") in
  let stop := js "pm2 " ++ js "stop " ++ pm2Name in
  let restart := js "pm2 " ++ js "restart " ++ pm2Name in
  (if exits_normally (announced (js "Arrêt du service " ++ n ++ js "...")) stop
   then ran w (snd (stopService p n w)) [shell stop; save]
   else ran w (snd (stopService p n w)) [shell stop]
        /\ exists m,
             fst (stopService p n w)
             = Throw (js "Erreur lors de l'arrêt: " ++ js "Erreur PM2: " ++ m))
  /\ (forall e, fst (stopService p n w) = Throw e ->
      exists m, e = js "Erreur lors de l'arrêt: " ++ js "Erreur PM2: " ++ m)
  /\ (if exits_normally
          (announced (js "Redémarrage du service " ++ n ++ js "...")) restart
      then ran w (snd (restartService p n w)) [shell restart; save]
      else ran w (snd (restartService p n w)) [shell restart]
           /\ exists m,
                fst (restartService p n w)
                = Throw (js "Erreur lors du redémarrage: "
                         ++ js "Erreur PM2: " ++ m))
  /\ (forall e, fst (restartService p n w) = Throw e ->
      exists m,
        e = js "Erreur lors du redémarrage: " ++ js "Erreur PM2: " ++ m).
Proof.
  intros R Hl Hf. cbv zeta.
  pose proof (getService_declared p n c l w R Hl) as G. rewrite Hf in G.
  split; [|split; [|split]].
  - unfold stopService. rewrite (bind_run _ _ _ _ _ G).
    unfold bind at 1 3 5, logger_info at 1 2 3, emit at 1 2 3.
    match goal with |- context [exits_normally ?wl ?cmd] =>
      pose proof (ran_events w [Log Info (js "Arrêt du service " ++ n
                                           ++ js "...")]) as R0;
      pose proof (supervise_run (js "stop " ++ pm2Name_of p n s)
                    (js "Service " ++ n ++ js " arrêté")
                    (js "Erreur lors de l'arrêt: ") wl) as S
    end.
    cbv zeta in S. destruct (exits_normally _ _).
    + exact (ran_trans _ _ _ _ _ R0 S).
    + destruct S as [S Hm]. split; [exact (ran_trans _ _ _ _ _ R0 S) | exact Hm].
  - intros e. unfold stopService. rewrite (bind_run _ _ _ _ _ G).
    unfold bind at 1, logger_info at 1, emit at 1.
    destruct (try_catch _ _ _) as [r w'] eqn:Run. cbn [fst]. intros ->.
    exact (supervise_Throw _ _ _ _ _ _ Run).
  - unfold restartService. rewrite (bind_run _ _ _ _ _ G).
    unfold bind at 1 3 5, logger_info at 1 2 3, emit at 1 2 3.
    match goal with |- context [exits_normally ?wl ?cmd] =>
      pose proof (ran_events w [Log Info (js "Redémarrage du service " ++ n
                                           ++ js "...")]) as R0;
      pose proof (supervise_run (js "restart " ++ pm2Name_of p n s)
                    (js "Service " ++ n ++ js " redémarré")
                    (js "Erreur lors du redémarrage: ") wl) as S
    end.
    cbv zeta in S. destruct (exits_normally _ _).
    + exact (ran_trans _ _ _ _ _ R0 S).
    + destruct S as [S Hm]. split; [exact (ran_trans _ _ _ _ _ R0 S) | exact Hm].
  - intros e. unfold restartService. rewrite (bind_run _ _ _ _ _ G).
    unfold bind at 1, logger_info at 1, emit at 1.
    destruct (try_catch _ _ _) as [r w'] eqn:Run. cbn [fst]. intros ->.
    exact (supervise_Throw _ _ _ _ _ _ Run).
Qed.

(** X22. For a declared service, [stopService] and [restartService] issue the
    supervisor's stop (or restart) of the service's process, and the save
    of the process list only when that command went through: when it
    fails, no save is issued and the call raises the supervisor's error
    under the prefix of the operation. They raise with no other error. *)
Theorem stop_restart_steps p n c l s w :
  Fs.read (fs w) (Path.resolve (configPath p)) = inr (Json (DConfig c)) ->
  cfg_services c = Some l ->
  List.find (has_name n) l = Some s ->
  let pm2Name := pm2Name_of p n s in
  let announced message :=
    mkWorld (fs w) (trace w ++ [Log Info message]) (ticks w) in
  let save := shell (js "pm2 " ++ js "save") in
  let stop := js "pm2 " ++ js "stop " ++ pm2Name in
  let restart := js "pm2 " ++ js "restart " ++ pm2Name in
  (if exits_normally (announced (js "Arrêt du service " ++ n ++ js "...")) stop
   then acted w (snd (stopService p n w)) [shell stop; save]
   else acted w (snd (stopService p n w)) [shell stop]
        /\ exists m,
             fst (stopService p n w)
             = Throw (js "Erreur lors de l'arrêt: " ++ js "Erreur PM2: " ++ m))
  /\ (forall e, fst (stopService p n w) = Throw e ->
      exists m, e = js "Erreur lors de l'arrêt: " ++ js "Erreur PM2: " ++ m)
  /\ (if exits_normally
          (announced (js "Redémarrage du service " ++ n ++ js "...")) restart
      then acted w (snd (restartService p n w)) [shell restart; save]
      else acted w (snd (restartService p n w)) [shell restart]
           /\ exists m,
                fst (restartService p n w)
                = Throw (js "Erreur lors du redémarrage: "
                         ++ js "Erreur PM2: " ++ m))
  /\ (forall e, fst (restartService p n w) = Throw e ->
      exists m,
        e = js "Erreur lors du redémarrage: " ++ js "Erreur PM2: " ++ m).
Proof.
  intros R Hl Hf. cbv zeta.
  pose proof (stop_restart_run p n c l s w R Hl Hf) as H. cbv zeta in H.
  destruct H as (H1 & H2 & H3 & H4).
  split; [|split; [exact H2|split; [|exact H4]]].
  - clear H3. revert H1. destruct (exits_normally _ _); intros H1;
      [exact (ran_acted _ _ _ H1)|].
    destruct H1 as [H1 Hm]. split; [exact (ran_acted _ _ _ H1) | exact Hm].
  - clear H1. revert H3. destruct (exits_normally _ _); intros H3;
      [exact (ran_acted _ _ _ H3)|].
    destruct H3 as [H3 Hm]. split; [exact (ran_acted _ _ _ H3) | exact Hm].
Qed.

(** *** Removing *)

Lemma saveProjectConfig_existing p cfg c0 w :
  valid_name p = true ->
  Fs.read (fs w) (Path.resolve (configPath p)) = inr c0 ->
  exists cfg' w',
    saveProjectConfig p cfg w = (Ok cfg', w')
    /\ cfg_services cfg' = cfg_services cfg
    /\ Fs.read (fs w') (Path.resolve (configPath p)) = inr (Json (DConfig cfg'))
    /\ exists evs, trace w' = trace w ++ evs /\ commands evs = [].
Proof.
  intros V R. rewrite (resolve_configPath p V) in R.
  destruct (write_existing _ _ _ _
              (Json (DConfig (set_updatedAt cfg (ISO (clock (ticks w)))))) R)
    as [n' W].
  rewrite <- (resolve_configPath p V) in W.
  unfold saveProjectConfig, Date_toISOString, Date_now, try_catch, bind,
    writeFileSync, logger_debug, emit, ret, throw.
  cbn [fs trace ticks]. rewrite W.
  cbn [fs trace ticks]. eexists _, _. split; [reflexivity|].
  split; [reflexivity|]. cbn [fs trace].
  split; [eapply read_write, W|].
  eexists. rewrite <- app_assoc. split; reflexivity.
Qed.

Lemma prefix_commands (pre es : list event) :
  pre `prefix_of` es -> commands pre `prefix_of` commands es.
Proof. intros [k ->]. rewrite commands_app. apply prefix_app_r. reflexivity. Qed.

(** X23. [removeService] takes a declared service out of the project's
    document whatever the supervisor does: the stop of its process is
    attempted, then the deletion of the process under the stored
    supervisor name, and failures of either are ignored. The commands
    issued are the stop, the save of the process list when the stop went
    through, and the deletion, in every case. The document is then the
    old list without the first service of that name; when names are
    unique, the service is no longer found. *)
Theorem removeService_best_effort p n c l i s w :
  valid_name p = true ->
  Fs.read (fs w) (Path.resolve (configPath p)) = inr (Json (DConfig c)) ->
  cfg_services c = Some l ->
  findIndex (has_name n) l = Some i ->
  l !! i = Some s ->
  let announced :=
    mkWorld (fs w)
      (trace w ++ [Log Info (js "Arrêt du service " ++ n ++ js "...")])
      (ticks w) in
  let stop := js "pm2 " ++ js "stop " ++ pm2Name_of p n s in
  exists w1 evs,
    removeService p n w = (Ok tt, w1)
    /\ declared w1 p = delete i l
    /\ (NoDup (List.map svc_name l) -> getService p n w1 = (Ok None, w1))
    /\ trace w1 = trace w ++ evs
    /\ commands evs
       = [stop]
         ++ (if exits_normally announced stop
             then [js "pm2 " ++ js "save"] else [])
         ++ [js "pm2 " ++ js "delete "
             ++ default (js "undefined") (svc_pm2Name s)].
Proof.
  intros V R Hl Hidx Hi. cbv zeta.
  assert (List.find (has_name n) l = Some s) as Hf.
  { destruct (List.find (has_name n) l) as [s'|] eqn:F.
    - destruct (findIndex_Some _ _ _ Hidx) as (x & Hx & Fx & Hlt).
      rewrite Hi in Hx. injection Hx as <-.
      clear -F Hidx Hi. revert i Hidx Hi.
      induction l as [|a l IH]; intros i Hidx Hi; [discriminate|].
      simpl in *. destruct (has_name n a).
      + injection Hidx as <-. simpl in Hi. congruence.
      + destruct (findIndex (has_name n) l) as [k|]; [|discriminate].
        injection Hidx as <-. simpl in Hi. eapply IH; eauto.
    - apply findIndex_None in F. congruence. }
  pose proof (stop_restart_run p n c l s w R Hl Hf) as [Hrun _].
  cbv zeta in Hrun.
  assert (exists pre,
            ran w (snd (stopService p n w)) pre
            /\ commands pre
               = [js "pm2 " ++ js "stop " ++ pm2Name_of p n s]
                 ++ (if exits_normally
                          (mkWorld (fs w)
                             (trace w
                              ++ [Log Info (js "Arrêt du service " ++ n
                                            ++ js "...")])
                             (ticks w))
                          (js "pm2 " ++ js "stop " ++ pm2Name_of p n s)
                     then [js "pm2 " ++ js "save"] else []))
    as (pre & Rpre & Cpre).
  { revert Hrun. destruct (exits_normally _ _); intros Hrun.
    - eexists. split; [exact Hrun | reflexivity].
    - destruct Hrun as [Hrun _]. eexists. split; [exact Hrun | reflexivity]. }
  destruct Rpre as [Fstop (e1 & T1 & E1)].
  destruct (stopService p n w) as [r1 w2] eqn:Hstop. cbn [snd] in *.
  assert (exists w2', try_catch (stopService p n) (fun _ => ret tt) w
                      = (Ok tt, w2')
                      /\ fs w2' = fs w /\ trace w2' = trace w2) as (w2' & S2 & F2 & T2).
  { unfold try_catch. rewrite Hstop. destruct r1 as [[]|e]; unfold ret; eauto. }
  pose proof (loadProjectConfig_document p c w R) as Hload.
  match goal with |- context [default ?d (svc_pm2Name s)] =>
    set (del := js "delete " ++ default d (svc_pm2Name s))
  end.
  assert (exists w3, try_catch (pm2Command del ;; ret tt) (fun _ => ret tt) w2'
                     = (Ok tt, w3)
                     /\ fs w3 = fs w2'
                     /\ exists e3, trace w3 = trace w2' ++ e3
                                   /\ commands e3 = [js "pm2 " ++ del])
    as (w3 & S3 & F3 & e3 & T3 & C3).
  { unfold try_catch, bind. rewrite pm2Command_run.
    destruct (os _ _ _); unfold ret; cbn [fs trace ticks];
      eexists; (split; [reflexivity|]); (split; [reflexivity|]);
      eexists; split; reflexivity. }
  assert (Fs.read (fs w3) (Path.resolve (configPath p))
          = inr (Json (DConfig c))) as R3 by (rewrite F3, F2; exact R).
  destruct (saveProjectConfig_existing p (set_services c (delete i l)) _ w3 V R3)
    as (cfg' & w4 & S4 & Hsv & R4 & e4 & T4 & C4).
  exists (mkWorld (fs w4)
            (trace w4 ++ [Log Success (js "Service " ++ n
                                       ++ js " supprimé du projet " ++ p)])
            (ticks w4)),
         (e1 ++ e3 ++ e4 ++ [Log Success (js "Service " ++ n
                                          ++ js " supprimé du projet " ++ p)]).
  split; [|split; [|split; [|split]]].
  - unfold removeService. rewrite (bind_run _ _ _ _ _ Hload).
    unfold services_of. rewrite Hl. unfold bind at 1, ret at 1.
    rewrite Hidx, Hi.
    rewrite (bind_run _ _ _ _ _ S2).
    fold del. rewrite (bind_run _ _ _ _ _ S3).
    rewrite (bind_run _ _ _ _ _ S4). reflexivity.
  - eapply declared_read; [exact R4|]. rewrite Hsv. reflexivity.
  - intros ND.
    assert (cfg_services cfg' = Some (delete i l)) as Hl'
      by (rewrite Hsv; reflexivity).
    match goal with |- getService p n ?wf = _ =>
      rewrite (getService_declared p n cfg' (delete i l) wf R4 Hl')
    end.
    rewrite (find_delete_NoDup _ _ _ ND Hidx). reflexivity.
  - cbn [trace]. rewrite T4, T3, T2, T1. rewrite <- !app_assoc. reflexivity.
  - rewrite !commands_app, C3, C4. cbn [commands].
    rewrite <- (commands_effects e1), E1, Cpre, app_nil_r, <- !app_assoc.
    reflexivity.
Qed.

(** *** Setup commands *)

(** One setup command: it is issued in the directory, and its failure is
    raised again under the name of the command. *)
Lemma setup_step_went (dir cmd : jsstring) w :
  let run :=
    (logger_info (js "  → " ++ cmd) ;;
     try_catch
       (execCommand cmd (Some dir) ;; logger_success (js "  ✓ " ++ cmd))
       (fun message =>
          throw (js "Erreur lors de l'exécution de " ++ [34] ++ cmd
                 ++ [34] ++ js ": " ++ message))) w in
  match fst run with
  | Ok _ => went w (snd run) [(Exec cmd (Some dir), None)]
  | Throw e =>
      exists m,
        went w (snd run) [(Exec cmd (Some dir), Some m)]
        /\ e = js "Erreur lors de l'exécution de " ++ [34] ++ cmd ++ [34]
               ++ js ": " ++ m
  end.
Proof.
  cbv zeta.
  destruct (bind _ _ w) as [r w'] eqn:Run. cbn [fst snd].
  unfold bind at 1, logger_info at 1, emit at 1 in Run.
  pose proof (went_log w Info (js "  → " ++ cmd)) as R0.
  unfold emit in R0. cbn [snd] in R0.
  match type of Run with try_catch _ _ ?w1 = _ => set (wl := w1) in * end.
  pose proof (execCommand_went cmd (Some dir) wl) as R1.
  unfold try_catch, bind in Run. rewrite execCommand_run in *.
  destruct (os _ _ _) as [out|m]; cbn [fst snd failure] in *.
  - unfold logger_success, emit in Run. injection Run as <- <-.
    match type of R1 with went _ ?w1 _ =>
      pose proof (went_log w1 Success (js "  ✓ " ++ cmd)) as R2
    end.
    unfold emit in R2. cbn [snd] in R2.
    exact (went_trans _ _ _ _ _ R0 (went_trans _ _ _ _ _ R1 R2)).
  - unfold throw in Run. injection Run as <- <-.
    exists m. split; [exact (went_trans _ _ _ _ _ R0 R1) | reflexivity].
Qed.

(** What the loop over the setup commands does, from its first command
    on: all of them exit normally, or those up to the first that fails
    are issued. *)
Lemma setup_loop_went (dir : jsstring) (cmds : list jsstring) w :
  let run :=
    for_of cmds
      (fun cmd =>
         logger_info (js "  → " ++ cmd) ;;
         try_catch
           (execCommand cmd (Some dir) ;; logger_success (js "  ✓ " ++ cmd))
           (fun message =>
              throw (js "Erreur lors de l'exécution de " ++ [34] ++ cmd
                     ++ [34] ++ js ": " ++ message))) w in
  let step cmd := Exec cmd (Some dir) in
  match fst run with
  | Ok _ => went w (snd run) (passed (List.map step cmds))
  | Throw e =>
      exists done cmd rest m,
        cmds = done ++ cmd :: rest
        /\ went w (snd run)
             (passed (List.map step done) ++ [(step cmd, Some m)])
        /\ e = js "Erreur lors de l'exécution de " ++ [34] ++ cmd ++ [34]
               ++ js ": " ++ m
  end.
Proof.
  cbv zeta.
  set (body := fun cmd : jsstring => bind _ _).
  revert w. induction cmds as [|cmd cmds IH]; intros w.
  - cbn [for_of fst snd List.map passed]. apply went_refl.
  - cbn [for_of]. unfold bind.
    pose proof (setup_step_went dir cmd w) as R1. cbv zeta in R1.
    fold (body cmd) in R1.
    destruct (body cmd w) as [[[]|e] w1]; cbn [fst snd] in *.
    + specialize (IH w1).
      destruct (for_of cmds body w1) as [[[]|e] w2]; cbn [fst snd] in *.
      * exact (went_trans _ _ _ _ _ R1 IH).
      * destruct IH as (done & cmd' & rest & m & -> & Rr & ->).
        exists (cmd :: done), cmd', rest, m.
        split; [reflexivity|]. split; [|reflexivity].
        exact (went_trans _ _ _ _ _ R1 Rr).
    + destruct R1 as (m & R1 & ->).
      exists [], cmd, cmds, m. split; [reflexivity|]. split; [exact R1|].
      reflexivity.
Qed.

(** X24. [runSetupCommands] runs the service's setup commands in the order of
    the list, each in the service's directory, each one only when the one
    before it exited normally. It returns once all have exited normally;
    it raises at the first that fails, the commands after it not being
    run, with an error that names the command that failed and carries its
    message. With no setup command it does nothing at all. *)
Theorem runSetupCommands_fail_fast service w :
  let cmds := or_list (svc_setupCommands service) [] in
  let step cmd := Exec cmd (Some (svc_directory service)) in
  let r := fst (runSetupCommands service w) in
  let w' := snd (runSetupCommands service w) in
  match r with
  | Ok _ => issued w w' (passed (List.map step cmds))
  | Throw e =>
      exists done cmd rest m,
        cmds = done ++ cmd :: rest
        /\ issued w w' (passed (List.map step done) ++ [(step cmd, Some m)])
        /\ e = js "Erreur lors de l'exécution de " ++ [34] ++ cmd ++ [34]
               ++ js ": " ++ m
  end
  /\ (cmds = [] -> w' = w).
Proof.
  cbv zeta. unfold runSetupCommands.
  destruct (or_list (svc_setupCommands service) []) as [|cmd cmds] eqn:E.
  - cbn [fst snd List.map passed]. split; [|reflexivity].
    apply went_issued, went_refl.
  - split; [|discriminate].
    pose proof (went_log w Info
                  (js "Exécution des commandes de setup pour "
                   ++ svc_name service ++ js "...")) as R0.
    unfold emit in R0. cbn [snd] in R0.
    match type of R0 with went _ ?wl _ =>
      pose proof (setup_loop_went (svc_directory service) (cmd :: cmds) wl) as L
    end.
    cbv zeta in L.
    unfold bind, logger_info, emit.
    match type of L with match fst ?run with _ => _ end =>
      change (match fst run with
              | Ok _ =>
                  issued w (snd run)
                    (passed
                       (List.map (fun c => Exec c (Some (svc_directory service)))
                          (cmd :: cmds)))
              | Throw e =>
                  exists done cmd' rest m,
                    cmd :: cmds = done ++ cmd' :: rest
                    /\ issued w (snd run)
                         (passed
                            (List.map
                               (fun c => Exec c (Some (svc_directory service)))
                               done)
                          ++ [(Exec cmd' (Some (svc_directory service)),
                               Some m)])
                    /\ e = js "Erreur lors de l'exécution de " ++ [34] ++ cmd'
                           ++ [34] ++ js ": " ++ m
              end);
      destruct run as [[[]|e] w3]
    end; cbn [fst snd] in *.
    + exact (went_issued _ _ _ (went_trans _ _ _ _ _ R0 L)).
    + destruct L as (done & cmd' & rest & m & Hc & Rr & ->).
      exists done, cmd', rest, m. split; [exact Hc|]. split; [|reflexivity].
      exact (went_issued _ _ _ (went_trans _ _ _ _ _ R0 Rr)).
Qed.

(** *** Starting every service *)

Lemma total_for_of {A} (xs : list A) (body : A -> M unit) :
  (forall x, total (body x)) -> total (for_of xs body).
Proof.
  intros Hb. induction xs as [|x xs IH]; intros w; cbn [for_of].
  - eexists _, _. reflexivity.
  - destruct (Hb x w) as ([] & w1 & E). rewrite (bind_run _ _ _ _ _ E).
    apply IH.
Qed.

Lemma keeps_fs_runSetupCommands s : keeps_fs (runSetupCommands s).
Proof. unfold runSetupCommands. keeps_fs_tac. Qed.

Lemma keeps_fs_startService p n rs : keeps_fs (startService p n rs).
Proof.
  unfold startService.
  pose proof (keeps_fs_getService p n).
  pose proof keeps_fs_runSetupCommands.
  keeps_fs_tac.
Qed.

(** A loop whose body never raises goes through the whole list. *)
Lemma for_of_fold {A} (xs : list A) (body : A -> M unit)
    (after : World -> A -> World) w :
  (forall x w0, body x w0 = (Ok tt, after w0 x)) ->
  for_of xs body w = (Ok tt, fold_left after xs w).
Proof.
  intros Hb. revert w. induction xs as [|x xs IH]; intros w; [reflexivity|].
  cbn [for_of fold_left]. rewrite (bind_run _ _ _ _ _ (Hb x w)). apply IH.
Qed.

(** X25. With at least one declared service, [startAllServices] never raises.
    After its opening message it calls [startService] on every declared
    service, in the order of the document, each from the world the one
    before has left; a call that raises, for a missing directory, a failed
    setup command or a supervisor error, is logged as an error with the
    name of the service and the message, and the next service is tried.
    The call ends with its closing message in every case. *)
Theorem startAllServices_best_effort p runSetup c l w :
  Fs.read (fs w) (Path.resolve (configPath p)) = inr (Json (DConfig c)) ->
  cfg_services c = Some l ->
  l <> [] ->
  let logged w0 e := mkWorld (fs w0) (trace w0 ++ [e]) (ticks w0) in
  let attempt w0 service :=
    match startService p (svc_name service) runSetup w0 with
    | (Ok _, w1) => w1
    | (Throw e, w1) =>
        logged w1 (Log Error (js "Erreur pour " ++ svc_name service
                              ++ js ": " ++ e))
    end in
  startAllServices p runSetup w
  = (Ok tt,
     logged
       (fold_left attempt l
          (logged w (Log Info (js "Démarrage de tous les services de " ++ p
                               ++ js "..."))))
       (Log Success (js "Tous les services ont été traités"))).
Proof.
  intros R Hl Hne. cbv zeta.
  destruct (listServices_declared p w) as (w1 & e1 & E1 & _ & _ & _ & Hw).
  rewrite (Hw _ R) in E1. clear Hw w1 e1.
  assert (declared w p = l) as D
    by (unfold declared; rewrite R, Hl; reflexivity).
  rewrite D in E1.
  unfold startAllServices. rewrite (bind_run _ _ _ _ _ E1).
  destruct l as [|s l]; [contradiction|].
  unfold bind at 1, logger_info at 1, emit at 1.
  match goal with |- context [for_of ?xs ?body] =>
    assert (forall x w0,
              body x w0
              = (Ok tt,
                 match startService p (svc_name x) runSetup w0 with
                 | (Ok _, w1) => w1
                 | (Throw e, w1) =>
                     mkWorld (fs w1)
                       (trace w1
                        ++ [Log Error (js "Erreur pour " ++ svc_name x
                                       ++ js ": " ++ e)])
                       (ticks w1)
                 end)) as Hb
  end.
  { intros x w0. unfold try_catch.
    destruct (startService p (svc_name x) runSetup w0) as [[[]|e] w1];
      reflexivity. }
  rewrite (bind_run _ _ _ _ _ (for_of_fold _ _ _ _ Hb)). reflexivity.
Qed.

(** *** Logs *)

(** X26. For a declared service, [getServiceLogs] issues the one supervisor
    command that prints the last lines of the service's process, fifty
    when no number is given, and returns its output; when the command
    fails it raises with the failure under both the module's and the
    shell's prefixes. No file is touched. (The number of lines is taken
    below 10^21, where it is printed in decimal.) *)
Theorem getServiceLogs_steps p n lines c l s w :
  default 50 lines < 10 ^ 21 ->
  Fs.read (fs w) (Path.resolve (configPath p)) = inr (Json (DConfig c)) ->
  cfg_services c = Some l ->
  List.find (has_name n) l = Some s ->
  let command :=
    js "pm2 logs " ++ pm2Name_of p n s ++ js " --nostream --lines "
    ++ JS.decimal (default 50 lines) in
  let r := fst (getServiceLogs p n lines w) in
  let w' := snd (getServiceLogs p n lines w) in
  ran w w' [shell command]
  /\ match os (issuing w command) command None with
     | Exit0 out => r = Ok (content_trim out)
     | Failed m =>
         r = Throw (js "Erreur lors de la récupération des logs: "
                    ++ js "Impossible de récupérer les logs: " ++ m)
     end.
Proof.
  intros _ R Hl Hf. cbv zeta.
  pose proof (getService_declared p n c l w R Hl) as G. rewrite Hf in G.
  destruct (getServiceLogs p n lines w) as [r w'] eqn:Run. cbn [fst snd].
  unfold getServiceLogs in Run. rewrite (bind_run _ _ _ _ _ G) in Run.
  unfold getPm2Logs, try_catch in Run. cbn [default] in Run.
  match type of Run with context [execCommand ?cmd None w] =>
    pose proof (execCommand_ran cmd None w) as Rc
  end.
  rewrite execCommand_run in *.
  destruct (os _ _ _) as [out|m]; cbn [snd] in Rc.
  - injection Run as <- <-. split; [exact Rc | reflexivity].
  - unfold throw in Run. injection Run as <- <-.
    split; [exact Rc | reflexivity].
Qed.

(** ** Deleting a project: the deletion of the account *)

(** C4 (as amended). In [deleteProject] the deletion of the SFTP user
    comes after the supervisor's processes were deleted and before the
    registry is touched, and it is not guarded. It returns normally when
    the account is unknown (only the lookup is issued) and, for a known
    account, when the account removal ([userdel]) exits normally,
    whatever the process-kill step ([pkill]) did: its failure is
    swallowed. The project is then removed from the registry and the SSH
    configuration regenerated for the reduced list: the registry file is
    written without the project, [updateSSHConfig] is run on the reduced
    list, and [deleteProject] raises what it raises and returns otherwise.
    When the account is known and its removal fails, [deleteProject]
    raises that error at that point: the registry file and the SSH
    configuration are as they were. *)
Theorem deleteProject_user_deletion name deleteFiles w r ps project :
  Fs.read (fs w) (Path.resolve PROJECTS_CONFIG_FILE)
  = inr (Json (DRegistry r)) ->
  reg_projects r = Some ps ->
  List.find (fun p => bool_decide (prj_name p = name)) ps = Some project ->
  (forall s,
     Fs.read (fs w) (Path.resolve (configPath name)) = inr (Text s) ->
     JSON.accepts s = false) ->
  let user := SFTP_USER_PREFIX ++ name in
  let announced :=
    mkWorld (fs w)
      (trace w ++ [Log Info (js "Suppression du projet " ++ name ++ js "...")])
      (ticks w) in
  let wa := snd (deleteProject_processes name announced) in
  let removal := fst (deleteSftpUser name wa) in
  let wu := snd (deleteSftpUser name wa) in
  let reduced := without name ps in
  let run := deleteProject name deleteFiles w in
  (if exits_normally_sync wa (js "id " ++ user)
   then exists kill del,
          issued wa wu [(shell (js "id " ++ user), None);
                        (shell (js "pkill -u " ++ user), kill);
                        (shell (js "userdel " ++ user), del)]
          /\ removal = match del with None => Ok tt | Some m => Throw m end
   else removal = Ok tt
        /\ exists unknown, issued wa wu [(shell (js "id " ++ user), Some unknown)])
  /\ match removal with
     | Ok _ =>
         let ws := snd (saveProjects reduced wu) in
         fst (saveProjects reduced wu) = Ok tt
         /\ Fs.read (fs ws) (Path.resolve PROJECTS_CONFIG_FILE)
            = inr (Json (DRegistry
                           (mkRegistry (Some reduced)
                                       (Some (ISO (clock (ticks wu)))))))
         /\ match updateSSHConfig reduced ws with
            | (Throw e, wx) => run = (Throw e, wx)
            | (Ok _, wx) =>
                fst run = Ok tt
                /\ exists tail, trace (snd run) = trace wx ++ tail
            end
     | Throw e =>
         run = (Throw e, wu)
         /\ Fs.read (fs wu) (Path.resolve PROJECTS_CONFIG_FILE)
            = inr (Json (DRegistry r))
         /\ Fs.read (fs wu) (Path.resolve SSH_CONFIG_PATH)
            = Fs.read (fs w) (Path.resolve SSH_CONFIG_PATH)
     end.
Proof.
  intros Hreg Hps Hfind _. cbv zeta.
  set (announced := mkWorld (fs w) _ (ticks w)).
  destruct (deleteProject name deleteFiles w) as [rr ww] eqn:Run.
  unfold deleteProject in Run.
  rewrite (bind_run _ _ _ _ _ (getProject_registered name _ _ _ Hreg Hps)), Hfind
    in Run.
  unfold bind at 1, logger_info at 1, emit at 1 in Run.
  fold announced in Run.
  change (try_catch _ _) with (deleteProject_processes name) in Run.
  assert (exists wa, deleteProject_processes name announced = (Ok tt, wa))
    as (wa & Ea).
  { unfold deleteProject_processes.
    match goal with |- context [try_catch ?m ?h announced] =>
      destruct (total_try_catch m h
                  (fun e => ltac:(intros w'; eexists _, _; reflexivity))
                  announced) as ([] & wa & Ea)
    end.
    exists wa. exact Ea. }
  assert (fs wa = fs w) as Hfa.
  { assert (keeps_fs (deleteProject_processes name)) as K
      by (unfold deleteProject_processes; keeps_fs_tac).
    specialize (K announced). rewrite Ea in K. exact K. }
  rewrite (bind_run _ _ _ _ _ Ea) in Run. rewrite Ea. cbn [snd].
  pose proof (deleteSftpUser_went name wa) as D. cbv zeta in D.
  pose proof (keeps_fs_deleteSftpUser name wa) as Kd.
  destruct (deleteSftpUser name wa) as [removal wu] eqn:Eu.
  cbn [fst snd] in *.
  split.
  - destruct (exits_normally_sync wa _).
    + destruct D as (kill & del & W & Hr). exists kill, del.
      split; [exact (went_issued _ _ _ W) | exact Hr].
    + destruct D as (Hr & (unknown & W) & _). split; [exact Hr|].
      exists unknown. exact (went_issued _ _ _ W).
  - clear D. destruct removal as [[]|e].
    + rewrite (bind_run _ _ _ _ _ Eu) in Run.
      assert (Fs.read (fs wu) (Path.resolve PROJECTS_CONFIG_FILE)
              = inr (Json (DRegistry r))) as Hreg'
        by (rewrite Kd, Hfa; exact Hreg).
      rewrite (bind_run _ _ _ _ _ (loadProjects_document _ _ Hreg')) in Run.
      cbn [document_projects] in Run. rewrite Hps in Run. cbn [or_list] in Run.
      fold (without name ps) in Run.
      destruct (saveProjects_existing (without name ps) _ wu Hreg')
        as (ws & Es & Hread & Htr).
      rewrite (bind_run _ _ _ _ _ Es) in Run. rewrite Es. cbn [fst snd].
      split; [reflexivity|]. split; [exact Hread|].
      destruct (updateSSHConfig (without name ps) ws) as [[[]|e] wx] eqn:Ex.
      * rewrite (bind_run _ _ _ _ _ Ex) in Run.
        revert Run. unfold bind, existsSync, rmSync, logger_success, emit, ret.
        destruct deleteFiles; [destruct (bool_decide _)|];
          cbn [fs trace ticks]; intros Run; injection Run as <- <-;
          cbn [trace fst snd]; (split; [reflexivity|]);
          rewrite <- ?app_assoc; eauto.
      * rewrite (bind_throw _ _ _ _ _ Ex) in Run. symmetry. exact Run.
    + rewrite (bind_throw _ _ _ _ _ Eu) in Run.
      split; [symmetry; exact Run|].
      rewrite Kd, Hfa. split; [exact Hreg | reflexivity].
Qed.
End Tool.

(** * The properties on the concrete host *)

Import Scenario.

(** ** The fenced block *)



(** A start marker left without its end marker is not excised: the
    regenerated text then has two start markers. *)
Example regenerate_unpaired_marker :
  JS.occurrences SFTP_CONFIG_MARKER
    (regenerate (js "Port 22" ++ nl ++ SFTP_CONFIG_MARKER ++ nl) [demo])
  = 2%nat.
Proof. vm_compute. reflexivity. Qed.

(** Run on its own output, the regeneration reproduces it. *)
Example regenerate_twice :
  regenerate (regenerate plain_sshd [demo]) [demo]
  = regenerate plain_sshd [demo].
Proof. vm_compute. reflexivity. Qed.

(** ** Backup, validation, restart *)

(** A run on the host: the copy, the write, the check, the restart. *)
Example updateSSHConfig_run_effects :
  effects (trace (snd (updateSSHConfig clock (os [] []) stringify [demo] w0)))
  = [FsCopy SSH_CONFIG_PATH (js "/etc/ssh/sshd_config.backup.1700000000000");
     FsWrite SSH_CONFIG_PATH (Text (regenerate plain_sshd [demo]));
     Exec (js "sshd -t") None;
     Exec (js "systemctl restart sshd") None].
Proof. vm_compute. reflexivity. Qed.

(** When the daemon rejects the file, the run raises and stops there. *)
Example updateSSHConfig_run_invalid :
  let run :=
    updateSSHConfig clock (os [js "sshd -t"] []) stringify [demo] w0 in
  fst run = Throw (js "La configuration SSH générée est invalide")
  /\ commands (trace (snd run)) = [js "sshd -t"].
Proof. vm_compute. split; reflexivity. Qed.

(** ** Duplicate project *)

Lemma createProject_duplicate_witness :
  createProject clock (os [] []) stringify (js "demo") (js "p@ssw0rd1") w0
  = (Throw (js "Le projet " ++ js "demo" ++ js " existe déjà"), w0).
Proof.
  apply (createProject_duplicate clock (os [] []) stringify (js "demo")
           (js "p@ssw0rd1") w0 (mkRegistry (Some [demo]) (Some t0)) [demo]).
  - vm_compute. reflexivity.
  - reflexivity.
  - repeat constructor.
  - vm_compute. left.
Defined.

(** ** Starting a service *)



(** A failing setup command ends the call before the supervisor is asked
    anything. *)
Example startService_failed_setup :
  let api :=
    mkService (js "api") (js "/var/www/demo/sites/api")
              (Some [js "npm install"]) (js "node server.js") []
              (Some (js "demo-api")) (Some t0) None in
  commands
    (trace (snd (startService clock (os [js "npm install"] [])
                   (js "demo") (js "api") true
                   (world plain_sshd [demo] [api]))))
  = [js "npm install"].
Proof. vm_compute. reflexivity. Qed.

(** ** Directory of an added service *)

Lemma addService_getService_directory_witness :
  let sc := mkServiceConfig (js "blog") (js "blog/public") None None None in
  let run := addService clock (js "demo") sc w0 in
  exists svc,
    fst run = Ok svc
    /\ getService clock (js "demo") (js "blog") (snd run)
       = (Ok (Some svc), snd run)
    /\ svc_directory svc = js "/var/www/demo/sites/blog/public".
Proof.
  cbv zeta.
  set (sc := mkServiceConfig (js "blog") (js "blog/public") None None None).
  destruct (addService clock (js "demo") sc w0) as [[svc|e] w1] eqn:Run;
    [|vm_compute in Run; discriminate].
  destruct (addService_getService_directory clock (js "demo") sc svc w0 w1 Run)
    as (Hget & _ & _ & Hplain).
  exists svc. split; [reflexivity|]. split; [exact Hget|].
  rewrite (Hplain [js "blog"; js "public"]).
  - vm_compute. reflexivity.
  - reflexivity.
  - discriminate.
  - repeat (apply Forall_cons_2 || apply Forall_nil_2);
      apply plain_segmentb_plain; vm_compute; reflexivity.
  - vm_compute. reflexivity.
Defined.

(** C7, as stated, fails for a relative directory that normalisation
    rewrites: [../shared] under [demo] is stored as
    [/var/www/demo/shared]. *)
Lemma addService_directory_normalised :
  exists svc w1,
    addService clock (js "demo")
      (mkServiceConfig (js "blog") (js "../shared") None None None) w0
    = (Ok svc, w1)
    /\ getService clock (js "demo") (js "blog") w1 = (Ok (Some svc), w1)
    /\ svc_directory svc = js "/var/www/demo/shared"
    /\ svc_directory svc
       <> BASE_PATH ++ js "/" ++ js "demo" ++ js "/sites/" ++ js "../shared".
Proof.
  eexists _, _. split; [vm_compute; reflexivity|].
  split; [vm_compute; reflexivity|].
  split; [vm_compute; reflexivity|].
  vm_compute. discriminate.
Qed.

(** ** Stopping all services *)

(** The stop of [web] fails; [api] before it and [worker] after it are
    attempted all the same, and the call returns normally. *)
Lemma stopAllServices_attempts_all_witness :
  exists w' evs,
    stopAllServices clock (os [stop_command (js "demo-web")] []) (js "demo") w0
    = (Ok tt, w')
    /\ trace w' = trace w0 ++ evs
    /\ List.filter is_stop_command (commands evs)
       = [stop_command (js "demo-api"); stop_command (js "demo-web");
          stop_command (js "demo-worker")].
Proof.
  apply (stopAllServices_attempts_all clock
           (os [stop_command (js "demo-web")] []) (js "demo")
           (demo_config [service "api"; service "web"; service "worker"])
           [service "api"; service "web"; service "worker"] w0).
  - vm_compute. reflexivity.
  - reflexivity.
  - refine (bool_decide_unpack
              (NoDup (List.map svc_name
                        [service "api"; service "web"; service "worker"])) _).
    vm_compute. exact I.
Defined.

Example stopAllServices_commands :
  commands
    (trace (snd (stopAllServices clock (os [stop_command (js "demo-web")] [])
                   (js "demo") w0)))
  = [stop_command (js "demo-api"); js "pm2 " ++ js "save";
     stop_command (js "demo-web");
     stop_command (js "demo-worker"); js "pm2 " ++ js "save"].
Proof. vm_compute. reflexivity. Qed.

(** ** No service *)

Lemma no_service_start_raises_stop_returns_witness :
  startAllServices clock (os [] []) (js "demo") true w_bare
  = (Throw (js "Aucun service configuré pour ce projet"), w_bare)
  /\ stopAllServices clock (os [] []) (js "demo") w_bare = (Ok tt, w_bare).
Proof.
  destruct (no_service_start_raises_stop_returns clock (os [] []) (js "demo")
              true w_bare)
    as (w1 & evs & Hstart & Hstop & _ & _ & Hsame).
  { intros s Hs. vm_compute in Hs. discriminate. }
  { vm_compute. reflexivity. }
  rewrite Hstart, Hstop.
  rewrite (Hsame (DConfig (demo_config [])));
    [split; reflexivity | vm_compute; reflexivity].
Defined.

(** ** The loaders *)

Lemma loaders_degrade_without_raising_witness :
  fst (loadProjects garbled) = Ok []
  /\ fst (loadProjectConfig clock (js "demo") garbled)
     = Ok (mkProjectConfig (Some (js "demo")) None None (Some [])
                           (Some (ISO (clock 0))) None).
Proof.
  pose proof (loaders_degrade_without_raising clock (js "demo") garbled) as H.
  cbv zeta in H.
  assert (Fs.read (fs garbled) (Path.resolve PROJECTS_CONFIG_FILE)
          = inr (Text (js "{ projects: oops"))) as R1
    by (vm_compute; reflexivity).
  assert (Fs.read (fs garbled) (Path.resolve (configPath (js "demo")))
          = inr (Text (js "<html>"))) as R2
    by (vm_compute; reflexivity).
  rewrite R1, R2 in H.
  destruct H as [[H1 _] [H2 _]].
  - intros s [= <-]. vm_compute. reflexivity.
  - intros s [= <-]. vm_compute. reflexivity.
  - split; [exact H1 | exact H2].
Defined.

(** A registry file that is not JSON gives the empty list and an error
    line. *)
Example loadProjects_malformed :
  let w := mkWorld (put_file PROJECTS_CONFIG_FILE (Text (js "{ projects: oops"))
                      (fs w0)) [] 0 in
  fst (loadProjects w) = Ok []
  /\ trace (snd (loadProjects w))
     = [Log Error (js "Erreur lors du chargement des projets: "
                   ++ js "Unexpected token in JSON")].
Proof. vm_compute. split; reflexivity. Qed.

(** A project without a document gets the default one. *)
Example loadProjectConfig_absent :
  fst (loadProjectConfig clock (js "ghost") w0)
  = Ok (mkProjectConfig (Some (js "ghost")) None None (Some [])
                        (Some (ISO 1700000000000)) None).
Proof. vm_compute. reflexivity. Qed.

(** ** Deleting a project *)

(** The process-kill step fails and the account removal succeeds: the
    deletion goes through. *)
Lemma deleteProject_user_deletion_witness :
  fst (deleteProject clock (os [js "pkill -u sftp_demo"] []) stringify
         (js "demo") false w0)
  = Ok tt.
Proof.
  destruct (deleteProject_user_deletion clock (os [js "pkill -u sftp_demo"] [])
              stringify (js "demo") false w0
              (mkRegistry (Some [demo]) (Some t0)) [demo] demo)
    as [_ H].
  - vm_compute. reflexivity.
  - reflexivity.
  - vm_compute. reflexivity.
  - intros s Hs. vm_compute in Hs. discriminate.
  - cbv zeta in H.
    match type of H with
    | match ?x with _ => _ end =>
        assert (x = Ok tt) as E by (vm_compute; reflexivity);
        rewrite E in H
    end.
    destruct H as (_ & _ & H).
    match type of H with
    | match ?x with _ => _ end => destruct x as [[[]|e] wx] eqn:Ex
    end.
    + destruct H as [H _]. exact H.
    + apply (f_equal fst) in Ex. vm_compute in Ex. discriminate Ex.
Defined.

Example deleteProject_pkill_failure_run :
  let run :=
    deleteProject clock (os [js "pkill -u sftp_demo"] []) stringify
      (js "demo") false w0 in
  fst run = Ok tt
  /\ fst (loadProjects (snd run)) = Ok []
  /\ commands (trace (snd run))
     = [js "pm2 delete demo-api"; js "pm2 delete demo-web";
        js "pm2 delete demo-worker"; js "id sftp_demo";
        js "pkill -u sftp_demo"; js "userdel sftp_demo"; js "sshd -t";
        js "systemctl restart sshd"].
Proof. vm_compute. repeat split; reflexivity. Qed.

(** C4, as stated, fails when the deletion of the user fails at the
    account removal: [deleteProject] raises there, the registry still
    lists [demo], the SSH configuration is not rewritten, and no command
    follows [userdel]. *)
Lemma deleteProject_userdel_failure_keeps_registry :
  fst (deleteProject clock (os [js "userdel sftp_demo"] []) stringify
         (js "demo") false w0)
  = Throw (js "exit code 1")
  /\ Fs.read
       (fs (snd (deleteProject clock (os [js "userdel sftp_demo"] [])
                   stringify (js "demo") false w0)))
       (Path.resolve SSH_CONFIG_PATH)
     = inr (Text plain_sshd)
  /\ fst (loadProjects
            (snd (deleteProject clock (os [js "userdel sftp_demo"] [])
                    stringify (js "demo") false w0)))
     = Ok [demo]
  /\ commands
       (trace (snd (deleteProject clock (os [js "userdel sftp_demo"] [])
                      stringify (js "demo") false w0)))
     = [js "pm2 delete demo-api"; js "pm2 delete demo-web";
        js "pm2 delete demo-worker"; js "id sftp_demo";
        js "pkill -u sftp_demo"; js "userdel sftp_demo"].
Proof. repeat split; vm_compute; reflexivity. Qed.

(** ** Derived supervisor names *)

(** On a fresh host, the service [c] of project [a-b] and the service
    [b-c] of project [a] are added; each carries its derived name. *)
Lemma pm2Name_derived_and_stable_witness :
  Forall (fun s => svc_pm2Name s = Some (js "a-b" ++ js "-" ++ svc_name s))
    (declared
       (perform_all clock (os [] [])
          [AddService (js "a-b") (request "c");
           AddService (js "a") (request "b-c")] fresh)
       (js "a-b")).
Proof.
  apply Forall_forall. intros s Hs.
  destruct (pm2Name_derived_and_stable clock (os [] []))
    as (_ & _ & Hinv & Hone).
  refine (proj1 (Hone _ (js "a-b") s s _ _ Hs Hs)).
  - apply Hinv.
    + repeat (apply Forall_cons_2 || apply Forall_nil_2); reflexivity.
    + apply pm2_invariant_no_document. intros p. apply declared_empty_tree.
  - reflexivity.
Defined.

(** C9, as stated, fails across projects: both services above are
    supervised under the name [a-b-c]. *)
Lemma pm2Name_shared_across_projects :
  exists s1 s2,
    declared
      (perform_all clock (os [] [])
         [AddService (js "a-b") (request "c");
          AddService (js "a") (request "b-c")] fresh)
      (js "a-b") = [s1]
    /\ declared
         (perform_all clock (os [] [])
            [AddService (js "a-b") (request "c");
             AddService (js "a") (request "b-c")] fresh)
         (js "a") = [s2]
    /\ svc_name s1 = js "c" /\ svc_name s2 = js "b-c"
    /\ svc_pm2Name s1 = Some (js "a-b-c")
    /\ svc_pm2Name s2 = Some (js "a-b-c").
Proof.
  eexists _, _. split; [vm_compute; reflexivity|].
  split; [vm_compute; reflexivity|].
  repeat split; vm_compute; reflexivity.
Qed.

(** ** The further properties on the concrete host *)

(** Once the block is written for [demo], the tool finds the daemon
    configured. *)
Lemma isSftpConfigured_after_update_witness :
  exists old,
    Fs.read (fs w0) (Path.resolve SSH_CONFIG_PATH) = inr old
    /\ isSftpConfigured stringify
         (snd (updateSSHConfig clock (os [] []) stringify [demo] w0))
       = (Ok true, snd (updateSSHConfig clock (os [] []) stringify [demo] w0)).
Proof.
  apply (isSftpConfigured_after_update clock (os [] []) stringify [demo] w0).
  vm_compute. reflexivity.
Defined.

(** Two runs in a row on the host. *)
Lemma updateSSHConfig_idempotent_witness :
  let w1 := snd (updateSSHConfig clock (os [] []) stringify [demo] w0) in
  let w2 := snd (updateSSHConfig clock (os [] []) stringify [demo; demo] w1) in
  Fs.read (fs w2) (Path.resolve SSH_CONFIG_PATH)
  = Fs.read (fs w1) (Path.resolve SSH_CONFIG_PATH)
  /\ Fs.read (fs w1) (Path.resolve SSH_CONFIG_PATH)
     = inr (Text (JS.trimEnd (utf8 stringify (Text plain_sshd))
                  ++ generateSftpConfig [demo])).
Proof.
  cbv zeta.
  apply (updateSSHConfig_idempotent clock (os [] []) stringify demo [] demo
           [demo] (Text plain_sshd) w0); vm_compute; reflexivity.
Defined.

(** The block written for [demo] and then removed. *)
Lemma updateSSHConfig_removal_restores_witness :
  let w1 := snd (updateSSHConfig clock (os [] []) stringify [demo] w0) in
  let w2 := snd (updateSSHConfig clock (os [] []) stringify [] w1) in
  Fs.read (fs w2) (Path.resolve SSH_CONFIG_PATH)
  = inr (Text (JS.trimEnd (utf8 stringify (Text plain_sshd)))).
Proof.
  cbv zeta.
  apply (updateSSHConfig_removal_restores clock (os [] []) stringify demo []
           (Text plain_sshd) w0
           (snd (updateSSHConfig clock (os [] []) stringify [demo] w0)));
    vm_compute; reflexivity.
Defined.

(** The registry saved with a second project and read back. *)
Lemma saveProjects_loadProjects_witness :
  loadProjects (snd (saveProjects clock [demo; shop] w0))
  = (Ok [demo; shop], snd (saveProjects clock [demo; shop] w0)).
Proof.
  apply (saveProjects_loadProjects clock [demo; shop] w0).
  vm_compute. reflexivity.
Defined.

Lemma saveProjectConfig_loadProjectConfig_witness :
  exists cfg' w1,
    saveProjectConfig clock (js "demo") (demo_config [service "api"]) w0
    = (Ok cfg', w1)
    /\ loadProjectConfig clock (js "demo") w1 = (Ok cfg', w1)
    /\ cfg_services cfg' = Some [service "api"].
Proof.
  destruct (saveProjectConfig clock (js "demo") (demo_config [service "api"]) w0)
    as [[cfg'|e] w1] eqn:Run; [|vm_compute in Run; discriminate].
  destruct (saveProjectConfig_loadProjectConfig clock (js "demo")
              (demo_config [service "api"]) cfg' w0 w1 Run)
    as (Hload & _ & Hsvc & _).
  exists cfg', w1. split; [reflexivity|]. split; [exact Hload | exact Hsvc].
Defined.

(** On a host where nothing exists yet, the registry is created empty,
    once. *)
Lemma initConfigDir_idempotent_witness :
  let w1 := snd (initConfigDir fresh) in
  initConfigDir w1 = (Ok tt, w1)
  /\ Fs.read (fs w1) (Path.resolve PROJECTS_CONFIG_FILE)
     = inr (Json (DRegistry (mkRegistry (Some []) None))).
Proof.
  cbv zeta.
  destruct (initConfigDir_idempotent fresh (snd (initConfigDir fresh)))
    as (Hagain & Hnew & _).
  - vm_compute. reflexivity.
  - split; [exact Hagain|]. apply Hnew. vm_compute. reflexivity.
Defined.

(** The directory of [demo] exists while the registry is empty. *)
Lemma createProject_directory_taken_witness :
  createProject clock (os [] []) stringify (js "demo") (js "p@ssw0rd1")
    (world plain_sshd [] [])
  = (Throw (js "Le dossier " ++ Path.join [BASE_PATH; js "demo"]
            ++ js " existe déjà"), world plain_sshd [] []).
Proof.
  eapply (createProject_directory_taken clock (os [] []) stringify (js "demo")
            (js "p@ssw0rd1") (world plain_sshd [] [])
            (mkRegistry (Some []) (Some t0)) []).
  - vm_compute. reflexivity.
  - reflexivity.
  - vm_compute. reflexivity.
  - apply not_elem_of_nil.
  - vm_compute. reflexivity.
Defined.

Lemma deleteProject_unknown_witness :
  deleteProject clock (os [] []) stringify (js "ghost") true w0
  = (Throw (js "Le projet " ++ js "ghost" ++ js " n'existe pas"), w0).
Proof.
  apply (deleteProject_unknown clock (os [] []) stringify (js "ghost") true w0
           (mkRegistry (Some [demo]) (Some t0)) [demo]).
  - vm_compute. reflexivity.
  - reflexivity.
  - refine (bool_decide_unpack (js "ghost" ∉ List.map prj_name [demo]) _).
    vm_compute. exact I.
Defined.

(** The project [shop] created on the host, its account being unknown
    to the system. *)
Lemma createProject_registers_witness :
  exists cfg w',
    createProject clock (os [js "id sftp_shop"] []) stringify (js "shop")
      (js "p@ssw0rd1") w0
    = (Ok cfg, w')
    /\ cfg_services cfg = Some []
    /\ loadProjectConfig clock (js "shop") w' = (Ok cfg, w')
    /\ projectExists (js "shop") w' = (Ok true, w')
    /\ existsSync (js "/var/www/shop/sites") w' = (Ok true, w').
Proof.
  destruct (createProject clock (os [js "id sftp_shop"] []) stringify
              (js "shop") (js "p@ssw0rd1") w0)
    as [[cfg|e] w'] eqn:Run; [|vm_compute in Run; discriminate].
  destruct (createProject_registers clock (os [js "id sftp_shop"] [])
              stringify (js "shop") (js "p@ssw0rd1") cfg w0 w' Run)
    as (_ & _ & _ & _ & Hsvc & Hcfg & _ & Hex & Hsites & _).
  exists cfg, w'. split; [reflexivity|]. split; [exact Hsvc|].
  split; [exact Hcfg|]. split; [exact Hex|].
  exact Hsites.
Defined.

Lemma deleteProject_unregisters_witness :
  exists w',
    deleteProject clock (os [] []) stringify (js "demo") true w0 = (Ok tt, w')
    /\ loadProjects w' = (Ok [], w')
    /\ existsSync (Path.join [BASE_PATH; js "demo"]) w' = (Ok false, w').
Proof.
  destruct (deleteProject clock (os [] []) stringify (js "demo") true w0)
    as [[[]|e] w'] eqn:Run; [|vm_compute in Run; discriminate].
  destruct (deleteProject_unregisters clock (os [] []) stringify (js "demo")
              true (mkRegistry (Some [demo]) (Some t0)) [demo] w0 w')
    as (_ & Hload & _ & Hgone).
  - vm_compute. reflexivity.
  - vm_compute. reflexivity.
  - reflexivity.
  - exact Run.
  - exists w'. split; [reflexivity|]. split; [exact Hload|].
    apply Hgone. reflexivity.
Defined.

(** ** Services on the concrete host *)

Lemma undeclared_service_refused_witness :
  removeService clock (os [] []) (js "demo") (js "ghost") w0
  = (Throw (js "Le service " ++ js "ghost"
            ++ js " n'existe pas dans ce projet"), w0)
  /\ stopService clock (os [] []) (js "demo") (js "ghost") w0
     = (Throw (js "Le service " ++ js "ghost" ++ js " n'existe pas"), w0).
Proof.
  destruct (undeclared_service_refused clock (os [] []) (js "demo") (js "ghost")
              (demo_config [service "api"; service "web"; service "worker"])
              [service "api"; service "web"; service "worker"] w0)
    as (_ & _ & Hrm & _ & Hstop & _).
  - vm_compute. reflexivity.
  - reflexivity.
  - refine (bool_decide_unpack
              (js "ghost"
               ∉ List.map svc_name
                   [service "api"; service "web"; service "worker"]) _).
    vm_compute. exact I.
  - split; [exact Hrm | exact Hstop].
Defined.

Lemma addService_duplicate_witness :
  addService clock (js "demo") (request "api") w0
  = (Throw (js "Le service " ++ js "api"
            ++ js " existe déjà dans ce projet"), w0).
Proof.
  apply (addService_duplicate clock (js "demo") (request "api")
           (demo_config [service "api"; service "web"; service "worker"])
           [service "api"; service "web"; service "worker"] w0).
  - vm_compute. reflexivity.
  - reflexivity.
  - vm_compute. reflexivity.
  - vm_compute. left.
Defined.

(** The directory of a new service, created with its parent. *)
Lemma addService_directory_exists_witness :
  let sc := mkServiceConfig (js "blog") (js "blog/public") None None None in
  let w1 := snd (addService clock (js "demo") sc w0) in
  existsSync (js "/var/www/demo/sites/blog/public") w0 = (Ok false, w0)
  /\ existsSync (js "/var/www/demo/sites/blog/public") w1 = (Ok true, w1).
Proof.
  cbv zeta.
  set (sc := mkServiceConfig (js "blog") (js "blog/public") None None None).
  destruct (addService clock (js "demo") sc w0) as [[svc|e] w1] eqn:Run;
    [|vm_compute in Run; discriminate].
  destruct (addService_directory_exists clock (js "demo") sc svc w0 w1 Run)
    as (Hdir & Hex).
  split; [vm_compute; reflexivity|]. cbn [snd].
  rewrite Hdir in Hex.
  replace (js "/var/www/demo/sites/blog/public")
    with (servicePath (js "demo") (sc_directory sc))
    by (vm_compute; reflexivity).
  exact Hex.
Defined.

Lemma updateService_getService_witness :
  let u := mkServiceUpdates None (Some (js "node server.js")) None None in
  exists svc w1,
    updateService clock (js "demo") (js "web") u w0 = (Ok svc, w1)
    /\ getService clock (js "demo") (js "web") w1 = (Ok (Some svc), w1)
    /\ svc_command svc = js "node server.js".
Proof.
  cbv zeta.
  set (u := mkServiceUpdates None (Some (js "node server.js")) None None).
  destruct (updateService clock (js "demo") (js "web") u w0)
    as [[svc|e] w1] eqn:Run; [|vm_compute in Run; discriminate].
  destruct (updateService_getService clock (js "demo") (js "web") u svc w0 w1
              Run) as (Hget & _).
  exists svc, w1. split; [reflexivity|]. split; [exact Hget|].
  vm_compute in Run. injection Run as <- _. vm_compute. reflexivity.
Defined.

(** The supervisor refuses to stop [api]: no save. *)
Lemma stop_restart_steps_witness :
  let os' := os [js "pm2 stop demo-api"] [] in
  let run := stopService clock os' (js "demo") (js "api") w0 in
  acted w0 (snd run) [shell (js "pm2 " ++ js "stop " ++ js "demo-api")]
  /\ exists m,
       fst run
       = Throw (js "Erreur lors de l'arrêt: " ++ js "Erreur PM2: " ++ m).
Proof.
  cbv zeta.
  destruct (stop_restart_steps clock (os [js "pm2 stop demo-api"] [])
              (js "demo") (js "api")
              (demo_config [service "api"; service "web"; service "worker"])
              [service "api"; service "web"; service "worker"]
              (service "api") w0)
    as (Hstop & _).
  - vm_compute. reflexivity.
  - reflexivity.
  - vm_compute. reflexivity.
  - cbv beta zeta in Hstop.
    match type of Hstop with (if ?b then _ else _) =>
      destruct b eqn:E; [vm_compute in E; discriminate|]
    end.
    exact Hstop.
Defined.

(** The supervisor fails on every command: [web] is removed all the
    same. *)
Lemma removeService_best_effort_witness :
  let os' :=
    os [js "pm2 stop demo-web"; js "pm2 delete demo-web"] [] in
  exists w1,
    removeService clock os' (js "demo") (js "web") w0 = (Ok tt, w1)
    /\ declared w1 (js "demo") = [service "api"; service "worker"]
    /\ getService clock (js "demo") (js "web") w1 = (Ok None, w1).
Proof.
  cbv zeta.
  destruct (removeService_best_effort clock
              (os [js "pm2 stop demo-web"; js "pm2 delete demo-web"] [])
              (js "demo") (js "web")
              (demo_config [service "api"; service "web"; service "worker"])
              [service "api"; service "web"; service "worker"]
              1%nat (service "web") w0)
    as (w1 & evs & Hrun & Hdecl & Hget & _).
  - vm_compute. reflexivity.
  - vm_compute. reflexivity.
  - reflexivity.
  - vm_compute. reflexivity.
  - reflexivity.
  - exists w1. split; [exact Hrun|]. split; [exact Hdecl|].
    apply Hget.
    refine (bool_decide_unpack
              (NoDup (List.map svc_name
                        [service "api"; service "web"; service "worker"])) _).
    vm_compute. exact I.
Defined.

(** Every save of the process list fails on the host: each start is
    logged as an error, and the call returns all the same. *)
Lemma startAllServices_best_effort_witness :
  let os' := os [js "pm2 save"] [] in
  fst (startAllServices clock os' (js "demo") false w0) = Ok tt.
Proof.
  cbv zeta.
  rewrite (startAllServices_best_effort clock (os [js "pm2 save"] [])
             (js "demo") false
             (demo_config [service "api"; service "web"; service "worker"])
             [service "api"; service "web"; service "worker"] w0).
  - reflexivity.
  - vm_compute. reflexivity.
  - reflexivity.
  - discriminate.
Defined.

Lemma getServiceLogs_steps_witness :
  commands
    (effects
       (trace (snd (getServiceLogs clock (os [] []) (js "demo") (js "api")
                      None w0))))
  = [js "pm2 logs demo-api --nostream --lines 50"].
Proof.
  destruct (getServiceLogs_steps clock (os [] []) (js "demo") (js "api") None
              (demo_config [service "api"; service "web"; service "worker"])
              [service "api"; service "web"; service "worker"]
              (service "api") w0)
    as ([_ (evs & Htr & Heff)] & _).
  - reflexivity.
  - vm_compute. reflexivity.
  - reflexivity.
  - vm_compute. reflexivity.
  - rewrite Htr, effects_app, Heff. vm_compute. reflexivity.
Defined.

(** ** Sanity checks of the string and path primitives *)

Example js_ascii : js "ab/" = [97; 98; 47].
Proof. reflexivity. Qed.

Example js_accent : js "déjà →" = [100; 233; 106; 224; 32; 8594].
Proof. reflexivity. Qed.

Example decimal_1700 : JS.decimal 1700 = js "1700".
Proof. reflexivity. Qed.

Example decimal_0 : JS.decimal 0 = js "0".
Proof. reflexivity. Qed.

Example trimEnd_ex : JS.trimEnd (js "Port 22
  ") = js "Port 22".
Proof. reflexivity. Qed.

Example substring_swap : JS.substring (js "abcdef") 4 1 = js "bcd".
Proof. reflexivity. Qed.

Example indexOf_ex : JS.indexOf (js "abcabc") (js "ca") = 2%Z.
Proof. reflexivity. Qed.

Example join_api :
  Path.join [js "/var/www"; js "demo"; js "sites"; js "api"]
  = js "/var/www/demo/sites/api".
Proof. vm_compute. reflexivity. Qed.

Example join_parent :
  Path.join [js "/var/www"; js "demo"; js "sites"; js "../x/./y//z/"]
  = js "/var/www/demo/x/y/z/".
Proof. vm_compute. reflexivity. Qed.

Example join_empty :
  Path.join [js "/var/www"; js "demo"; js "sites"; js ""]
  = js "/var/www/demo/sites".
Proof. vm_compute. reflexivity. Qed.

Example resolve_ex :
  Path.resolve (js "/etc//ssh/./x/../sshd_config")
  = [js "etc"; js "ssh"; js "sshd_config"].
Proof. vm_compute. reflexivity. Qed.

Example valid_name_ok : valid_name (js "shop-api_2") = true.
Proof. reflexivity. Qed.

Example valid_name_digit : valid_name (js "2shop") = false.
Proof. reflexivity. Qed.

Example valid_name_slash : valid_name (js "a/b") = false.
Proof. reflexivity. Qed.
